(** * horrendous-pdf: tiled rendering, page layout, undo stacks and text
    selection of the PDF viewer, embedded from [src/main_window.py],
    [src/graphics_view.py] and [src/items/text_block.py].

  Conventions of the embedding.
  - Python floats are idealised as rationals ([Q]); Python ints are [Z].
    Every concrete value used below keeps a margin far above binary
    rounding error, so the idealisation does not decide any example.
  - Graphics items are Python objects shared between the scene, the undo
    entries and the block list.  They are modelled by an identifier
    ([nat]) into a store ([gmap]), so that aliasing is kept.
  - Purely visual calls (pens, brushes, cursors, tool tips, status-bar
    refreshes of enabled actions) are left out; every assignment to a
    field that the code reads back is kept.
  - Library calls whose result depends on more than the repository
    fixes ([QGraphicsTextItem.toPlainText], [os.path.normpath]) are
    parameters of the model. *)

From Stdlib Require Import ZArith QArith Qabs Qround Qminmax Lia Lqa String List.
From Stdlib Require Import Sorted Permutation.
From stdpp Require Import base gmap sets list strings.
Import ListNotations.

(** Python's [int(x)] on a float: truncation toward zero. *)
Definition py_int (x : Q) : Z := Z.quot (Qnum x) (Z.pos (Qden x)).

(** Python's [round(x)]: to the nearest integer, ties to the even one. *)
Definition py_round (x : Q) : Z :=
let f := Qfloor x in
match Qcompare (x - inject_Z f) (1 # 2) with
| Lt => f
| Gt => (f + 1)%Z
| Eq => if Z.even f then f else (f + 1)%Z
end.

(** Python's [round(x, 1)]: one decimal digit, same tie rule. *)
Definition py_round1 (x : Q) : Q := inject_Z (py_round (x * 10)) / 10.

(** Python's [abs]. *)
Definition py_abs (x : Q) : Q := Qabs x.


(* ------------------------------------------------------------------ *)
(** ** Zoom of the view ([PDFGraphicsView.zoom_in] and friends) *)
(* ------------------------------------------------------------------ *)
Module Zoom.

(** [self._zoom = 1.0] in [__init__]. *)
Definition zoom_init : Q := 1.

(** [min(self._zoom * 1.2, 5.0)] *)
Definition zoom_in (zoom : Q) : Q := Qmin (zoom * (12 # 10)) 5.

(** [max(self._zoom / 1.2, 0.5)] *)
Definition zoom_out (zoom : Q) : Q := Qmax (zoom / (12 # 10)) (5 # 10).

(** [self._zoom = 1.0] *)
Definition zoom_reset (zoom : Q) : Q := 1.

(** [max(0.5, min(factor, 5.0))] *)
Definition set_zoom (zoom factor : Q) : Q := Qmax (5 # 10) (Qmin factor 5).

Inductive zoom_op : Type :=
| ZoomIn
| ZoomOut
| ZoomReset
| SetZoom (factor : Q).

Definition apply_op (zoom : Q) (op : zoom_op) : Q :=
  match op with
  | ZoomIn => zoom_in zoom
  | ZoomOut => zoom_out zoom
  | ZoomReset => zoom_reset zoom
  | SetZoom f => set_zoom zoom f
  end.

(** The zoom after a sequence of operations, oldest first. *)
Definition run (ops : list zoom_op) (zoom : Q) : Q :=
  fold_left apply_op ops zoom.

Definition in_range (zoom : Q) : Prop := (5 # 10 <= zoom /\ zoom <= 5)%Q.

End Zoom.


(* ------------------------------------------------------------------ *)
(** ** Continuous page layout ([_build_page_layout], [page_at_y]) *)
(* ------------------------------------------------------------------ *)
Module Layout.

(** [PAGE_GAP = 20] *)
Definition PAGE_GAP : Z := 20.

(** [page.rect] of the PDF library: width and height in points. *)
Record page_rect : Type := { rect_width : Q; rect_height : Q }.

Record layout : Type := {
  page_offsets : list Z;
  page_heights : list Z;
  page_widths : list Z
}.

(** The body of [for page_num in range(self._total_pages)], with the
    running [y_offset]; the three [append]s build the three lists. *)
Fixpoint layout_loop (scale : Q) (pages : list page_rect) (y_offset : Z)
  : layout :=
  match pages with
  | [] => {| page_offsets := []; page_heights := []; page_widths := [] |}
  | page :: rest =>
      let pw := py_int (rect_width page * scale) in
      let ph := py_int (rect_height page * scale) in
      let l := layout_loop scale rest (y_offset + ph + PAGE_GAP)%Z in
      {| page_offsets := y_offset :: page_offsets l;
         page_heights := ph :: page_heights l;
         page_widths := pw :: page_widths l |}
  end.

(** [_build_page_layout]: [scale = self._dpi / 72.0], [y_offset = 0]. *)
Definition build_page_layout (pages : list page_rect) (dpi : Q) : layout :=
  layout_loop (dpi / 72) pages 0.

(** [page_at_y]: [for i in range(len(offsets) - 1, -1, -1)], scanning
    the indices [n - 1, ..., 0].  The index is always in range, so the
    [None] branch (an [IndexError] in Python) is never taken. *)
Fixpoint page_at_y_from (offsets : list Z) (n : nat) (y : Q) : nat :=
  match n with
  | O => O
  | S i =>
      match offsets !! i with
      | Some o => if Qle_bool (inject_Z o) y then i
                  else page_at_y_from offsets i y
      | None => page_at_y_from offsets i y
      end
  end.

Definition page_at_y (offsets : list Z) (y : Q) : nat :=
  page_at_y_from offsets (length offsets) y.

(** Offsets strictly increasing, as a list property. *)
Fixpoint strictly_increasing (l : list Z) : Prop :=
  match l with
  | [] => True
  | x :: rest =>
      match rest with
      | [] => True
      | y :: _ => (x < y)%Z /\ strictly_increasing rest
      end
  end.

(** The two other accumulators of the loop of [_build_page_layout]: the
    running [y_offset] when the loop ends, and [max_width]. *)
Fixpoint extent_loop (scale : Q) (pages : list page_rect)
    (y_offset max_width : Z) : Z * Z :=
  match pages with
  | [] => (y_offset, max_width)
  | page :: rest =>
      let pw := py_int (rect_width page * scale) in
      let ph := py_int (rect_height page * scale) in
      extent_loop scale rest (y_offset + ph + PAGE_GAP)%Z (Z.max max_width pw)
  end.

(** [total_height = y_offset - PAGE_GAP if self._total_pages > 0 else 0] *)
Definition total_height (pages : list page_rect) (dpi : Q) : Z :=
  match pages with
  | [] => 0%Z
  | _ :: _ => (fst (extent_loop (dpi / 72) pages 0 0) - PAGE_GAP)%Z
  end.

Definition max_width (pages : list page_rect) (dpi : Q) : Z :=
  snd (extent_loop (dpi / 72) pages 0 0).

(** [QRectF(-10, -10, max_width + 20, total_height + 20)], as
    [(x, y, width, height)]. *)
Definition scene_rect (pages : list page_rect) (dpi : Q) : Z * Z * Z * Z :=
  (-10, -10, max_width pages dpi + 20, total_height pages dpi + 20)%Z.

End Layout.


(* ------------------------------------------------------------------ *)
(** ** Python list used as a stack *)
(* ------------------------------------------------------------------ *)

(** [l.pop()]: the last element and the list without it; [None] on the
    empty list (the callers test emptiness first). *)
Fixpoint py_pop {A : Type} (l : list A) : option (list A * A) :=
  match l with
  | [] => None
  | x :: rest =>
      match py_pop rest with
      | None => Some ([], x)
      | Some (rest', y) => Some (x :: rest', y)
      end
  end.

(** [l.remove(x)]: drops the first occurrence. *)
Fixpoint py_remove (x : nat) (l : list nat) : list nat :=
  match l with
  | [] => []
  | y :: rest => if decide (x = y) then rest else y :: py_remove x rest
  end.

(* ------------------------------------------------------------------ *)
(** ** The view: transient undo/redo and the edit-mode undo/redo
       ([PDFGraphicsView], [EditableTextBlockItem]) *)
(* ------------------------------------------------------------------ *)
Module View.

(** [QPointF] *)
Definition point : Type := (Q * Q)%type.

Definition point_eqb (p q : point) : bool :=
  Qeq_bool (fst p) (fst q) && Qeq_bool (snd p) (snd q).

(** The dict returned by [clone_block]. *)
Record clip_block : Type := {
  cb_page_num : Z;
  cb_rect : Q * Q * Q * Q;
  cb_text : string;
  cb_font_size : Q;
  cb_font_name : string;
  cb_color : Q * Q * Q;
  cb_y_offset : Q;
  cb_scale : Q
}.

(** The fields of an [EditableTextBlockItem] that the code reads back.
    [text_item] is the text last given to [self._text_item.setPlainText],
    [pos] is [self.pos()]. *)
Record text_block : Type := {
  page_num : Z;
  rect : Q * Q * Q * Q;
  original_text : string;
  font_size : Q;
  font_name : string;
  text_color : Q * Q * Q;
  y_offset : Q;
  scale : Q;
  deleted : bool;
  editing : bool;
  text_item : string;
  pos : point
}.

Definition with_dynamic (b : text_block) (d e : bool) (t : string) (p : point)
  : text_block :=
  {| page_num := page_num b; rect := rect b;
     original_text := original_text b; font_size := font_size b;
     font_name := font_name b; text_color := text_color b;
     y_offset := y_offset b; scale := scale b;
     deleted := d; editing := e; text_item := t; pos := p |}.

(** [EditableTextBlockItem.__init__] *)
Definition new_block (pn : Z) (r : Q * Q * Q * Q) (text : string) (fs : Q)
    (fn : string) (col : Q * Q * Q) (yo sc : Q) : text_block :=
  {| page_num := pn; rect := r; original_text := text; font_size := fs;
     font_name := fn; text_color := col; y_offset := yo; scale := sc;
     deleted := false; editing := false; text_item := text; pos := (0%Q, 0%Q) |}.

(** [toPlainText t] is what [QGraphicsTextItem.toPlainText()] returns
    after [setPlainText(t)].  Qt is not part of the repository, and it
    does not give every text back as it was set (it documents that a
    no-break space comes back as a space, a line or paragraph separator
    as a line feed), so the function is left open: the model holds for
    every such function, and a theorem that needs a text to read back
    unchanged says so. *)
Class PlainText : Type := toPlainText : string -> string.

Section Reading.
Context `{PT : PlainText}.

(** [current_text] *)
Definition current_text (b : text_block) : string :=
  if deleted b then EmptyString else toPlainText (text_item b).

Definition is_modified (b : text_block) : bool :=
  negb (String.eqb (current_text b) (original_text b))
  || negb (point_eqb (pos b) (0%Q, 0%Q)).

(** [_update_visual]: of its effects only [setPlainText("[DELETED]")] is
    read back. *)
Definition _update_visual (b : text_block) : text_block :=
  if deleted b then with_dynamic b (deleted b) (editing b) "[DELETED]" (pos b)
  else b.

Definition _stop_editing (b : text_block) : text_block :=
  if editing b
  then _update_visual (with_dynamic b (deleted b) false (text_item b) (pos b))
  else b.

Definition set_current_text (text : string) (b : text_block) : text_block :=
  _update_visual (with_dynamic b false (editing b) text (pos b)).

Definition mark_deleted (b : text_block) : text_block :=
  _update_visual
    (_stop_editing (with_dynamic b true (editing b) (text_item b) (pos b))).

Definition restore_original (b : text_block) : text_block :=
  _update_visual (with_dynamic b false (editing b) (original_text b) (0%Q, 0%Q)).

Definition setPos (p : point) (b : text_block) : text_block :=
  with_dynamic b (deleted b) (editing b) (text_item b) p.

Definition clone_block (b : text_block) : clip_block :=
  {| cb_page_num := page_num b; cb_rect := rect b;
     cb_text := current_text b; cb_font_size := font_size b;
     cb_font_name := font_name b; cb_color := text_color b;
     cb_y_offset := y_offset b; cb_scale := scale b |}.

(** [entry["action"]] of the transient stack is ["add"] or ["remove"]. *)
Inductive action : Type := Add | Remove.

Record undo_entry : Type := { entry_action : action; entry_items : list nat }.

(** Entries of the edit-mode stacks: the action string with the keys of
    its [data] dict. *)
Inductive edit_entry : Type :=
| EMove (item : nat) (old_pos new_pos : point)
| EDeleteText (item : nat) (old_text : string)
| ERestore (item : nat) (old_text : string) (old_pos : point)
           (was_deleted : bool)
| EPaste (item : nat)
| EDeleteKey (item : nat)
| ECopy (item : nat).

(** [has_scene] is [self.scene() is not None]; [scene_items] holds the
    annotation and text-block items whose [scene()] is not [None] (tile
    pixmaps are kept apart, in module [Tiles]); [blocks] is the store of
    the [EditableTextBlockItem] objects, by identifier. *)
Record view_state : Type := {
  has_scene : bool;
  scene_items : gset nat;
  blocks : gmap nat text_block;
  undo_stack : list undo_entry;
  redo_stack : list undo_entry;
  edit_mode : bool;
  edit_text_blocks : list nat;
  edit_image_items : list nat;
  edit_undo_stack : list edit_entry;
  edit_redo_stack : list edit_entry;
  edit_clipboard : option clip_block
}.

Definition set_scene_items (x : gset nat) (v : view_state) : view_state :=
  {| has_scene := has_scene v; scene_items := x; blocks := blocks v;
     undo_stack := undo_stack v; redo_stack := redo_stack v;
     edit_mode := edit_mode v; edit_text_blocks := edit_text_blocks v;
     edit_image_items := edit_image_items v;
     edit_undo_stack := edit_undo_stack v;
     edit_redo_stack := edit_redo_stack v;
     edit_clipboard := edit_clipboard v |}.

Definition set_blocks (x : gmap nat text_block) (v : view_state)
  : view_state :=
  {| has_scene := has_scene v; scene_items := scene_items v; blocks := x;
     undo_stack := undo_stack v; redo_stack := redo_stack v;
     edit_mode := edit_mode v; edit_text_blocks := edit_text_blocks v;
     edit_image_items := edit_image_items v;
     edit_undo_stack := edit_undo_stack v;
     edit_redo_stack := edit_redo_stack v;
     edit_clipboard := edit_clipboard v |}.

Definition set_stacks (u r : list undo_entry) (v : view_state) : view_state :=
  {| has_scene := has_scene v; scene_items := scene_items v;
     blocks := blocks v; undo_stack := u; redo_stack := r;
     edit_mode := edit_mode v; edit_text_blocks := edit_text_blocks v;
     edit_image_items := edit_image_items v;
     edit_undo_stack := edit_undo_stack v;
     edit_redo_stack := edit_redo_stack v;
     edit_clipboard := edit_clipboard v |}.

Definition set_edit_text_blocks (x : list nat) (v : view_state) : view_state :=
  {| has_scene := has_scene v; scene_items := scene_items v;
     blocks := blocks v; undo_stack := undo_stack v;
     redo_stack := redo_stack v; edit_mode := edit_mode v;
     edit_text_blocks := x; edit_image_items := edit_image_items v;
     edit_undo_stack := edit_undo_stack v;
     edit_redo_stack := edit_redo_stack v;
     edit_clipboard := edit_clipboard v |}.

Definition set_edit_stacks (u r : list edit_entry) (v : view_state)
  : view_state :=
  {| has_scene := has_scene v; scene_items := scene_items v;
     blocks := blocks v; undo_stack := undo_stack v;
     redo_stack := redo_stack v; edit_mode := edit_mode v;
     edit_text_blocks := edit_text_blocks v;
     edit_image_items := edit_image_items v;
     edit_undo_stack := u; edit_redo_stack := r;
     edit_clipboard := edit_clipboard v |}.

Definition set_edit_clipboard (x : option clip_block) (v : view_state)
  : view_state :=
  {| has_scene := has_scene v; scene_items := scene_items v;
     blocks := blocks v; undo_stack := undo_stack v;
     redo_stack := redo_stack v; edit_mode := edit_mode v;
     edit_text_blocks := edit_text_blocks v;
     edit_image_items := edit_image_items v;
     edit_undo_stack := edit_undo_stack v;
     edit_redo_stack := edit_redo_stack v; edit_clipboard := x |}.

(** [__init__] with a scene installed by [setScene]. *)
Definition view_init : view_state :=
  {| has_scene := true; scene_items := ∅; blocks := ∅;
     undo_stack := []; redo_stack := [];
     edit_mode := false; edit_text_blocks := []; edit_image_items := [];
     edit_undo_stack := []; edit_redo_stack := [];
     edit_clipboard := None |}.

(** [setScene] of a fresh [QGraphicsScene]. *)
Definition setScene (v : view_state) : view_state :=
  {| has_scene := true; scene_items := ∅; blocks := blocks v;
     undo_stack := undo_stack v; redo_stack := redo_stack v;
     edit_mode := edit_mode v; edit_text_blocks := edit_text_blocks v;
     edit_image_items := edit_image_items v;
     edit_undo_stack := edit_undo_stack v;
     edit_redo_stack := edit_redo_stack v;
     edit_clipboard := edit_clipboard v |}.

(** *** Transient undo / redo *)

Definition can_undo (v : view_state) : bool :=
  match undo_stack v with [] => false | _ => true end.

Definition can_redo (v : view_state) : bool :=
  match redo_stack v with [] => false | _ => true end.

(** [for item in items: if item.scene() is not None:
      item.scene().removeItem(item)] *)
Definition remove_items (its : list nat) (sc : gset nat) : gset nat :=
  fold_left (fun sc it => if decide (it ∈ sc) then sc ∖ {[it]} else sc) its sc.

(** [scene = self.scene(); if scene: for item in items: scene.addItem(item)] *)
Definition add_items (scene : bool) (its : list nat) (sc : gset nat)
  : gset nat :=
  if scene then fold_left (fun sc it => sc ∪ {[it]}) its sc else sc.

Definition undo (v : view_state) : view_state :=
  match py_pop (undo_stack v) with
  | None => v
  | Some (rest, entry) =>
      match entry_action entry with
      | Add =>
          set_stacks rest (redo_stack v ++ [entry])
            (set_scene_items (remove_items (entry_items entry) (scene_items v))
               v)
      | Remove =>
          set_stacks rest (redo_stack v ++ [entry])
            (set_scene_items
               (add_items (has_scene v) (entry_items entry) (scene_items v)) v)
      end
  end.

Definition redo (v : view_state) : view_state :=
  match py_pop (redo_stack v) with
  | None => v
  | Some (rest, entry) =>
      match entry_action entry with
      | Add =>
          set_stacks (undo_stack v ++ [entry]) rest
            (set_scene_items
               (add_items (has_scene v) (entry_items entry) (scene_items v)) v)
      | Remove =>
          set_stacks (undo_stack v ++ [entry]) rest
            (set_scene_items (remove_items (entry_items entry) (scene_items v))
               v)
      end
  end.

Definition _push_undo (a : action) (its : list nat) (v : view_state)
  : view_state :=
  set_stacks (undo_stack v ++ [{| entry_action := a; entry_items := its |}])
    [] v.

Definition clear_undo_redo (v : view_state) : view_state := set_stacks [] [] v.

(** *** Edit-mode undo / redo *)

(** A method call on the block object [item]. *)
Definition on_block (f : text_block -> text_block) (item : nat)
    (v : view_state) : view_state :=
  set_blocks (alter f item (blocks v)) v.

(** [if item.scene() is not None: item.scene().removeItem(item)] *)
Definition scene_remove (item : nat) (v : view_state) : view_state :=
  set_scene_items (remove_items [item] (scene_items v)) v.

(** [scene = self.scene(); if scene and item.scene() is None:
      scene.addItem(item)] *)
Definition scene_add (item : nat) (v : view_state) : view_state :=
  if has_scene v && bool_decide (item ∉ scene_items v)
  then set_scene_items (scene_items v ∪ {[item]}) v
  else v.

(** [if item in self._edit_text_blocks: self._edit_text_blocks.remove(item)] *)
Definition blocks_remove (item : nat) (v : view_state) : view_state :=
  set_edit_text_blocks (py_remove item (edit_text_blocks v)) v.

(** [if item not in self._edit_text_blocks:
      self._edit_text_blocks.append(item)] *)
Definition blocks_append (item : nat) (v : view_state) : view_state :=
  if bool_decide (item ∈ edit_text_blocks v) then v
  else set_edit_text_blocks (edit_text_blocks v ++ [item]) v.

Definition push_edit_undo (entry : edit_entry) (v : view_state)
  : view_state :=
  let v1 := set_edit_stacks (edit_undo_stack v ++ [entry]) [] v in
  match entry with
  | ECopy item =>
      let v2 :=
        match blocks v1 !! item with
        | Some b => set_edit_clipboard (Some (clone_block b)) v1
        | None => v1
        end in
      match py_pop (edit_undo_stack v2) with
      | Some (rest, _) => set_edit_stacks rest (edit_redo_stack v2) v2
      | None => v2
      end
  | _ => v1
  end.

Definition edit_undo (v : view_state) : view_state :=
  match py_pop (edit_undo_stack v) with
  | None => v
  | Some (rest, entry) =>
      let v0 := set_edit_stacks rest (edit_redo_stack v) v in
      let '(v1, entry') :=
        match entry with
        | EMove item old_pos new_pos =>
            (on_block (setPos old_pos) item v0, EMove item new_pos old_pos)
        | EDeleteText item old_text =>
            (on_block
               (fun b => set_current_text old_text
                           (with_dynamic b false (editing b) (text_item b)
                              (pos b)))
               item v0, entry)
        | ERestore item old_text old_pos was_deleted =>
            (if was_deleted then on_block mark_deleted item v0
             else on_block (fun b => setPos old_pos
                                       (set_current_text old_text b))
                    item v0, entry)
        | EPaste item => (blocks_remove item (scene_remove item v0), entry)
        | EDeleteKey item => (blocks_append item (scene_add item v0), entry)
        | ECopy _ => (v0, entry)
        end in
      set_edit_stacks (edit_undo_stack v1) (edit_redo_stack v1 ++ [entry']) v1
  end.

Definition edit_redo (v : view_state) : view_state :=
  match py_pop (edit_redo_stack v) with
  | None => v
  | Some (rest, entry) =>
      let v0 := set_edit_stacks (edit_undo_stack v) rest v in
      let v1 :=
        match entry with
        | EMove item old_pos new_pos => on_block (setPos new_pos) item v0
        | EDeleteText item _ => on_block mark_deleted item v0
        | ERestore item _ _ _ => on_block restore_original item v0
        | EPaste item => blocks_append item (scene_add item v0)
        | EDeleteKey item => blocks_remove item (scene_remove item v0)
        | ECopy _ => v0
        end in
      set_edit_stacks (edit_undo_stack v1 ++ [entry]) (edit_redo_stack v1) v1
  end.

Definition _clear_edit_undo (v : view_state) : view_state :=
  set_edit_clipboard None (set_edit_stacks [] [] v).

(** [EditableTextBlockItem._push_edit_undo]: the view is found through
    the item's scene, so nothing is pushed for an item outside a scene. *)
Definition block_push_edit_undo (item : nat) (entry : edit_entry)
    (v : view_state) : view_state :=
  if bool_decide (item ∈ scene_items v) then push_edit_undo entry v else v.

(** A drag of the block [item] to [new_pos] ([mousePressEvent] records
    [_drag_start_pos], Qt moves the item, [mouseReleaseEvent] pushes). *)
Definition drag_block (item : nat) (new_pos : point) (v : view_state)
  : view_state :=
  match blocks v !! item with
  | None => v
  | Some b =>
      if deleted b then on_block (setPos new_pos) item v
      else
        let v1 := on_block (setPos new_pos) item v in
        if point_eqb new_pos (pos b) then v1
        else block_push_edit_undo item (EMove item (pos b) new_pos) v1
  end.

(** [contextMenuEvent], the three menu choices; [Delete] is offered only
    on a block that is not deleted, [Restore Original] is enabled only on
    a modified or deleted block. *)
Definition menu_copy (item : nat) (v : view_state) : view_state :=
  block_push_edit_undo item (ECopy item) (on_block _stop_editing item v).

Definition menu_delete (item : nat) (v : view_state) : view_state :=
  let v0 := on_block _stop_editing item v in
  match blocks v0 !! item with
  | None => v0
  | Some b =>
      if deleted b then v0
      else block_push_edit_undo item (EDeleteText item (current_text b))
             (on_block mark_deleted item v0)
  end.

Definition menu_restore (item : nat) (v : view_state) : view_state :=
  let v0 := on_block _stop_editing item v in
  match blocks v0 !! item with
  | None => v0
  | Some b =>
      if is_modified b || deleted b
      then block_push_edit_undo item
             (ERestore item (current_text b) (pos b) (deleted b))
             (on_block restore_original item v0)
      else v0
  end.

(** [keyPressEvent], Ctrl+C with no block being edited: the first
    selected text block is cloned into the clipboard. *)
Fixpoint key_copy (selected : list nat) (v : view_state) : view_state :=
  match selected with
  | [] => v
  | item :: rest =>
      match blocks v !! item with
      | Some b => set_edit_clipboard (Some (clone_block b)) v
      | None => key_copy rest v
      end
  end.

(** [_paste_block]; [new_item] is the identity of the object created. *)
Definition _paste_block (new_item : nat) (v : view_state) : view_state :=
  match edit_clipboard v with
  | None => v
  | Some cb =>
      let '(rx, ry, rw, rh) := cb_rect cb in
      let b := new_block (cb_page_num cb) ((rx + 20)%Q, (ry + 20)%Q, rw, rh)
                 (cb_text cb) (cb_font_size cb) (cb_font_name cb)
                 (cb_color cb) (cb_y_offset cb) (cb_scale cb) in
      if has_scene v
      then push_edit_undo (EPaste new_item)
             (set_edit_text_blocks (edit_text_blocks v ++ [new_item])
                (set_scene_items (scene_items v ∪ {[new_item]})
                   (set_blocks (<[new_item := b]> (blocks v)) v)))
      else v
  end.

(** [exit_edit_mode] *)
Definition exit_edit_mode (v : view_state) : view_state :=
  if edit_mode v then
    let sc :=
      if has_scene v
      then remove_items (edit_image_items v)
             (remove_items (edit_text_blocks v) (scene_items v))
      else scene_items v in
    _clear_edit_undo
      {| has_scene := has_scene v; scene_items := sc; blocks := blocks v;
         undo_stack := undo_stack v; redo_stack := redo_stack v;
         edit_mode := false; edit_text_blocks := [];
         edit_image_items := [];
         edit_undo_stack := edit_undo_stack v;
         edit_redo_stack := edit_redo_stack v;
         edit_clipboard := edit_clipboard v |}
  else v.

(** *** Further edit-mode operations *)

(** [_delete_selected_blocks]; [selected] is [scene.selectedItems()], the
    items that are text blocks are those of the store [blocks]. *)
Definition _delete_selected_blocks (selected : list nat) (v : view_state)
  : view_state :=
  if has_scene v
  then fold_left
         (fun st item =>
            match blocks st !! item with
            | Some _ =>
                push_edit_undo (EDeleteKey item)
                  (blocks_remove item
                     (set_scene_items (scene_items st ∖ {[item]}) st))
            | None => st
            end)
         selected v
  else v.

(** [get_text_edits] *)
Definition get_text_edits (v : view_state) : list nat :=
  List.filter (fun item => match blocks v !! item with
                           | Some b => is_modified b || deleted b
                           | None => false
                           end)
              (edit_text_blocks v).

(** [pdf_rect]: the [fitz.Rect(x0, y0, x1, y1)] of the block in PDF
    points. *)
Definition pdf_rect (b : text_block) : Q * Q * Q * Q :=
  let '(rx, ry, rw, rh) := rect b in
  let '(px, py) := pos b in
  let s := scale b in
  let yo := y_offset b in
  (((rx + px) / s)%Q, ((ry + py - yo) / s)%Q,
   ((rx + px + rw) / s)%Q, ((ry + py - yo + rh) / s)%Q).

(** The block that [enter_edit_mode] creates for a text block of the
    page with the bounding box [bbox = (x0, y0, x1, y1)] in PDF points:
    [sr = QRectF(bbox[0] * scale, bbox[1] * scale + y_off,
                 (bbox[2] - bbox[0]) * scale, (bbox[3] - bbox[1]) * scale)]. *)
Definition block_of_bbox (pn : Z) (bbox : Q * Q * Q * Q) (text : string)
    (fs : Q) (fn : string) (col : Q * Q * Q) (y_off sc : Q) : text_block :=
  let '(b0, b1, b2, b3) := bbox in
  new_block pn
    ((b0 * sc)%Q, (b1 * sc + y_off)%Q, ((b2 - b0) * sc)%Q, ((b3 - b1) * sc)%Q)
    text fs fn col y_off sc.

(** The colour of a span in [enter_edit_mode]:
    [((c >> 16) & 0xFF) / 255.0], [((c >> 8) & 0xFF) / 255.0],
    [(c & 0xFF) / 255.0]. *)
Definition unpack_color (c : Z) : Q * Q * Q :=
  ((inject_Z (Z.land (Z.shiftr c 16) 255) / 255)%Q,
   (inject_Z (Z.land (Z.shiftr c 8) 255) / 255)%Q,
   (inject_Z (Z.land c 255) / 255)%Q).

End Reading.

(** *** Derived notions and scenarios used by the theorems *)

(** A text item that gives every text back as it was set, as Qt does for
    a text without no-break spaces and line or paragraph separators; the
    scenarios below use such texts. *)
Definition verbatim_text : PlainText := fun t => t.

(** A text item that gives a no-break space (character 160) back as a
    space and every other character as it was set. *)
Fixpoint nbsp_to_space (t : string) : string :=
  match t with
  | EmptyString => EmptyString
  | String c rest =>
      String (if Ascii.eqb c (Ascii.ascii_of_nat 160) then Ascii.ascii_of_nat 32 else c)
             (nbsp_to_space rest)
  end.

Definition nbsp_text : PlainText := nbsp_to_space.

#[local] Existing Instance verbatim_text.

(** One text block in edit mode, as [enter_edit_mode] creates it. *)
Definition hello_block : text_block :=
  new_block 0 (10, 10, 100, 20)%Q "Hello" 11 "helv" (0, 0, 0)%Q 0 (150 / 72).

Definition one_block : view_state :=
  {| has_scene := true; scene_items := {[0%nat]};
     blocks := {[0%nat := hello_block]};
     undo_stack := []; redo_stack := [];
     edit_mode := true; edit_text_blocks := [0%nat]; edit_image_items := [];
     edit_undo_stack := []; edit_redo_stack := [];
     edit_clipboard := None |}.

(** The block is dragged by 30 px, and the drag is undone. *)
Definition dragged : view_state := drag_block 0 (30, 0)%Q one_block.
Definition drag_undone : view_state := edit_undo dragged.

Definition block_pos (v : view_state) (item : nat) : option point :=
  pos <$> blocks v !! item.

(** One text block whose text holds a no-break space. *)
Definition nbsp_block : text_block :=
  new_block 0 (10, 10, 100, 20)%Q
    (String (Ascii.ascii_of_nat 97)
       (String (Ascii.ascii_of_nat 160)
          (String (Ascii.ascii_of_nat 98) EmptyString)))
    11 "helv" (0, 0, 0)%Q 0 (150 / 72).

Definition nbsp_view : view_state :=
  {| has_scene := true; scene_items := {[0%nat]};
     blocks := {[0%nat := nbsp_block]};
     undo_stack := []; redo_stack := [];
     edit_mode := true; edit_text_blocks := [0%nat]; edit_image_items := [];
     edit_undo_stack := []; edit_redo_stack := [];
     edit_clipboard := None |}.

End View.

(* ------------------------------------------------------------------ *)
(** ** The window: document snapshots and the top-level undo / redo
       ([PDFEditorWindow._undo], [_push_doc_snapshot], ...) *)
(* ------------------------------------------------------------------ *)
Module Window.

(** A document is modelled by its serialisation: [doc.tobytes(...)] reads
    it and [fitz.open(stream=...)] rebuilds it. *)
Definition pdf_bytes : Type := list Byte.byte.

(** [doc] is [self._doc] ([None] before a file is opened); the stacks hold
    [(label, bytes)] pairs, oldest first.  [statusbar] is the last message
    shown; [tile_generation] is bumped by every document swap (the tile
    cache and the word index that are rebuilt after it are the subject of
    the modules [Tiles] and [Selection]). *)
Record window : Type := {
  view : View.view_state;
  doc : option pdf_bytes;
  doc_undo_stack : list (string * pdf_bytes);
  doc_redo_stack : list (string * pdf_bytes);
  statusbar : string;
  tile_generation : Z
}.

(** [self._doc_undo_limit = 10] *)
Definition doc_undo_limit : nat := 10.

Definition window_init : window :=
  {| view := View.view_init; doc := None;
     doc_undo_stack := []; doc_redo_stack := [];
     statusbar := EmptyString; tile_generation := 0 |}.

Definition set_view (x : View.view_state) (w : window) : window :=
  {| view := x; doc := doc w; doc_undo_stack := doc_undo_stack w;
     doc_redo_stack := doc_redo_stack w; statusbar := statusbar w;
     tile_generation := tile_generation w |}.

Definition set_doc (x : option pdf_bytes) (w : window) : window :=
  {| view := view w; doc := x; doc_undo_stack := doc_undo_stack w;
     doc_redo_stack := doc_redo_stack w; statusbar := statusbar w;
     tile_generation := tile_generation w |}.

Definition set_doc_stacks (u r : list (string * pdf_bytes)) (w : window)
  : window :=
  {| view := view w; doc := doc w; doc_undo_stack := u;
     doc_redo_stack := r; statusbar := statusbar w;
     tile_generation := tile_generation w |}.

Definition showMessage (msg : string) (w : window) : window :=
  {| view := view w; doc := doc w; doc_undo_stack := doc_undo_stack w;
     doc_redo_stack := doc_redo_stack w; statusbar := msg;
     tile_generation := tile_generation w |}.

Definition bump_generation (w : window) : window :=
  {| view := view w; doc := doc w; doc_undo_stack := doc_undo_stack w;
     doc_redo_stack := doc_redo_stack w; statusbar := statusbar w;
     tile_generation := (tile_generation w + 1)%Z |}.

(** [_push_doc_snapshot]; [if not self._doc: return] is the test for
    [None] (an opened document has pages, so it is never falsy). *)
Definition _push_doc_snapshot (label : string) (w : window) : window :=
  match doc w with
  | None => w
  | Some data =>
      let st := doc_undo_stack w ++ [(label, data)] in
      let st' := if (doc_undo_limit <? length st)%nat then tail st else st in
      set_doc_stacks st' [] w
  end.

(** [_restore_doc_from_bytes] *)
Definition _restore_doc_from_bytes (b : pdf_bytes) (w : window) : window :=
  let w1 := if View.edit_mode (view w)
            then set_view (View.exit_edit_mode (view w)) w else w in
  bump_generation (set_doc (Some b) w1).

(** [_doc_undo]; the current bytes are read before the swap.  A stack
    entry exists only once a document was opened, so [doc] is not [None]
    here (Python would raise on [None.tobytes]). *)
Definition _doc_undo (w : window) : window :=
  match py_pop (doc_undo_stack w) with
  | None => w
  | Some (rest, (label, old_bytes)) =>
      let cur_bytes := default [] (doc w) in
      let w1 := set_doc_stacks rest (doc_redo_stack w ++ [(label, cur_bytes)])
                  w in
      showMessage ("Undo: " ++ label) (_restore_doc_from_bytes old_bytes w1)
  end.

(** [_doc_redo] *)
Definition _doc_redo (w : window) : window :=
  match py_pop (doc_redo_stack w) with
  | None => w
  | Some (rest, (label, redo_bytes)) =>
      let cur_bytes := default [] (doc w) in
      let w1 := set_doc_stacks (doc_undo_stack w ++ [(label, cur_bytes)]) rest
                  w in
      showMessage ("Redo: " ++ label) (_restore_doc_from_bytes redo_bytes w1)
  end.

(** [_undo] *)
Definition _undo (w : window) : window :=
  if View.can_undo (view w)
  then showMessage "Undo" (set_view (View.undo (view w)) w)
  else
    match doc_undo_stack w with
    | _ :: _ => _doc_undo w
    | [] => w
    end.

(** [_redo] *)
Definition _redo (w : window) : window :=
  if View.can_redo (view w)
  then showMessage "Redo" (set_view (View.redo (view w)) w)
  else
    match doc_redo_stack w with
    | _ :: _ => _doc_redo w
    | [] => w
    end.

(** [_load_pdf] of a file that opens: both kinds of stacks are cleared,
    and [_build_page_layout] installs a fresh scene. *)
Definition _load_pdf (b : pdf_bytes) (w : window) : window :=
  let w1 := if View.edit_mode (view w)
            then set_view (View.exit_edit_mode (view w)) w else w in
  bump_generation
    (set_doc_stacks [] []
       (set_view (View.setScene (View.clear_undo_redo (view w1)))
          (set_doc (Some b) w1))).

(** What can happen to the window between two observations; [OpBurnIn]
    is a burn-in operation: a snapshot push, then a mutation of the
    document by the PDF library. *)
Inductive window_op : Type :=
| OpLoad (b : pdf_bytes)
| OpBurnIn (label : string) (after : pdf_bytes)
| OpPushSnapshot (label : string)
| OpDocUndo
| OpDocRedo
| OpUndo
| OpRedo
| OpView (f : View.view_state -> View.view_state).

Definition apply_op (w : window) (op : window_op) : window :=
  match op with
  | OpLoad b => _load_pdf b w
  | OpBurnIn label after =>
      match doc w with
      | None => w
      | Some _ => bump_generation (set_doc (Some after)
                                     (_push_doc_snapshot label w))
      end
  | OpPushSnapshot label => _push_doc_snapshot label w
  | OpDocUndo => _doc_undo w
  | OpDocRedo => _doc_redo w
  | OpUndo => _undo w
  | OpRedo => _redo w
  | OpView f => set_view (f (view w)) w
  end.

Definition run (ops : list window_op) (w : window) : window :=
  fold_left apply_op ops w.

(** *** Derived notions and scenarios used by the theorems *)

Definition stacks_bounded (w : window) : Prop :=
  (length (doc_undo_stack w) + length (doc_redo_stack w) <= doc_undo_limit)%nat.

Definition ten_pushes : list window_op :=
  OpLoad [Byte.x25]
  :: map OpPushSnapshot ["1"; "2"; "3"; "4"; "5"; "6"; "7"; "8"; "9"; "10"].

(** What "undo a transient action" and "undo a document snapshot" mean
    on the window. *)
Definition transient_undone (w w' : window) : Prop :=
  exists rest e,
    View.undo_stack (view w) = rest ++ [e]
    /\ w' = showMessage "Undo" (set_view (View.undo (view w)) w)
    /\ View.undo_stack (view w') = rest
    /\ View.redo_stack (view w') = View.redo_stack (view w) ++ [e]
    /\ doc w' = doc w
    /\ doc_undo_stack w' = doc_undo_stack w
    /\ doc_redo_stack w' = doc_redo_stack w.

Definition document_undone (w w' : window) : Prop :=
  exists rest label old,
    doc_undo_stack w = rest ++ [(label, old)]
    /\ w' = _doc_undo w
    /\ doc w' = Some old
    /\ doc_undo_stack w' = rest
    /\ doc_redo_stack w' = doc_redo_stack w ++ [(label, default [] (doc w))]
    /\ View.undo_stack (view w') = View.undo_stack (view w)
    /\ View.redo_stack (view w') = View.redo_stack (view w).

Definition transient_redone (w w' : window) : Prop :=
  exists rest e,
    View.redo_stack (view w) = rest ++ [e]
    /\ w' = showMessage "Redo" (set_view (View.redo (view w)) w)
    /\ View.redo_stack (view w') = rest
    /\ View.undo_stack (view w') = View.undo_stack (view w) ++ [e]
    /\ doc w' = doc w
    /\ doc_undo_stack w' = doc_undo_stack w
    /\ doc_redo_stack w' = doc_redo_stack w.

Definition document_redone (w w' : window) : Prop :=
  exists rest label new,
    doc_redo_stack w = rest ++ [(label, new)]
    /\ w' = _doc_redo w
    /\ doc w' = Some new
    /\ doc_redo_stack w' = rest
    /\ doc_undo_stack w' = doc_undo_stack w ++ [(label, default [] (doc w))]
    /\ View.undo_stack (view w') = View.undo_stack (view w)
    /\ View.redo_stack (view w') = View.redo_stack (view w).

(** A window with one pen stroke on the transient stack and one burn-in
    snapshot on the document stack: the first undo takes the stroke, the
    second the snapshot, the third finds both stacks empty. *)
Definition stroke_and_stamp : window :=
  run [OpLoad [Byte.x25];
       OpBurnIn "Stamp" [Byte.x26];
       OpView (fun v => View._push_undo View.Add [7%nat]
                          (View.set_scene_items {[7%nat]} v))]
      window_init.

End Window.

(* ------------------------------------------------------------------ *)
(** ** The recent-files list ([PDFEditorWindow._add_to_recent]) *)
(* ------------------------------------------------------------------ *)
Module Recent.

(** [self._max_recent = 10] *)
Definition max_recent : nat := 10.

(** [_add_to_recent]; [normpath] is [os.path.normpath], and the result is
    the new [self._recent_files], most recent first. *)
Definition _add_to_recent (normpath : string -> string) (path : string)
    (recent_files : list string) : list string :=
  let path := normpath path in
  let recent_files := filter (fun f => normpath f <> path) recent_files in
  take max_recent (path :: recent_files).

End Recent.

(* ------------------------------------------------------------------ *)
(** ** Tile scheduler and pixel cache
       ([_ensure_visible_tiles], [_render_tile], [_trim_tile_cache]) *)
(* ------------------------------------------------------------------ *)
Module Tiles.

(** [TILE_PIXELS = 512]; [self._dpi = 150] is never reassigned. *)
Definition TILE_PIXELS : Q := 512.
Definition dpi : Q := 150.
Definition scale_base : Q := dpi / 72.

(** [(page, row, col)] and [(page, row, col, ts_key)]. *)
Definition tile_key : Type := (nat * Z * Z)%type.
Definition cache_key : Type := (nat * Z * Z * Q)%type.

(** Tuple equality of Python: numbers compare by value. *)
Definition cache_key_eqb (a b : cache_key) : bool :=
  let '(p1, r1, c1, k1) := a in
  let '(p2, r2, c2, k2) := b in
  Nat.eqb p1 p2 && Z.eqb r1 r2 && Z.eqb c1 c2 && Qeq_bool k1 k2.

(** A rendered pixel block, by the request that produced it:
    [page.get_pixmap(matrix=Matrix(mat_scale, mat_scale), clip=clip)]. *)
Record pixmap : Type := {
  px_page : nat;
  px_clip : Q * Q * Q * Q;
  px_mat_scale : Q
}.

(** [OrderedDict]: an association list, least recently used first. *)
Definition odict : Type := list (cache_key * pixmap).

Fixpoint od_get (k : cache_key) (d : odict) : option pixmap :=
  match d with
  | [] => None
  | (k', v) :: rest => if cache_key_eqb k k' then Some v else od_get k rest
  end.

Fixpoint od_remove (k : cache_key) (d : odict) : odict :=
  match d with
  | [] => []
  | (k', v) :: rest =>
      if cache_key_eqb k k' then rest else (k', v) :: od_remove k rest
  end.

(** [d[k] = v]: an existing key keeps its place, a new one goes last. *)
Fixpoint od_set (k : cache_key) (v : pixmap) (d : odict) : odict :=
  match d with
  | [] => [(k, v)]
  | (k', v') :: rest =>
      if cache_key_eqb k k' then (k', v) :: rest
      else (k', v') :: od_set k v rest
  end.

(** [d.move_to_end(k)] for a key that is present. *)
Definition od_move_to_end (k : cache_key) (d : odict) : odict :=
  match od_get k d with
  | Some v => od_remove k d ++ [(k, v)]
  | None => d
  end.

(** [zoom] is [self._view._zoom]; [tile_items] maps a placed tile to the
    pixmap of its scene item. *)
Record state : Type := {
  has_doc : bool;
  has_scene : bool;
  zoom : Q;
  page_offsets : list Z;
  page_heights : list Z;
  page_widths : list Z;
  tile_items : gmap tile_key pixmap;
  tile_cache : odict;
  tile_cache_max : nat;
  current_tile_ss : Q;
  tile_generation : Z
}.

Definition set_zoom_field (x : Q) (s : state) : state :=
  {| has_doc := has_doc s; has_scene := has_scene s; zoom := x;
     page_offsets := page_offsets s; page_heights := page_heights s;
     page_widths := page_widths s; tile_items := tile_items s;
     tile_cache := tile_cache s; tile_cache_max := tile_cache_max s;
     current_tile_ss := current_tile_ss s;
     tile_generation := tile_generation s |}.

Definition set_tile_items (x : gmap tile_key pixmap) (s : state) : state :=
  {| has_doc := has_doc s; has_scene := has_scene s; zoom := zoom s;
     page_offsets := page_offsets s; page_heights := page_heights s;
     page_widths := page_widths s; tile_items := x;
     tile_cache := tile_cache s; tile_cache_max := tile_cache_max s;
     current_tile_ss := current_tile_ss s;
     tile_generation := tile_generation s |}.

Definition set_tile_cache (x : odict) (s : state) : state :=
  {| has_doc := has_doc s; has_scene := has_scene s; zoom := zoom s;
     page_offsets := page_offsets s; page_heights := page_heights s;
     page_widths := page_widths s; tile_items := tile_items s;
     tile_cache := x; tile_cache_max := tile_cache_max s;
     current_tile_ss := current_tile_ss s;
     tile_generation := tile_generation s |}.

Definition set_current_tile_ss (x : Q) (s : state) : state :=
  {| has_doc := has_doc s; has_scene := has_scene s; zoom := zoom s;
     page_offsets := page_offsets s; page_heights := page_heights s;
     page_widths := page_widths s; tile_items := tile_items s;
     tile_cache := tile_cache s; tile_cache_max := tile_cache_max s;
     current_tile_ss := x; tile_generation := tile_generation s |}.

Definition bump_generation (s : state) : state :=
  {| has_doc := has_doc s; has_scene := has_scene s; zoom := zoom s;
     page_offsets := page_offsets s; page_heights := page_heights s;
     page_widths := page_widths s; tile_items := tile_items s;
     tile_cache := tile_cache s; tile_cache_max := tile_cache_max s;
     current_tile_ss := current_tile_ss s;
     tile_generation := (tile_generation s + 1)%Z |}.

(** The state right after [_build_page_layout] of a document with the
    given layout, before the first tile pass. *)
Definition state_of_layout (l : Layout.layout) : state :=
  {| has_doc := true; has_scene := true; zoom := Zoom.zoom_init;
     page_offsets := Layout.page_offsets l;
     page_heights := Layout.page_heights l;
     page_widths := Layout.page_widths l;
     tile_items := ∅; tile_cache := []; tile_cache_max := 200;
     current_tile_ss := 0; tile_generation := 1 |}.

(** [_tile_scene_size] *)
Definition _tile_scene_size (s : state) : Q :=
  TILE_PIXELS / Qmax (zoom s) (1 # 10).

(** [_add_tile_to_scene]; the position and the transform of the new scene
    item are functions of the key and the zoom and are not read back. *)
Definition _add_tile_to_scene (page : nat) (row col : Z) (qpixmap : pixmap)
    (s : state) : state :=
  set_tile_items (<[(page, row, col) := qpixmap]> (tile_items s)) s.

(** [_render_tile].  [page_num] comes from [_visible_tiles] and indexes
    the layout lists in range; out of range Python raises, here the state
    is left as it is. *)
Definition _render_tile (page_num : nat) (row col : Z) (s : state) : state :=
  let ts := _tile_scene_size s in
  match page_widths s !! page_num, page_heights s !! page_num with
  | Some pw, Some ph =>
      let tx := (inject_Z col * ts)%Q in
      let ty := (inject_Z row * ts)%Q in
      let tw := Qmin ts (inject_Z pw - tx) in
      let th := Qmin ts (inject_Z ph - ty) in
      if Qle_bool tw 0 || Qle_bool th 0 then s
      else
        let clip := ((tx / scale_base)%Q, (ty / scale_base)%Q,
                     ((tx + tw) / scale_base)%Q,
                     ((ty + th) / scale_base)%Q) in
        let mat_scale := (TILE_PIXELS * scale_base / ts)%Q in
        let qpixmap := {| px_page := page_num; px_clip := clip;
                          px_mat_scale := mat_scale |} in
        let ts_key := py_round1 ts in
        let cache_key := (page_num, row, col, ts_key) in
        _add_tile_to_scene page_num row col qpixmap
          (set_tile_cache
             (od_move_to_end cache_key
                (od_set cache_key qpixmap (tile_cache s))) s)
  | _, _ => s
  end.

(** [_remove_tile_from_scene] *)
Definition _remove_tile_from_scene (key : tile_key) (s : state) : state :=
  set_tile_items (delete key (tile_items s)) s.

(** [_remove_all_tile_items] *)
Definition _remove_all_tile_items (s : state) : state := set_tile_items ∅ s.

(** The [while] loop of [_trim_tile_cache]: every round drops the head,
    so the recursion is on the cache itself. *)
Fixpoint trim_loop (cache_max : nat) (visible_cache : cache_key -> bool)
    (cache : odict) : odict :=
  match cache with
  | [] => []
  | (oldest_key, v) :: rest =>
      if (cache_max <? length cache)%nat
      then if visible_cache oldest_key then cache
           else trim_loop cache_max visible_cache rest
      else cache
  end.

(** [oldest_key in visible_cache], for
    [visible_cache = {(p, r, c, ts_key) for (p, r, c) in visible_keys}]. *)
Definition in_visible_cache (visible_keys : gset tile_key) (ts_key : Q)
    (k : cache_key) : bool :=
  let '(p, r, c, tk) := k in
  bool_decide ((p, r, c) ∈ visible_keys) && Qeq_bool tk ts_key.

(** [_trim_tile_cache] *)
Definition _trim_tile_cache (visible_keys : gset tile_key) (s : state)
  : state :=
  let ts_key := py_round1 (_tile_scene_size s) in
  set_tile_cache
    (trim_loop (tile_cache_max s) (in_visible_cache visible_keys ts_key)
       (tile_cache s)) s.

(** The loop [for key in visible - current] of [_ensure_visible_tiles].
    The result carries [false] when the loop left the whole function
    through [return]. *)
Fixpoint render_missing (generation : Z) (ts_key : Q) (keys : list tile_key)
    (s : state) : state * bool :=
  match keys with
  | [] => (s, true)
  | (page, row, col) :: rest =>
      if negb (Z.eqb (tile_generation s) generation) then (s, false)
      else
        let cache_key := (page, row, col, ts_key) in
        let s' :=
          match od_get cache_key (tile_cache s) with
          | Some cached =>
              _add_tile_to_scene page row col cached
                (set_tile_cache (od_move_to_end cache_key (tile_cache s)) s)
          | None => _render_tile page row col s
          end in
        render_missing generation ts_key rest s'
  end.

(** [_ensure_visible_tiles]; [visible] is the set that [_visible_tiles()]
    returns for the current viewport. *)
Definition _ensure_visible_tiles (visible : gset tile_key) (s : state)
  : state :=
  if negb (has_doc s) || negb (has_scene s) then s
  else
    let ts := _tile_scene_size s in
    let generation := tile_generation s in
    let ts_key := py_round1 ts in
    let s1 :=
      if negb (Qle_bool (py_abs (ts - current_tile_ss s)) (5 # 100))
      then set_current_tile_ss ts (_remove_all_tile_items s)
      else s in
    let current := dom (tile_items s1) in
    match render_missing generation ts_key (elements (visible ∖ current)) s1
    with
    | (s2, false) => s2
    | (s2, true) =>
        _trim_tile_cache visible
          (fold_left (fun st key => _remove_tile_from_scene key st)
             (elements (current ∖ visible)) s2)
    end.

(** [_rerender_for_zoom], run by the debounce timer after a zoom change. *)
Definition _rerender_for_zoom (visible : gset tile_key) (s : state) : state :=
  if negb (has_doc s) || negb (has_scene s) then s
  else
    let ts := _tile_scene_size s in
    if negb (Qle_bool (5 # 100) (py_abs (ts - current_tile_ss s))) then s
    else
      _ensure_visible_tiles visible
        (set_current_tile_ss ts (_remove_all_tile_items (bump_generation s))).

(** The zoom under which a pixmap was rendered, read off its matrix:
    [mat_scale = TILE_PIXELS * scale_base / ts] and
    [ts = TILE_PIXELS / max(zoom, 0.1)]. *)
Definition rendered_zoom (px : pixmap) : Q := px_mat_scale px / scale_base.

(** The zoom bucket of a zoom level: its rounded tile scene size. *)
Definition zoom_bucket (z : Q) : Q := py_round1 (TILE_PIXELS / Qmax z (1 # 10)).

(** Every cached pixmap sits under the bucket of the zoom it was rendered
    at. *)
Definition cache_wf (d : odict) : Prop :=
  forall k px, In (k, px) d ->
    (1 # 10 <= rendered_zoom px)%Q
    /\ (snd k == zoom_bucket (rendered_zoom px))%Q.

(** Events of the viewport, for scenarios. *)
Inductive event : Type :=
| EvSetZoom (factor : Q)
| EvZoomIn
| EvZoomOut
| EvScroll (visible : gset tile_key)
| EvZoomTimer (visible : gset tile_key).

Definition handle (s : state) (e : event) : state :=
  match e with
  | EvSetZoom f => set_zoom_field (Zoom.set_zoom (zoom s) f) s
  | EvZoomIn => set_zoom_field (Zoom.zoom_in (zoom s)) s
  | EvZoomOut => set_zoom_field (Zoom.zoom_out (zoom s)) s
  | EvScroll visible => _ensure_visible_tiles visible s
  | EvZoomTimer visible => _rerender_for_zoom visible s
  end.

Definition run (events : list event) (s : state) : state :=
  fold_left handle events s.

(** *** Tiles of a pass *)

(** The tile [(page, row, col)] starts inside its page at the current
    zoom: [col * ts < pw] and [row * ts < ph]. *)
Definition on_page (s : state) (key : tile_key) : Prop :=
  let '(page, row, col) := key in
  exists pw ph,
    page_widths s !! page = Some pw /\ page_heights s !! page = Some ph
    /\ (inject_Z col * _tile_scene_size s < inject_Z pw)%Q
    /\ (inject_Z row * _tile_scene_size s < inject_Z ph)%Q.

(** One round of the loop [for key in visible - current], after the
    generation test. *)
Definition place_missing (ts_key : Q) (key : tile_key) (s : state) : state :=
  let '(page, row, col) := key in
  match od_get (page, row, col, ts_key) (tile_cache s) with
  | Some cached =>
      _add_tile_to_scene page row col cached
        (set_tile_cache
           (od_move_to_end (page, row, col, ts_key) (tile_cache s)) s)
  | None => _render_tile page row col s
  end.

(** *** Derived notions and scenarios used by the theorems *)

(** A tile of the scene is acceptable for a pass that started in [s0] at
    zoom [z]: it was already placed, or its pixels were rendered at a zoom
    of the same bucket as [z]. *)
Definition placed_ok (s0 : state) (z : Q) (items : gmap tile_key pixmap)
  : Prop :=
  forall key px, items !! key = Some px ->
    tile_items s0 !! key = Some px
    \/ zoom_bucket (rendered_zoom px) == zoom_bucket z.

(** Every tile of the scene carries pixels rendered at a zoom whose
    rounded tile size is within 0.1 of the grid marker
    [_current_tile_ss]. *)
Definition scene_fresh (s : state) : Prop :=
  forall key px, tile_items s !! key = Some px ->
    (Qabs (zoom_bucket (rendered_zoom px) - current_tile_ss s) <= 1 # 10)%Q.

(** One US-letter page at 150 DPI: 1275 x 1650 px. *)
Definition letter_page : state :=
  state_of_layout
    (Layout.build_page_layout
       [{| Layout.rect_width := 612; Layout.rect_height := 792 |}] 150).

Definition top_left : tile_key := (0%nat, 0%Z, 0%Z).

(** Slider at 272 %, three zoom-in steps (zoom 4.70016), the debounce
    timer fires and the top-left tile is rendered; the view scrolls away
    from it; the slider is set to 470 % (zoom 4.7) and the timer fires
    again. *)
Definition zoomed_twice : state :=
  run [EvSetZoom (272 # 100); EvZoomIn; EvZoomIn; EvZoomIn;
       EvZoomTimer {[top_left]}; EvScroll ∅;
       EvSetZoom (47 # 10); EvZoomTimer ∅]
      letter_page.

(** Slider at 334 %, two zoom-in steps (zoom 4.8096, tile size 106.454),
    the timer fires and the top-left tile is rendered; the slider is set
    to 481 % (zoom 4.81, tile size 106.445) and the timer fires again;
    then the view scrolls with the tile still in view. *)
Definition near_zoom : state :=
  run [EvSetZoom (334 # 100); EvZoomIn; EvZoomIn;
       EvZoomTimer {[top_left]};
       EvSetZoom (481 # 100); EvZoomTimer {[top_left]};
       EvScroll {[top_left]}]
      letter_page.

(** At zoom 5 a tile covers 102.4 scene px, so the letter page has 13
    columns and 17 rows of tiles.  [rows_of_tiles] is the set of all
    tiles of the given rows, the shape that [_visible_tiles] returns for a
    viewport as wide as the page. *)
Definition rows_of_tiles (rows : list Z) : gset tile_key :=
  list_to_set
    (flat_map (fun r => map (fun c => (0%nat, r, c))
                            [0; 1; 2; 3; 4; 5; 6; 7; 8; 9; 10; 11; 12]%Z)
              rows).

Definition middle_tile : tile_key := (0%nat, 8%Z, 6%Z).

(** Zoom 5; a small viewport shows the middle tile; the viewport grows
    to rows 0..8 (the middle tile on its last row); then it scrolls down
    to rows 8..16 (the middle tile on its first row).  The middle tile
    stays in view all the time, so it is never touched again in the
    cache. *)
Definition scrolled_down : state :=
  run [EvSetZoom 5;
       EvZoomTimer {[middle_tile]};
       EvScroll (rows_of_tiles [0; 1; 2; 3; 4; 5; 6; 7; 8]%Z);
       EvScroll (rows_of_tiles [8; 9; 10; 11; 12; 13; 14; 15; 16]%Z)]
      letter_page.

Definition unprotected (visible : gset tile_key) (s : state) : odict :=
  filter (fun e => in_visible_cache visible
                     (py_round1 (_tile_scene_size s)) (fst e) = false)
    (tile_cache s).

End Tiles.

(* ------------------------------------------------------------------ *)
(** ** Text selection ([set_word_data], [_nearest_word_index],
       [_update_text_selection_linear]) *)
(* ------------------------------------------------------------------ *)
Module Selection.

(** The word tuple [(x0, y0, x1, y1, text, block, line, word, page)]. *)
Record word : Type := {
  w_x0 : Q; w_y0 : Q; w_x1 : Q; w_y1 : Q;
  w_text : string;
  w_block : Z; w_line : Z; w_word : Z;
  w_page : Z
}.

(** [QRectF(x, y, width, height)] *)
Definition qrect : Type := (Q * Q * Q * Q)%type.

(** The sort key [(w[8], w[5], w[6], w[7])]. *)
Definition reading_key (w : word) : Z * Z * Z * Z :=
  (w_page w, w_block w, w_line w, w_word w).

(** Tuple comparison [a <= b] of Python: lexicographic. *)
Definition key_leb (a b : Z * Z * Z * Z) : bool :=
  let '(a1, a2, a3, a4) := a in
  let '(b1, b2, b3, b4) := b in
  match Z.compare a1 b1 with
  | Lt => true
  | Gt => false
  | Eq =>
      match Z.compare a2 b2 with
      | Lt => true
      | Gt => false
      | Eq =>
          match Z.compare a3 b3 with
          | Lt => true
          | Gt => false
          | Eq => Z.leb a4 b4
          end
      end
  end.

Definition reading_le (v w : word) : Prop :=
  key_leb (reading_key v) (reading_key w) = true.

(** [sorted(word_data, key=...)] is a stable sort; stable sorts agree on
    their result, here by insertion from the right. *)
Fixpoint insert_word (w : word) (l : list word) : list word :=
  match l with
  | [] => [w]
  | v :: rest =>
      if key_leb (reading_key w) (reading_key v) then w :: l
      else v :: insert_word w rest
  end.

Fixpoint sorted_words (l : list word) : list word :=
  match l with
  | [] => []
  | w :: rest => insert_word w (sorted_words rest)
  end.

(** [selection_highlight_items] holds the rectangles of the highlight
    items that are in the scene. *)
Record state : Type := {
  has_scene : bool;
  word_data : list word;
  selection_highlight_items : list qrect;
  selected_word_rects : list qrect;
  selected_text : string
}.

(** [_clear_text_selection] *)
Definition _clear_text_selection (s : state) : state :=
  {| has_scene := has_scene s; word_data := word_data s;
     selection_highlight_items := []; selected_word_rects := [];
     selected_text := EmptyString |}.

(** [set_word_data] *)
Definition set_word_data (ws : list word) (s : state) : state :=
  _clear_text_selection
    {| has_scene := has_scene s; word_data := sorted_words ws;
       selection_highlight_items := selection_highlight_items s;
       selected_word_rects := selected_word_rects s;
       selected_text := selected_text s |}.

(** [d = (px - cx) ** 2 + (py - cy) ** 2] for the centre [(cx, cy)] of the
    word box. *)
Definition dist2 (px py : Q) (wd : word) : Q :=
  let cx := ((w_x0 wd + w_x1 wd) / 2)%Q in
  let cy := ((w_y0 wd + w_y1 wd) / 2)%Q in
  ((px - cx) * (px - cx) + (py - cy) * (py - cy))%Q.

(** The loop of [_nearest_word_index]; [best_dist = None] is
    [float('inf')]. *)
Fixpoint nearest_loop (px py : Q) (ws : list word) (i best_idx : nat)
    (best_dist : option Q) : nat :=
  match ws with
  | [] => best_idx
  | wd :: rest =>
      let d := dist2 px py wd in
      let closer := match best_dist with
                    | None => true
                    | Some bd => negb (Qle_bool bd d)
                    end in
      if closer then nearest_loop px py rest (S i) i (Some d)
      else nearest_loop px py rest (S i) best_idx best_dist
  end.

Definition _nearest_word_index (s : state) (p : Q * Q) : nat :=
  nearest_loop (fst p) (snd p) (word_data s) 0 0 None.

Definition newline : string := String (Ascii.ascii_of_nat 10) EmptyString.

(** [sep.join(parts)] *)
Fixpoint py_join (sep : string) (parts : list string) : string :=
  match parts with
  | [] => EmptyString
  | [p] => p
  | p :: rest => (p ++ sep ++ py_join sep rest)%string
  end.

(** [s.replace(old, new)] for a non-empty [old]: leftmost matches that do
    not overlap; [skip] counts the characters of a match still to drop. *)
Fixpoint py_replace_from (old new : string) (skip : nat) (s : string)
  : string :=
  match s with
  | EmptyString => EmptyString
  | String c rest =>
      match skip with
      | S k => py_replace_from old new k rest
      | O =>
          if String.prefix old s
          then (new ++ py_replace_from old new (String.length old - 1) rest)
                 %string
          else String c (py_replace_from old new 0 rest)
      end
  end.

Definition py_replace (old new s : string) : string :=
  py_replace_from old new 0 s.

(** The body of [for i in range(lo, hi + 1)] on the text side:
    [words_text] with a line break between words of different lines. *)
Fixpoint words_text_loop (prev_line : option (Z * Z * Z)) (ws : list word)
  : list string :=
  match ws with
  | [] => []
  | wd :: rest =>
      let line_key := (w_page wd, w_block wd, w_line wd) in
      let br := match prev_line with
                | Some pl => if decide (pl = line_key) then [] else [newline]
                | None => []
                end in
      br ++ w_text wd :: words_text_loop (Some line_key) rest
  end.

Definition word_rect (wd : word) : qrect :=
  (w_x0 wd, w_y0 wd, (w_x1 wd - w_x0 wd)%Q, (w_y1 wd - w_y0 wd)%Q).

(** [self._word_data[i] for i in range(lo, hi + 1)] *)
Definition words_between (lo hi : nat) (ws : list word) : list word :=
  take (hi + 1 - lo) (drop lo ws).

(** [_update_text_selection_linear] *)
Definition _update_text_selection_linear (start_pos current_pos : Q * Q)
    (s : state) : state :=
  if negb (has_scene s) then s
  else
    match word_data s with
    | [] => s
    | _ :: _ =>
        let idx_a := _nearest_word_index s start_pos in
        let idx_b := _nearest_word_index s current_pos in
        let lo := Nat.min idx_a idx_b in
        let hi := Nat.max idx_a idx_b in
        let ws := words_between lo hi (word_data s) in
        {| has_scene := has_scene s; word_data := word_data s;
           selection_highlight_items := map word_rect ws;
           selected_word_rects := map word_rect ws;
           selected_text :=
             py_replace (" " ++ newline ++ " ") newline
               (py_join " " (words_text_loop None ws)) |}
    end.

(** *** Merging the selected rectangles ([_merge_rects_by_line]) *)

(** [QRectF.left()], [top()], [right()], [bottom()], [height()] and
    [center().y()] of a [QRectF(x, y, w, h)]. *)
Definition r_left (r : qrect) : Q := let '(x, _, _, _) := r in x.
Definition r_top (r : qrect) : Q := let '(_, y, _, _) := r in y.
Definition r_right (r : qrect) : Q := let '(x, _, w, _) := r in (x + w)%Q.
Definition r_bottom (r : qrect) : Q := let '(_, y, _, h) := r in (y + h)%Q.
Definition r_height (r : qrect) : Q := let '(_, _, _, h) := r in h.
Definition r_center_y (r : qrect) : Q :=
  let '(_, y, _, h) := r in (y + h / 2)%Q.

(** [a < b] on floats. *)
Definition Qlt_bool (a b : Q) : bool := negb (Qle_bool b a).

(** [sorted(l, key=...)] and [l.sort(key=...)]: the stable sort, with
    [leb a b] the comparison [key(a) <= key(b)]. *)
Fixpoint insert_by {A : Type} (leb : A -> A -> bool) (a : A) (l : list A)
  : list A :=
  match l with
  | [] => [a]
  | b :: rest => if leb a b then a :: l else b :: insert_by leb a rest
  end.

Fixpoint sorted_by {A : Type} (leb : A -> A -> bool) (l : list A) : list A :=
  match l with
  | [] => []
  | a :: rest => insert_by leb a (sorted_by leb rest)
  end.

(** The key [(r.top(), r.left())], compared as Python compares tuples. *)
Definition top_left_leb (a b : qrect) : bool :=
  if Qeq_bool (r_top a) (r_top b) then Qle_bool (r_left a) (r_left b)
  else Qle_bool (r_top a) (r_top b).

(** The key [r.left()]. *)
Definition left_leb (a b : qrect) : bool := Qle_bool (r_left a) (r_left b).

(** [min(...)] and [max(...)] of a generator: [None] is the [ValueError]
    of an empty one; the first least (greatest) element is kept. *)
Definition py_min (l : list Q) : option Q :=
  match l with
  | [] => None
  | x :: xs =>
      Some (fold_left (fun cur y => if Qlt_bool y cur then y else cur) xs x)
  end.

Definition py_max (l : list Q) : option Q :=
  match l with
  | [] => None
  | x :: xs =>
      Some (fold_left (fun cur y => if Qlt_bool cur y then y else cur) xs x)
  end.

(** [sum(...)] *)
Definition py_sum (l : list Q) : Q := fold_left Qplus l 0%Q.

(** The loop [for r in rects[1:]]; [None] is the [IndexError] of
    [current_line[0]] on an empty line. *)
Fixpoint group_loop (tolerance : Q) (lines : list (list qrect))
    (current_line : list qrect) (rs : list qrect)
  : option (list (list qrect)) :=
  match rs with
  | [] => Some (lines ++ [current_line])
  | r :: rest =>
      match current_line with
      | [] => None
      | c0 :: _ =>
          if Qlt_bool (py_abs (r_center_y r - r_center_y c0)) tolerance
          then group_loop tolerance lines (current_line ++ [r]) rest
          else group_loop tolerance (lines ++ [current_line]) [r] rest
      end
  end.

(** The body of [for line_rects in lines]. *)
Definition line_bbox (line_rects : list qrect) : option qrect :=
  let line_rects := sorted_by left_leb line_rects in
  match py_min (map r_left line_rects), py_min (map r_top line_rects),
        py_max (map r_right line_rects), py_max (map r_bottom line_rects) with
  | Some x0, Some y0, Some x1, Some y1 =>
      Some (x0, y0, (x1 - x0)%Q, (y1 - y0)%Q)
  | _, _, _, _ => None
  end.

(** [merged.append(...)] over the lines, in order. *)
Fixpoint merge_lines (lines : list (list qrect)) : option (list qrect) :=
  match lines with
  | [] => Some []
  | line_rects :: rest =>
      match line_bbox line_rects with
      | None => None
      | Some bb =>
          match merge_lines rest with
          | None => None
          | Some merged => Some (bb :: merged)
          end
      end
  end.

(** [_merge_rects_by_line]; [None] stands for a raised exception. *)
Definition _merge_rects_by_line (s : state) : option (list qrect) :=
  match selected_word_rects s with
  | [] => Some []
  | _ :: _ =>
      let rects := sorted_by top_left_leb (selected_word_rects s) in
      let avg_h :=
        match rects with
        | [] => 10%Q
        | _ :: _ => (py_sum (map r_height rects)
                     / inject_Z (Z.of_nat (length rects)))%Q
        end in
      let tolerance := (avg_h * (1 # 2))%Q in
      match rects with
      | [] => None
      | r0 :: rest =>
          match group_loop tolerance [] [r0] rest with
          | None => None
          | Some lines => merge_lines lines
          end
      end
  end.

(** *** Derived notions and scenarios used by the theorems *)

(** Two lines of two words each; the drag goes from the second line up
    to the first. *)
Definition two_lines : state :=
  set_word_data
    [ {| w_x0 := 60; w_y0 := 30; w_x1 := 100; w_y1 := 40; w_text := "fox";
         w_block := 0; w_line := 1; w_word := 1; w_page := 0 |};
      {| w_x0 := 10; w_y0 := 10; w_x1 := 50; w_y1 := 20; w_text := "The";
         w_block := 0; w_line := 0; w_word := 0; w_page := 0 |};
      {| w_x0 := 10; w_y0 := 30; w_x1 := 50; w_y1 := 40; w_text := "brown";
         w_block := 0; w_line := 1; w_word := 0; w_page := 0 |};
      {| w_x0 := 60; w_y0 := 10; w_x1 := 100; w_y1 := 20; w_text := "quick";
         w_block := 0; w_line := 0; w_word := 1; w_page := 0 |} ]
    {| has_scene := true; word_data := []; selection_highlight_items := [];
       selected_word_rects := []; selected_text := EmptyString |}.

(** [m] covers [r]. *)
Definition rect_contains (m r : qrect) : Prop :=
  (r_left m <= r_left r /\ r_top m <= r_top r
   /\ r_right r <= r_right m /\ r_bottom r <= r_bottom m)%Q.

(** Every edge of [m] is an edge of one of [rs]. *)
Definition rect_tight (m : qrect) (rs : list qrect) : Prop :=
  (exists r, In r rs /\ r_left m == r_left r)%Q
  /\ (exists r, In r rs /\ r_top m == r_top r)%Q
  /\ (exists r, In r rs /\ r_right m == r_right r)%Q
  /\ (exists r, In r rs /\ r_bottom m == r_bottom r)%Q.

(** The selection of both lines of [two_lines], as the drag from the
    last word to the first leaves it. *)
Definition both_lines_selected : state :=
  _update_text_selection_linear (82, 36)%Q (30, 14)%Q two_lines.

End Selection.

(* ================================================================== *)
(** * Theorems *)
(* ================================================================== *)

Section ZoomProofs.
Import Zoom.

Lemma zoom_in_in_range (z : Q) : in_range z -> in_range (zoom_in z).
Proof.
  unfold in_range, zoom_in. intros [Hlo Hhi]. split.
  - apply Q.min_glb; lra.
  - apply Q.le_min_r.
Qed.

Lemma zoom_out_in_range (z : Q) : in_range z -> in_range (zoom_out z).
Proof.
  unfold in_range, zoom_out. intros [Hlo Hhi]. split.
  - apply Q.le_max_r.
  - apply Q.max_lub; [| lra].
    apply Qle_shift_div_r; lra.
Qed.

Lemma zoom_reset_in_range (z : Q) : in_range (zoom_reset z).
Proof. unfold in_range, zoom_reset. split; lra. Qed.

Lemma set_zoom_in_range (z f : Q) : in_range (set_zoom z f).
Proof.
  unfold in_range, set_zoom. split.
  - apply Q.le_max_l.
  - apply Q.max_lub; [lra | apply Q.le_min_r].
Qed.

Lemma apply_op_in_range (z : Q) (op : zoom_op) :
  in_range z -> in_range (apply_op z op).
Proof.
  destruct op; simpl; intros H.
  - by apply zoom_in_in_range.
  - by apply zoom_out_in_range.
  - apply zoom_reset_in_range.
  - apply set_zoom_in_range.
Qed.

Lemma run_in_range (ops : list zoom_op) (z : Q) :
  in_range z -> in_range (run ops z).
Proof.
  unfold run. revert z.
  induction ops as [| op ops IH]; intros z H; simpl; [done |].
  apply IH. by apply apply_op_in_range.
Qed.

(** [set_zoom] leaves a factor that is already in range as it is. *)
Lemma set_zoom_id (z f : Q) : in_range f -> set_zoom z f == f.
Proof.
  unfold in_range, set_zoom. intros [Hlo Hhi].
  rewrite (Q.min_l f 5) by exact Hhi.
  apply Q.max_r. exact Hlo.
Qed.

(** C10: starting from the initial zoom 1.0, after any sequence of
    [zoom_in] (product by 1.2 capped at 5.0), [zoom_out] (quotient by
    1.2 floored at 0.5), [zoom_reset] (1.0) and [set_zoom f] (clamp of an
    arbitrary requested factor [f]) the zoom factor lies in the closed
    interval [0.5, 5.0]. *)
Theorem zoom_clamp_invariant (ops : list zoom_op) :
  in_range (run ops zoom_init).
Proof.
  apply run_in_range. unfold in_range, zoom_init. split; lra.
Qed.

End ZoomProofs.

Section ZoomMoreProofs.
Import Zoom.
Open Scope Q_scope.

Lemma apply_op_mono (op : zoom_op) (z1 z2 : Q) :
  z1 <= z2 -> apply_op z1 op <= apply_op z2 op.
Proof.
  intros H. destruct op; cbn [apply_op].
  - unfold zoom_in. apply Q.min_le_compat_r.
    apply Qmult_le_compat_r; [done | discriminate].
  - unfold zoom_out, Qdiv. apply Q.max_le_compat_r.
    apply Qmult_le_compat_r; [done | discriminate].
  - apply Qle_refl.
  - apply Qle_refl.
Qed.

(** A larger zoom stays at least as large under any sequence of zoom
    operations. *)
Lemma run_mono (ops : list zoom_op) (z1 z2 : Q) :
  z1 <= z2 -> run ops z1 <= run ops z2.
Proof.
  unfold run. revert z1 z2.
  induction ops as [| op ops IH]; intros z1 z2 H; cbn [fold_left]; [done |].
  apply IH. by apply apply_op_mono.
Qed.

(** On a zoom in [0.5, 5.0], [zoom_in] never lowers the zoom and
    [zoom_out] never raises it; thirteen zoom-in steps reach the maximum
    5.0 and thirteen zoom-out steps the minimum 0.5, from any such zoom. *)
Theorem zoom_steps_saturate (z : Q) :
  in_range z ->
  z <= zoom_in z /\ zoom_out z <= z
  /\ run (repeat ZoomIn 13) z == 5
  /\ run (repeat ZoomOut 13) z == 5 # 10.
Proof.
  intros [Hlo Hhi]. split; [| split; [| split]].
  - unfold zoom_in. apply Q.min_glb; lra.
  - unfold zoom_out. apply Q.max_lub; [| lra].
    apply Qle_shift_div_r; lra.
  - apply Qle_antisym.
    + apply (run_in_range (repeat ZoomIn 13) z). by split.
    + assert (E : run (repeat ZoomIn 13) (5 # 10) == 5)
        by (vm_compute; reflexivity).
      rewrite <- E. by apply run_mono.
  - apply Qle_antisym.
    + assert (E : run (repeat ZoomOut 13) 5 == 5 # 10)
        by (vm_compute; reflexivity).
      rewrite <- E. by apply run_mono.
    + apply (run_in_range (repeat ZoomOut 13) z). by split.
Qed.

Lemma zoom_steps_saturate_witness :
  run (repeat ZoomIn 13) zoom_init == 5
  /\ run (repeat ZoomOut 13) zoom_init == 5 # 10.
Proof.
  assert (H : in_range zoom_init) by (split; vm_compute; discriminate).
  split; apply (zoom_steps_saturate zoom_init H).
Defined.

End ZoomMoreProofs.

Section LayoutProofs.
Import Layout.
Open Scope Q_scope.

Lemma py_int_nonneg (x y : Q) : 0 <= x -> 0 <= y -> (0 <= py_int (x * y))%Z.
Proof.
  intros Hx Hy. unfold py_int.
  apply Z.quot_pos; [| lia].
  assert (H : 0 <= x * y) by (apply Qmult_le_0_compat; assumption).
  unfold Qle in H. cbn [Qnum Qden Qmult] in *. lia.
Qed.

Lemma layout_loop_lengths (scale : Q) (pages : list page_rect) (y : Z) :
  length (page_offsets (layout_loop scale pages y)) = length pages
  /\ page_widths (layout_loop scale pages y)
     = map (fun p => py_int (rect_width p * scale)) pages
  /\ page_heights (layout_loop scale pages y)
     = map (fun p => py_int (rect_height p * scale)) pages.
Proof.
  revert y. induction pages as [| p ps IH]; intros y; simpl; [done |].
  destruct (IH (y + py_int (rect_height p * scale) + PAGE_GAP)%Z)
    as (Hl & Hw & Hh).
  rewrite Hl, Hw, Hh. done.
Qed.

Lemma layout_loop_head (scale : Q) (pages : list page_rect) (y o : Z) :
  page_offsets (layout_loop scale pages y) !! 0%nat = Some o -> o = y.
Proof. destruct pages; simpl; [done | congruence]. Qed.

Lemma layout_loop_step (scale : Q) (pages : list page_rect) (y : Z)
      (i : nat) (o h : Z) :
  page_offsets (layout_loop scale pages y) !! i = Some o ->
  page_heights (layout_loop scale pages y) !! i = Some h ->
  (S i < length pages)%nat ->
  page_offsets (layout_loop scale pages y) !! S i = Some (o + h + PAGE_GAP)%Z.
Proof.
  revert y i. induction pages as [| p ps IH]; intros y i Ho Hh Hlen;
    simpl in *; [lia |].
  destruct i as [| i].
  - simpl in Ho, Hh. injection Ho as <-. injection Hh as <-.
    destruct ps as [| q qs]; simpl in *; [lia | done].
  - simpl in Ho, Hh. apply (IH _ i Ho Hh). lia.
Qed.

Lemma layout_loop_increasing (scale : Q) (pages : list page_rect) (y : Z) :
  0 <= scale ->
  Forall (fun p => 0 <= rect_height p) pages ->
  strictly_increasing (page_offsets (layout_loop scale pages y)).
Proof.
  intros Hs Hall. revert y.
  induction Hall as [| p ps Hp Hps IH]; intros y; [exact I |].
  cbn [layout_loop page_offsets].
  specialize (IH (y + py_int (rect_height p * scale) + PAGE_GAP)%Z).
  destruct ps as [| q qs]; [exact I |].
  cbn [layout_loop page_offsets] in *. split; [| exact IH].
  pose proof (py_int_nonneg _ _ Hp Hs). unfold PAGE_GAP. lia.
Qed.

(** C6, as the spec words it, fails: the pixel size is the truncation
    [int(...)], not [round(...)].  An A4 page (595.28 x 841.89 pt) at 150
    DPI is 1753.9375 px high, which the code stores as 1753 and rounding
    would make 1754. *)
Lemma build_page_layout_not_round :
  page_heights
    (build_page_layout
       [{| rect_width := 59528 # 100; rect_height := 84189 # 100 |}] 150)
  <> [py_round ((84189 # 100) * (150 / 72))].
Proof. vm_compute. discriminate. Qed.

(** C6 (amended): for every document and every non-negative DPI, with page
    sizes that are non-negative, [_build_page_layout] computes for each
    page in order pixel_width = int(page_points_width * dpi/72) (truncated
    toward zero) and likewise pixel_height, with y_offset[0] = 0 and
    y_offset[i+1] = y_offset[i] + pixel_height[i] + 20; the offsets are
    strictly increasing. *)
Theorem build_page_layout_spec (pages : list page_rect) (dpi : Q)
    (Hdpi : 0 <= dpi)
    (Hpages : Forall (fun p => 0 <= rect_height p) pages) :
  let l := build_page_layout pages dpi in
  length (page_offsets l) = length pages
  /\ page_widths l = map (fun p => py_int (rect_width p * (dpi / 72))) pages
  /\ page_heights l = map (fun p => py_int (rect_height p * (dpi / 72))) pages
  /\ (forall o, page_offsets l !! 0%nat = Some o -> o = 0%Z)
  /\ (forall i o h,
        page_offsets l !! i = Some o -> page_heights l !! i = Some h ->
        (S i < length pages)%nat ->
        page_offsets l !! S i = Some (o + h + 20)%Z)
  /\ strictly_increasing (page_offsets l).
Proof.
  intros l. unfold l, build_page_layout.
  destruct (layout_loop_lengths (dpi / 72) pages 0) as (Hl & Hw & Hh).
  repeat split; try assumption.
  - intros o. apply layout_loop_head.
  - intros i o h. apply layout_loop_step.
  - apply layout_loop_increasing; [| assumption].
    apply Qle_shift_div_l; lra.
Qed.

(** The spec's scenario: three pages at DPI 150 (letter, A4, letter). *)
Lemma build_page_layout_spec_witness :
  page_offsets
    (build_page_layout
       [{| rect_width := 612; rect_height := 792 |};
        {| rect_width := 59528 # 100; rect_height := 84189 # 100 |};
        {| rect_width := 612; rect_height := 792 |}] 150)
  = [0; 1670; 3443]%Z.
Proof.
  assert (Hdpi : 0 <= 150) by (unfold Qle; simpl; lia).
  assert (Hpages : Forall (fun p => 0 <= rect_height p)
            [{| rect_width := 612; rect_height := 792 |};
             {| rect_width := 59528 # 100; rect_height := 84189 # 100 |};
             {| rect_width := 612; rect_height := 792 |}]).
  { repeat constructor; unfold Qle; simpl; lia. }
  destruct (build_page_layout_spec _ 150 Hdpi Hpages)
    as (_ & _ & _ & H0 & Hstep & _).
  pose proof (Hstep 0%nat 0%Z 1650%Z eq_refl eq_refl ltac:(simpl; lia)) as H1.
  pose proof (Hstep 1%nat 1670%Z 1753%Z H1 eq_refl ltac:(simpl; lia)) as H2.
  reflexivity.
Defined.

Lemma page_at_y_from_spec (offsets : list Z) (y : Q) (n i : nat) (o : Z) :
  (i < n)%nat -> offsets !! i = Some o -> inject_Z o <= y ->
  exists o_r,
    (page_at_y_from offsets n y < n)%nat
    /\ offsets !! page_at_y_from offsets n y = Some o_r
    /\ inject_Z o_r <= y
    /\ forall j o_j, (page_at_y_from offsets n y < j < n)%nat ->
                     offsets !! j = Some o_j -> y < inject_Z o_j.
Proof.
  induction n as [| n IH]; intros Hi Ho Hle; [lia |].
  cbn [page_at_y_from].
  destruct (offsets !! n) as [o_n |] eqn:Hn.
  - destruct (Qle_bool (inject_Z o_n) y) eqn:Hb.
    + exists o_n. apply Qle_bool_iff in Hb.
      repeat split; [lia | assumption | assumption |].
      intros j o_j Hj. lia.
    + assert (Hlt : y < inject_Z o_n).
      { apply Qnot_le_lt. intros Hc. apply Qle_bool_iff in Hc. congruence. }
      assert (Hin : (i < n)%nat).
      { destruct (decide (i = n)) as [-> |]; [| lia].
        rewrite Hn in Ho. injection Ho as ->. lra. }
      destruct (IH Hin Ho Hle) as (o_r & Hr & Hor & Hler & Hhigh).
      exists o_r. repeat split; [lia | assumption | assumption |].
      intros j o_j Hj Hoj.
      destruct (decide (j = n)) as [-> |].
      * rewrite Hn in Hoj. injection Hoj as <-. exact Hlt.
      * apply (Hhigh j o_j); [lia | assumption].
  - assert (Hin : (i < n)%nat).
    { destruct (decide (i = n)) as [-> |]; [congruence | lia]. }
    destruct (IH Hin Ho Hle) as (o_r & Hr & Hor & Hler & Hhigh).
    exists o_r. repeat split; [lia | assumption | assumption |].
    intros j o_j Hj Hoj.
    destruct (decide (j = n)) as [-> |]; [congruence |].
    apply (Hhigh j o_j); [lia | assumption].
Qed.

(** C7: for a layout in which some page [i] has [offsets[i] <= y] (so the
    layout is not empty), [page_at_y y] returns the highest page index
    whose offset is [<= y]: the returned index [r] has [offsets[r] <= y]
    and every later page [j > r] has [offsets[j] > y].  The comparison is
    [>=], so a [y] equal to a page's offset belongs to that page. *)
Theorem page_at_y_highest (offsets : list Z) (y : Q) (i : nat) (o : Z)
    (Hi : offsets !! i = Some o) (Hle : inject_Z o <= y) :
  exists o_r,
    offsets !! page_at_y offsets y = Some o_r
    /\ inject_Z o_r <= y
    /\ (i <= page_at_y offsets y)%nat
    /\ forall j o_j, (page_at_y offsets y < j)%nat ->
                     offsets !! j = Some o_j -> y < inject_Z o_j.
Proof.
  unfold page_at_y.
  assert (Hlen : (i < length offsets)%nat) by (eapply lookup_lt_Some; eauto).
  destruct (page_at_y_from_spec offsets y _ i o Hlen Hi Hle)
    as (o_r & Hr & Hor & Hler & Hhigh).
  exists o_r. repeat split; try assumption.
  - destruct (decide (i <= page_at_y_from offsets (length offsets) y)%nat)
      as [| Hn]; [assumption |].
    assert (Hc : y < inject_Z o) by (apply (Hhigh i o); [lia | assumption]).
    lra.
  - intros j o_j Hj Hoj. apply (Hhigh j o_j); [| assumption].
    split; [assumption | eapply lookup_lt_Some; eauto].
Qed.

(** A [y] exactly on the offset of page 1 of a three-page layout. *)
Lemma page_at_y_highest_witness :
  exists o_r,
    [0; 1670; 3443]%Z !! page_at_y [0; 1670; 3443]%Z 1670 = Some o_r
    /\ inject_Z o_r <= 1670
    /\ (1 <= page_at_y [0; 1670; 3443]%Z 1670)%nat
    /\ forall j o_j, (page_at_y [0; 1670; 3443]%Z 1670 < j)%nat ->
                     [0; 1670; 3443]%Z !! j = Some o_j ->
                     1670 < inject_Z o_j.
Proof.
  apply (page_at_y_highest [0; 1670; 3443]%Z 1670 1%nat 1670%Z).
  - reflexivity.
  - unfold Qle; simpl; lia.
Defined.

Example page_at_y_on_offset : page_at_y [0; 1670; 3443]%Z 1670 = 1%nat.
Proof. reflexivity. Qed.

Example page_at_y_above_all : page_at_y [0; 1670; 3443]%Z (-5) = 0%nat.
Proof. reflexivity. Qed.

End LayoutProofs.

Section LayoutMoreProofs.
Import Layout.
Open Scope Q_scope.

Lemma strictly_increasing_lookup (l : list Z) (i j : nat) (a b : Z) :
  strictly_increasing l -> (i < j)%nat ->
  l !! i = Some a -> l !! j = Some b -> (a < b)%Z.
Proof.
  revert i j a. induction l as [| x l IH]; intros i j a Hs Hij Ha Hb;
    [discriminate |].
  destruct j as [| j]; [lia |].
  destruct l as [| y l]; [discriminate |].
  destruct Hs as [Hxy Hs].
  destruct i as [| i].
  - injection Ha as <-. destruct j as [| j].
    + injection Hb as <-. exact Hxy.
    + assert (y < b)%Z by (apply (IH 0%nat (S j) y Hs); [lia | done | done]).
      lia.
  - apply (IH i j a Hs); [lia | exact Ha | exact Hb].
Qed.

Lemma page_at_y_within (offsets : list Z) (y : Q) (i : nat) (o : Z) :
  strictly_increasing offsets ->
  offsets !! i = Some o -> inject_Z o <= y ->
  (forall o', offsets !! S i = Some o' -> y < inject_Z o') ->
  page_at_y offsets y = i.
Proof.
  intros Hinc Hi Hle Hnext. unfold page_at_y.
  assert (Hlen : (i < length offsets)%nat) by (eapply lookup_lt_Some; eauto).
  destruct (page_at_y_from_spec offsets y _ i o Hlen Hi Hle)
    as (o_r & Hr & Hor & Hler & Hhigh).
  set (r := page_at_y_from offsets (length offsets) y) in *.
  destruct (Nat.lt_trichotomy r i) as [Hlt | [Heq | Hgt]]; [| exact Heq |].
  - assert (y < inject_Z o) by (apply (Hhigh i o); [lia | exact Hi]). lra.
  - destruct (offsets !! S i) as [o' |] eqn:Hs.
    + assert (Hy : y < inject_Z o') by (by apply Hnext).
      assert (Ho : (o' <= o_r)%Z).
      { destruct (decide (S i = r)) as [E | Hne].
        - rewrite E in Hs. rewrite Hs in Hor. injection Hor as ->. lia.
        - assert (o' < o_r)%Z; [| lia].
          apply (strictly_increasing_lookup offsets (S i) r); auto. lia. }
      rewrite Zle_Qle in Ho. lra.
    + apply lookup_ge_None in Hs. lia.
Qed.

(** On strictly increasing offsets [page_at_y] gives page [i] for every
    [y] from the offset of page [i] up to, and not including, the offset
    of page [i + 1]; the gap under a page counts as that page. *)
Theorem page_at_y_in_page (offsets : list Z) (y : Q) (i : nat) (o : Z)
    (Hinc : strictly_increasing offsets)
    (Hi : offsets !! i = Some o) (Hle : inject_Z o <= y)
    (Hnext : forall o', offsets !! S i = Some o' -> y < inject_Z o') :
  page_at_y offsets y = i.
Proof. by apply (page_at_y_within offsets y i o). Qed.

(** y = 1669 is in the gap under page 0 of the three-page layout. *)
Lemma page_at_y_in_page_witness : page_at_y [0; 1670; 3443]%Z 1669 = 0%nat.
Proof.
  apply (page_at_y_in_page [0; 1670; 3443]%Z 1669 0 0%Z).
  - simpl. lia.
  - reflexivity.
  - unfold Qle; simpl; lia.
  - intros o' [= <-]. unfold Qlt; simpl; lia.
Defined.

Lemma page_at_y_from_bound (offsets : list Z) (y : Q) (n : nat) :
  (page_at_y_from offsets n y < n)%nat
  \/ (page_at_y_from offsets n y = 0%nat).
Proof.
  induction n as [| n IH]; [by right |].
  cbn [page_at_y_from].
  destruct (offsets !! n) as [o |].
  - destruct (Qle_bool (inject_Z o) y); [left; lia |].
    destruct IH; [left; lia | by right].
  - destruct IH; [left; lia | by right].
Qed.

Lemma page_at_y_from_above (offsets : list Z) (y : Q) (n : nat) :
  (forall j o, offsets !! j = Some o -> y < inject_Z o) ->
  page_at_y_from offsets n y = 0%nat.
Proof.
  intros Habove. induction n as [| n IH]; [reflexivity |].
  cbn [page_at_y_from].
  destruct (offsets !! n) as [o |] eqn:E; [| exact IH].
  destruct (Qle_bool (inject_Z o) y) eqn:Hb; [| exact IH].
  apply Qle_bool_iff in Hb. specialize (Habove n o E). lra.
Qed.

(** [page_at_y] never leaves the layout: on a layout with pages the
    result is the index of a page, whatever [y] is; a [y] above every
    offset, and any [y] on an empty layout, gives 0. *)
Theorem page_at_y_total (offsets : list Z) (y : Q) :
  (offsets <> [] -> (page_at_y offsets y < length offsets)%nat)
  /\ ((forall j o, offsets !! j = Some o -> y < inject_Z o) ->
      page_at_y offsets y = 0%nat).
Proof.
  split.
  - intros Hne. unfold page_at_y.
    destruct (page_at_y_from_bound offsets y (length offsets)) as [H | ->];
      [exact H |].
    destruct offsets; [congruence | simpl; lia].
  - intros Habove. by apply page_at_y_from_above.
Qed.

Lemma page_at_y_total_witness :
  (page_at_y [0; 1670; 3443]%Z (-300) < 3)%nat
  /\ page_at_y [] 12 = 0%nat.
Proof.
  split.
  - apply (page_at_y_total [0; 1670; 3443]%Z (-300)). discriminate.
  - apply (page_at_y_total [] 12). intros j o H. discriminate.
Defined.

Lemma extent_loop_spec (scale : Q) (pages : list page_rect) (y mw : Z) :
  0 <= scale ->
  Forall (fun p => 0 <= rect_height p) pages ->
  let l := layout_loop scale pages y in
  let e := extent_loop scale pages y mw in
  (mw <= snd e)%Z
  /\ (y <= fst e)%Z
  /\ forall i o ph pw,
       page_offsets l !! i = Some o -> page_heights l !! i = Some ph ->
       page_widths l !! i = Some pw ->
       (y <= o)%Z /\ (o + ph + PAGE_GAP <= fst e)%Z /\ (pw <= snd e)%Z.
Proof.
  intros Hs Hall. revert y mw.
  induction Hall as [| p ps Hp Hps IH]; intros y mw; cbv zeta.
  - cbn. split; [lia |]. split; [lia |]. intros i o ph pw H. discriminate.
  - cbn [layout_loop extent_loop page_offsets page_heights page_widths].
    pose proof (py_int_nonneg _ _ Hp Hs) as Hph.
    specialize (IH (y + py_int (rect_height p * scale) + PAGE_GAP)%Z
                   (Z.max mw (py_int (rect_width p * scale)))).
    cbv zeta in IH. destruct IH as (Hmw & Hy & Hpages).
    unfold PAGE_GAP in *.
    split; [lia |]. split; [lia |].
    intros [| i] o ph pw Ho Hh Hw.
    + injection Ho as <-. injection Hh as <-. injection Hw as <-. lia.
    + destruct (Hpages i o ph pw Ho Hh Hw) as (? & ? & ?). lia.
Qed.

(** Every page rectangle [(0, y_offset, pixel_width, pixel_height)] lies
    inside the scene rectangle that [_build_page_layout] sets, and below
    the previous pages: [0 <= y_offset] and
    [y_offset + pixel_height <= total_height]. *)
Theorem pages_inside_scene_rect (pages : list page_rect) (dpi : Q)
    (i : nat) (o ph pw : Z)
    (Hdpi : 0 <= dpi)
    (Hpages : Forall (fun p => 0 <= rect_height p) pages)
    (Ho : page_offsets (build_page_layout pages dpi) !! i = Some o)
    (Hh : page_heights (build_page_layout pages dpi) !! i = Some ph)
    (Hw : page_widths (build_page_layout pages dpi) !! i = Some pw) :
  let '(x, y, w, h) := scene_rect pages dpi in
  (0 <= o)%Z /\ (o + ph <= total_height pages dpi)%Z
  /\ (pw <= max_width pages dpi)%Z
  /\ (x <= 0)%Z /\ (pw <= x + w)%Z /\ (y <= o)%Z /\ (o + ph <= y + h)%Z.
Proof.
  unfold scene_rect.
  assert (Hs : 0 <= dpi / 72) by (apply Qle_shift_div_l; lra).
  destruct (extent_loop_spec (dpi / 72) pages 0 0 Hs Hpages)
    as (_ & _ & Hall).
  destruct (Hall i o ph pw Ho Hh Hw) as (H0 & Hend & Hmw).
  assert (Ht : (o + ph <= total_height pages dpi)%Z).
  { unfold total_height. destruct pages as [| p ps]; [discriminate |].
    unfold PAGE_GAP in *. lia. }
  unfold max_width. lia.
Qed.

(** Page 1 (A4) of a two-page document at 150 DPI. *)
Lemma pages_inside_scene_rect_witness :
  let '(x, y, w, h) :=
    scene_rect [{| rect_width := 612; rect_height := 792 |};
                {| rect_width := 59528 # 100; rect_height := 84189 # 100 |}]
      150 in
  (0 <= 1670)%Z
  /\ (1670 + 1753
      <= total_height
           [{| rect_width := 612; rect_height := 792 |};
            {| rect_width := 59528 # 100; rect_height := 84189 # 100 |}]
           150)%Z
  /\ (1240
      <= max_width
           [{| rect_width := 612; rect_height := 792 |};
            {| rect_width := 59528 # 100; rect_height := 84189 # 100 |}]
           150)%Z
  /\ (x <= 0)%Z /\ (1240 <= x + w)%Z /\ (y <= 1670)%Z
  /\ (1670 + 1753 <= y + h)%Z.
Proof.
  assert (Hdpi : 0 <= 150) by (unfold Qle; simpl; lia).
  assert (Hpages : Forall (fun p => 0 <= rect_height p)
            [{| rect_width := 612; rect_height := 792 |};
             {| rect_width := 59528 # 100; rect_height := 84189 # 100 |}]).
  { repeat constructor; unfold Qle; simpl; lia. }
  exact (pages_inside_scene_rect _ 150 1 1670%Z 1753%Z 1240%Z Hdpi Hpages
           eq_refl eq_refl eq_refl).
Defined.

End LayoutMoreProofs.

Section StackLemmas.
Context {A : Type}.

Lemma py_pop_app (l : list A) (x : A) : py_pop (l ++ [x]) = Some (l, x).
Proof.
  induction l as [| y l IH]; simpl; [reflexivity |].
  rewrite IH. reflexivity.
Qed.

Lemma py_pop_Some (l r : list A) (x : A) :
  py_pop l = Some (r, x) -> l = r ++ [x].
Proof.
  revert r. induction l as [| y l IH]; intros r H; simpl in H; [discriminate |].
  destruct (py_pop l) as [[r' z] |] eqn:E.
  - injection H as <- <-. simpl. f_equal. by apply IH.
  - injection H as <- <-. destruct l; [reflexivity | simpl in E].
    destruct (py_pop l) as [[? ?] |]; discriminate.
Qed.

Lemma py_pop_None (l : list A) : py_pop l = None -> l = [].
Proof.
  destruct l as [| y l]; simpl; [reflexivity |].
  destruct (py_pop l) as [[? ?] |]; discriminate.
Qed.

Lemma py_pop_length (l r : list A) (x : A) :
  py_pop l = Some (r, x) -> length l = S (length r).
Proof.
  intros H. apply py_pop_Some in H. subst l.
  rewrite length_app. simpl. lia.
Qed.

End StackLemmas.

Section WindowProofs.
Import Window.

Lemma tail_snoc {A : Type} (l : list A) (x : A) :
  l <> [] -> tail (l ++ [x]) = tail l ++ [x].
Proof. destruct l; [congruence | reflexivity]. Qed.

Lemma push_doc_snapshot_effect (label : string) (w : window) (d : pdf_bytes) :
  doc w = Some d ->
  doc_redo_stack (_push_doc_snapshot label w) = []
  /\ ((length (doc_undo_stack w) < doc_undo_limit)%nat ->
      doc_undo_stack (_push_doc_snapshot label w)
      = doc_undo_stack w ++ [(label, d)])
  /\ ((doc_undo_limit <= length (doc_undo_stack w))%nat ->
      doc_undo_stack (_push_doc_snapshot label w)
      = tail (doc_undo_stack w) ++ [(label, d)]).
Proof.
  intros Hd. unfold _push_doc_snapshot. rewrite Hd.
  cbn [set_doc_stacks doc_redo_stack doc_undo_stack].
  rewrite length_app. cbn [length].
  split; [reflexivity |]. split; intros Hlen.
  - destruct (Nat.ltb_spec doc_undo_limit (length (doc_undo_stack w) + 1));
      [lia | reflexivity].
  - destruct (Nat.ltb_spec doc_undo_limit (length (doc_undo_stack w) + 1));
      [| lia].
    apply tail_snoc. intros E. rewrite E in Hlen. unfold doc_undo_limit in Hlen.
    simpl in Hlen. lia.
Qed.

Lemma push_doc_snapshot_bounded (label : string) (w : window) :
  stacks_bounded w -> stacks_bounded (_push_doc_snapshot label w).
Proof.
  intros Hb. unfold stacks_bounded in *.
  destruct (doc w) as [d |] eqn:Hd.
  - destruct (push_doc_snapshot_effect label w d Hd) as (-> & Hlt & Hge).
    cbn [length]. rewrite Nat.add_0_r.
    destruct (Nat.lt_ge_cases (length (doc_undo_stack w)) doc_undo_limit)
      as [Hl | Hl].
    + rewrite (Hlt Hl), length_app. cbn [length]. lia.
    + rewrite (Hge Hl), length_app. cbn [length].
      unfold doc_undo_limit in *.
      destruct (doc_undo_stack w); cbn [length tail] in *; lia.
  - unfold _push_doc_snapshot. rewrite Hd. exact Hb.
Qed.

Lemma restore_doc_stacks (b : pdf_bytes) (w : window) :
  doc_undo_stack (_restore_doc_from_bytes b w) = doc_undo_stack w
  /\ doc_redo_stack (_restore_doc_from_bytes b w) = doc_redo_stack w.
Proof.
  unfold _restore_doc_from_bytes.
  destruct (View.edit_mode (view w)); split; reflexivity.
Qed.

Lemma doc_undo_bounded (w : window) :
  stacks_bounded w -> stacks_bounded (_doc_undo w).
Proof.
  intros Hb. unfold _doc_undo.
  destruct (py_pop (doc_undo_stack w)) as [[rest [label old_bytes]] |] eqn:E;
    [| exact Hb].
  apply py_pop_length in E. unfold stacks_bounded in *.
  cbn [showMessage doc_undo_stack doc_redo_stack].
  destruct (restore_doc_stacks old_bytes
              (set_doc_stacks rest
                 (doc_redo_stack w ++ [(label, default [] (doc w))]) w))
    as [-> ->].
  cbn [set_doc_stacks doc_undo_stack doc_redo_stack].
  rewrite length_app. cbn [length]. lia.
Qed.

Lemma doc_redo_bounded (w : window) :
  stacks_bounded w -> stacks_bounded (_doc_redo w).
Proof.
  intros Hb. unfold _doc_redo.
  destruct (py_pop (doc_redo_stack w)) as [[rest [label redo_bytes]] |] eqn:E;
    [| exact Hb].
  apply py_pop_length in E. unfold stacks_bounded in *.
  cbn [showMessage doc_undo_stack doc_redo_stack].
  destruct (restore_doc_stacks redo_bytes
              (set_doc_stacks
                 (doc_undo_stack w ++ [(label, default [] (doc w))]) rest w))
    as [-> ->].
  cbn [set_doc_stacks doc_undo_stack doc_redo_stack].
  rewrite length_app. cbn [length]. lia.
Qed.

Lemma apply_op_bounded (w : window) (op : window_op) :
  stacks_bounded w -> stacks_bounded (apply_op w op).
Proof.
  intros Hb. destruct op; cbn [apply_op].
  - unfold _load_pdf, stacks_bounded. cbn. unfold doc_undo_limit. lia.
  - destruct (doc w); [| exact Hb].
    apply (push_doc_snapshot_bounded label) in Hb. exact Hb.
  - by apply push_doc_snapshot_bounded.
  - by apply doc_undo_bounded.
  - by apply doc_redo_bounded.
  - unfold _undo. destruct (View.can_undo (view w)); [exact Hb |].
    destruct (doc_undo_stack w) eqn:E; [exact Hb |].
    by apply doc_undo_bounded.
  - unfold _redo. destruct (View.can_redo (view w)); [exact Hb |].
    destruct (doc_redo_stack w) eqn:E; [exact Hb |].
    by apply doc_redo_bounded.
  - exact Hb.
Qed.

Lemma run_bounded (ops : list window_op) (w : window) :
  stacks_bounded w -> stacks_bounded (run ops w).
Proof.
  unfold run. revert w.
  induction ops as [| op ops IH]; intros w Hb; cbn [fold_left]; [exact Hb |].
  apply IH. by apply apply_op_bounded.
Qed.

(** C5: the document undo stack never exceeds 10 entries, whatever
    sequence of loads, burn-ins, snapshot pushes and undo/redo commands
    ran since start-up.  A snapshot push on an open document appends
    [(label, serialised bytes)], drops the oldest entry when the stack
    already held 10 (so the 11th push evicts the oldest), and leaves the
    document redo stack empty. *)
Theorem doc_undo_stack_bounded (ops : list window_op) (label : string)
    (d : pdf_bytes) :
  let w := run ops window_init in
  (length (doc_undo_stack w) <= 10)%nat
  /\ (doc w = Some d ->
      let w' := _push_doc_snapshot label w in
      doc_redo_stack w' = []
      /\ (length (doc_undo_stack w') <= 10)%nat
      /\ ((length (doc_undo_stack w) < 10)%nat ->
          doc_undo_stack w' = doc_undo_stack w ++ [(label, d)])
      /\ (length (doc_undo_stack w) = 10%nat ->
          doc_undo_stack w' = tail (doc_undo_stack w) ++ [(label, d)])).
Proof.
  intros w.
  assert (Hb : stacks_bounded w).
  { apply run_bounded. unfold stacks_bounded, doc_undo_limit. simpl. lia. }
  split.
  - unfold stacks_bounded, doc_undo_limit in Hb. lia.
  - intros Hd w'. subst w'.
    destruct (push_doc_snapshot_effect label w d Hd) as (Hr & Hlt & Hge).
    pose proof (push_doc_snapshot_bounded label w Hb) as Hb'.
    unfold stacks_bounded, doc_undo_limit in *.
    repeat split.
    + exact Hr.
    + lia.
    + exact Hlt.
    + intros E. apply Hge. lia.
Qed.

(** Ten snapshots, then an eleventh: the first one is evicted. *)
Lemma doc_undo_stack_bounded_witness :
  doc_undo_stack (_push_doc_snapshot "11" (run ten_pushes window_init))
  = map (fun l => (l, [Byte.x25]))
      ["2"; "3"; "4"; "5"; "6"; "7"; "8"; "9"; "10"; "11"].
Proof.
  destruct (doc_undo_stack_bounded ten_pushes "11" [Byte.x25]) as [_ H].
  assert (Hd : doc (run ten_pushes window_init) = Some [Byte.x25])
    by reflexivity.
  destruct (H Hd) as (_ & _ & _ & H10).
  rewrite H10; reflexivity.
Defined.

Lemma view_undo_stacks (v : View.view_state) (rest : list View.undo_entry)
      (e : View.undo_entry) :
  View.undo_stack v = rest ++ [e] ->
  View.undo_stack (View.undo v) = rest
  /\ View.redo_stack (View.undo v) = View.redo_stack v ++ [e].
Proof.
  intros H. unfold View.undo. rewrite H, py_pop_app.
  destruct (View.entry_action e); split; reflexivity.
Qed.

Lemma view_redo_stacks (v : View.view_state) (rest : list View.undo_entry)
      (e : View.undo_entry) :
  View.redo_stack v = rest ++ [e] ->
  View.redo_stack (View.redo v) = rest
  /\ View.undo_stack (View.redo v) = View.undo_stack v ++ [e].
Proof.
  intros H. unfold View.redo. rewrite H, py_pop_app.
  destruct (View.entry_action e); split; reflexivity.
Qed.

Lemma exit_edit_mode_stacks (v : View.view_state) :
  View.undo_stack (View.exit_edit_mode v) = View.undo_stack v
  /\ View.redo_stack (View.exit_edit_mode v) = View.redo_stack v.
Proof.
  unfold View.exit_edit_mode. destruct (View.edit_mode v); split; reflexivity.
Qed.

Lemma restore_doc_view_stacks (b : pdf_bytes) (w : window) :
  View.undo_stack (view (_restore_doc_from_bytes b w))
  = View.undo_stack (view w)
  /\ View.redo_stack (view (_restore_doc_from_bytes b w))
     = View.redo_stack (view w)
  /\ doc (_restore_doc_from_bytes b w) = Some b.
Proof.
  unfold _restore_doc_from_bytes.
  destruct (View.edit_mode (view w)); cbn; [| done].
  destruct (exit_edit_mode_stacks (view w)) as [-> ->]. done.
Qed.

Lemma nonempty_snoc {A : Type} (l : list A) :
  l <> [] -> exists rest x, l = rest ++ [x].
Proof.
  intros H. destruct (py_pop l) as [[rest x] |] eqn:E.
  - exists rest, x. by apply py_pop_Some.
  - apply py_pop_None in E. congruence.
Qed.

(** The effect of [_doc_undo] on a non-empty document undo stack. *)
Lemma doc_undo_effect (w : window) (rest : list (string * pdf_bytes))
      (label : string) (old : pdf_bytes) :
  doc_undo_stack w = rest ++ [(label, old)] ->
  doc (_doc_undo w) = Some old
  /\ doc_undo_stack (_doc_undo w) = rest
  /\ doc_redo_stack (_doc_undo w)
     = doc_redo_stack w ++ [(label, default [] (doc w))]
  /\ View.undo_stack (view (_doc_undo w)) = View.undo_stack (view w)
  /\ View.redo_stack (view (_doc_undo w)) = View.redo_stack (view w).
Proof.
  intros H. unfold _doc_undo. rewrite H, py_pop_app.
  cbn [showMessage doc doc_undo_stack doc_redo_stack view].
  set (w1 := set_doc_stacks rest _ w).
  destruct (restore_doc_view_stacks old w1) as (-> & -> & ->).
  destruct (restore_doc_stacks old w1) as [-> ->]. done.
Qed.

Lemma doc_redo_effect (w : window) (rest : list (string * pdf_bytes))
      (label : string) (new : pdf_bytes) :
  doc_redo_stack w = rest ++ [(label, new)] ->
  doc (_doc_redo w) = Some new
  /\ doc_redo_stack (_doc_redo w) = rest
  /\ doc_undo_stack (_doc_redo w)
     = doc_undo_stack w ++ [(label, default [] (doc w))]
  /\ View.undo_stack (view (_doc_redo w)) = View.undo_stack (view w)
  /\ View.redo_stack (view (_doc_redo w)) = View.redo_stack (view w).
Proof.
  intros H. unfold _doc_redo. rewrite H, py_pop_app.
  cbn [showMessage doc doc_undo_stack doc_redo_stack view].
  set (w1 := set_doc_stacks _ rest w).
  destruct (restore_doc_view_stacks new w1) as (-> & -> & ->).
  destruct (restore_doc_stacks new w1) as [-> ->]. done.
Qed.

(** C4: the top-level [_undo] undoes a transient action when the
    transient undo stack is not empty (the document and its stacks are
    left alone); it undoes a document snapshot only when the transient
    stack is empty and the document undo stack is not; with both stacks
    empty it changes nothing.  [_redo] is symmetric. *)
Theorem top_level_undo_dispatch (w : window) :
  (View.undo_stack (view w) <> [] -> transient_undone w (_undo w))
  /\ (View.undo_stack (view w) = [] -> doc_undo_stack w <> [] ->
      document_undone w (_undo w))
  /\ (View.undo_stack (view w) = [] -> doc_undo_stack w = [] -> _undo w = w)
  /\ (View.redo_stack (view w) <> [] -> transient_redone w (_redo w))
  /\ (View.redo_stack (view w) = [] -> doc_redo_stack w <> [] ->
      document_redone w (_redo w))
  /\ (View.redo_stack (view w) = [] -> doc_redo_stack w = [] -> _redo w = w).
Proof.
  repeat split.
  - intros Hne. destruct (nonempty_snoc _ Hne) as (rest & e & Hst).
    exists rest, e.
    assert (Hcan : View.can_undo (view w) = true).
    { unfold View.can_undo. rewrite Hst. by destruct rest. }
    unfold _undo. rewrite Hcan.
    destruct (view_undo_stacks (view w) rest e Hst) as [Hu Hr].
    repeat split; assumption.
  - intros Hv Hne. destruct (nonempty_snoc _ Hne) as (rest & [label old] & Hst).
    exists rest, label, old.
    assert (Heq : _undo w = _doc_undo w).
    { unfold _undo, View.can_undo. rewrite Hv.
      destruct (doc_undo_stack w); [congruence | reflexivity]. }
    rewrite Heq.
    destruct (doc_undo_effect w rest label old Hst) as (? & ? & ? & ? & ?).
    repeat split; assumption.
  - intros Hv Hd. unfold _undo, View.can_undo. rewrite Hv, Hd. reflexivity.
  - intros Hne. destruct (nonempty_snoc _ Hne) as (rest & e & Hst).
    exists rest, e.
    assert (Hcan : View.can_redo (view w) = true).
    { unfold View.can_redo. rewrite Hst. by destruct rest. }
    unfold _redo. rewrite Hcan.
    destruct (view_redo_stacks (view w) rest e Hst) as [Hu Hr].
    repeat split; assumption.
  - intros Hv Hne. destruct (nonempty_snoc _ Hne) as (rest & [label new] & Hst).
    exists rest, label, new.
    assert (Heq : _redo w = _doc_redo w).
    { unfold _redo, View.can_redo. rewrite Hv.
      destruct (doc_redo_stack w); [congruence | reflexivity]. }
    rewrite Heq.
    destruct (doc_redo_effect w rest label new Hst) as (? & ? & ? & ? & ?).
    repeat split; assumption.
  - intros Hv Hd. unfold _redo, View.can_redo. rewrite Hv, Hd. reflexivity.
Qed.

Lemma top_level_undo_dispatch_witness :
  transient_undone stroke_and_stamp (_undo stroke_and_stamp)
  /\ document_undone (_undo stroke_and_stamp) (_undo (_undo stroke_and_stamp))
  /\ _undo (_undo (_undo stroke_and_stamp)) = _undo (_undo stroke_and_stamp).
Proof.
  split; [| split].
  - apply (top_level_undo_dispatch stroke_and_stamp). discriminate.
  - apply (top_level_undo_dispatch (_undo stroke_and_stamp)).
    + reflexivity.
    + discriminate.
  - apply (top_level_undo_dispatch (_undo (_undo stroke_and_stamp)));
      reflexivity.
Defined.

End WindowProofs.

Section WindowMoreProofs.
Import Window.

Lemma exit_edit_mode_off (v : View.view_state) :
  View.edit_mode (View.exit_edit_mode v) = false.
Proof.
  unfold View.exit_edit_mode. by destruct (View.edit_mode v) eqn:E.
Qed.

Lemma restore_doc_effect (b : pdf_bytes) (w : window) :
  View.edit_mode (view (_restore_doc_from_bytes b w)) = false
  /\ tile_generation (_restore_doc_from_bytes b w)
     = (tile_generation w + 1)%Z.
Proof.
  unfold _restore_doc_from_bytes.
  destruct (View.edit_mode (view w)) eqn:E; cbn; [| done].
  split; [apply exit_edit_mode_off | done].
Qed.

Lemma doc_undo_generation (w : window) (rest : list (string * pdf_bytes))
    (label : string) (old : pdf_bytes) :
  doc_undo_stack w = rest ++ [(label, old)] ->
  View.edit_mode (view (_doc_undo w)) = false
  /\ tile_generation (_doc_undo w) = (tile_generation w + 1)%Z.
Proof.
  intros H. unfold _doc_undo. rewrite H, py_pop_app.
  cbn [showMessage view tile_generation].
  set (w1 := set_doc_stacks rest _ w).
  destruct (restore_doc_effect old w1) as [-> ->]. done.
Qed.

Lemma doc_redo_generation (w : window) (rest : list (string * pdf_bytes))
    (label : string) (new : pdf_bytes) :
  doc_redo_stack w = rest ++ [(label, new)] ->
  View.edit_mode (view (_doc_redo w)) = false
  /\ tile_generation (_doc_redo w) = (tile_generation w + 1)%Z.
Proof.
  intros H. unfold _doc_redo. rewrite H, py_pop_app.
  cbn [showMessage view tile_generation].
  set (w1 := set_doc_stacks _ rest w).
  destruct (restore_doc_effect new w1) as [-> ->]. done.
Qed.

(** [_doc_undo] followed by [_doc_redo] gives back the document and both
    snapshot stacks; each of the two swaps leaves edit mode and bumps
    the tile generation, so that no tile of the replaced document is
    placed afterwards. *)
Theorem doc_undo_redo_round_trip (w : window)
    (rest : list (string * pdf_bytes)) (label : string)
    (old cur : pdf_bytes)
    (Hdoc : doc w = Some cur)
    (Hst : doc_undo_stack w = rest ++ [(label, old)]) :
  let w1 := _doc_undo w in
  let w2 := _doc_redo w1 in
  doc w1 = Some old
  /\ doc w2 = Some cur
  /\ doc_undo_stack w2 = doc_undo_stack w
  /\ doc_redo_stack w2 = doc_redo_stack w
  /\ View.edit_mode (view w1) = false
  /\ View.edit_mode (view w2) = false
  /\ tile_generation w2 = (tile_generation w + 2)%Z
  /\ tile_generation w1 = (tile_generation w + 1)%Z
  /\ tile_generation w2 = (tile_generation w1 + 1)%Z.
Proof.
  cbv zeta.
  destruct (doc_undo_effect w rest label old Hst) as (Hd1 & Hu1 & Hr1 & _).
  destruct (doc_undo_generation w rest label old Hst) as [He1 Hg1].
  rewrite Hdoc in Hr1. cbn [default] in Hr1.
  destruct (doc_redo_effect _ _ _ _ Hr1) as (Hd2 & Hr2 & Hu2 & _).
  destruct (doc_redo_generation _ _ _ _ Hr1) as [He2 Hg2].
  rewrite Hd1, Hu1 in Hu2. cbn [default] in Hu2.
  split; [done |]. split; [done |]. split; [by rewrite Hu2, Hst |].
  split; [done |]. split; [done |]. split; [done |].
  split; [rewrite Hg2, Hg1; lia |]. split; [exact Hg1 | exact Hg2].
Qed.

Lemma doc_undo_redo_round_trip_witness :
  doc (_doc_redo (_doc_undo stroke_and_stamp)) = doc stroke_and_stamp
  /\ doc_undo_stack (_doc_redo (_doc_undo stroke_and_stamp))
     = doc_undo_stack stroke_and_stamp.
Proof.
  destruct (doc_undo_redo_round_trip stroke_and_stamp [] "Stamp"
              [Byte.x25] [Byte.x26] eq_refl eq_refl)
    as (_ & Hd & Hu & _).
  split; [rewrite Hd; reflexivity | exact Hu].
Defined.



End WindowMoreProofs.

Section RecentProofs.
Import Recent.
Variable normpath : string -> string.

(** [_add_to_recent] puts the normalised path first, keeps at most ten
    entries, keeps the other entries in their order, and leaves no other
    entry that normalises to the added path. *)
Theorem add_to_recent_front (path : string) (recent_files : list string) :
  let r := _add_to_recent normpath path recent_files in
  head r = Some (normpath path)
  /\ (length r <= max_recent)%nat
  /\ tail r `sublist_of` recent_files
  /\ (forall f, f ∈ tail r -> normpath f <> normpath path).
Proof.
  cbv zeta. unfold _add_to_recent, max_recent.
  cbn [take head tail].
  split; [done |]. split.
  { cbn [length]. rewrite length_take. lia. }
  assert (Hsub : take 9 (filter (fun f => normpath f <> normpath path)
                           recent_files)
                 `sublist_of` filter (fun f => normpath f <> normpath path)
                                recent_files) by apply sublist_take.
  split.
  - etrans; [exact Hsub |]. apply sublist_filter.
  - intros f Hf. apply (elem_of_sublist _ _ _ Hf) in Hsub. rename Hsub into Hf'.
    clear Hf. rename Hf' into Hf.
    by apply list_elem_of_filter in Hf as [Hf _].
Qed.

(** When the list holds no duplicates and [normpath] leaves the
    normalised path as it is, the new list holds no duplicates; with
    fewer than ten entries before, none of the other files is lost. *)
Theorem add_to_recent_nodup (path : string) (recent_files : list string)
    (Hidem : normpath (normpath path) = normpath path)
    (Hnd : NoDup recent_files) :
  let r := _add_to_recent normpath path recent_files in
  NoDup r
  /\ ((length recent_files < max_recent)%nat ->
      forall f, f ∈ recent_files -> normpath f <> normpath path -> f ∈ r).
Proof.
  cbv zeta. unfold _add_to_recent, max_recent. cbn [take].
  set (kept := filter (fun f => normpath f <> normpath path) recent_files).
  split.
  - apply NoDup_cons. split.
    + intros Hin. apply elem_of_take in Hin as (i & Hi & _).
      apply list_elem_of_lookup_2 in Hi.
      apply list_elem_of_filter in Hi as [Hi _]. by apply Hi.
    + apply (sublist_NoDup _ kept); [by apply NoDup_filter |].
      apply sublist_take.
  - intros Hlen f Hf Hne. apply elem_of_cons. right.
    rewrite take_ge.
    + apply list_elem_of_filter. by split.
    + pose proof (length_filter (fun f => normpath f <> normpath path)
                    recent_files) as Hl.
      fold kept in Hl. lia.
Qed.

End RecentProofs.

Section RecentExamples.
Import Recent.

Lemma add_to_recent_nodup_witness :
  NoDup (_add_to_recent (fun p => p) "b.pdf" ["a.pdf"; "b.pdf"; "c.pdf"])
  /\ _add_to_recent (fun p => p) "b.pdf" ["a.pdf"; "b.pdf"; "c.pdf"]
     = ["b.pdf"; "a.pdf"; "c.pdf"].
Proof.
  assert (Hnd : NoDup ["a.pdf"; "b.pdf"; "c.pdf"])
    by (apply (bool_decide_unpack _); vm_compute; exact I).
  split; [| vm_compute; reflexivity].
  exact (proj1 (add_to_recent_nodup (fun p => p) "b.pdf"
                  ["a.pdf"; "b.pdf"; "c.pdf"] eq_refl Hnd)).
Defined.

End RecentExamples.

Section ViewProofs.
Import View.
Context `{PT : PlainText}.

Lemma remove_items_difference (its : list nat) (sc : gset nat) :
  remove_items its sc = sc ∖ list_to_set its.
Proof.
  unfold remove_items. revert sc.
  induction its as [| it its IH]; intros sc; cbn [fold_left list_to_set].
  - set_solver.
  - rewrite IH. destruct (decide (it ∈ sc)); set_solver.
Qed.

Lemma add_items_union (its : list nat) (sc : gset nat) :
  add_items true its sc = sc ∪ list_to_set its.
Proof.
  unfold add_items. revert sc.
  induction its as [| it its IH]; intros sc; cbn [fold_left list_to_set].
  - set_solver.
  - rewrite IH. set_solver.
Qed.

(** Transient stack: redo followed by undo is the identity.  The entry on
    top of the redo stack is one that [undo] put there: the items of an
    "add" entry are out of the scene, those of a "remove" entry are in
    it. *)
Lemma transient_redo_undo (v : view_state) (rest : list undo_entry)
      (e : undo_entry) :
  has_scene v = true ->
  redo_stack v = rest ++ [e] ->
  match entry_action e with
  | Add => forall it, it ∈ entry_items e -> it ∉ scene_items v
  | Remove => forall it, it ∈ entry_items e -> it ∈ scene_items v
  end ->
  undo (redo v) = v.
Proof.
  intros Hsc Hst Hcons. destruct v as [hs sc bl us rs em etb eii eus ers ecb].
  cbn [has_scene redo_stack scene_items] in *. subst hs rs.
  unfold redo. cbn [redo_stack undo_stack has_scene scene_items].
  rewrite py_pop_app.
  destruct e as [[] its]; cbn [entry_action entry_items] in *;
    unfold undo, set_stacks, set_scene_items;
    cbn [redo_stack undo_stack has_scene scene_items blocks edit_mode
         edit_text_blocks edit_image_items edit_undo_stack edit_redo_stack
         edit_clipboard entry_action entry_items];
    rewrite py_pop_app; cbn [entry_action entry_items];
    rewrite ?add_items_union, ?remove_items_difference; f_equal.
  - apply set_eq. intros x. rewrite elem_of_difference, elem_of_union.
    rewrite elem_of_list_to_set. specialize (Hcons x). tauto.
  - apply set_eq. intros x. rewrite elem_of_union, elem_of_difference.
    rewrite elem_of_list_to_set. specialize (Hcons x).
    destruct (decide (x ∈ its)); tauto.
Qed.

(** Transient stack: undo followed by redo is the identity.  The entry on
    top of the undo stack is one that a tool or [redo] put there: the
    items of an "add" entry are in the scene, those of a "remove" entry
    are out of it. *)
Lemma transient_undo_redo (v : view_state) (rest : list undo_entry)
      (e : undo_entry) :
  has_scene v = true ->
  undo_stack v = rest ++ [e] ->
  match entry_action e with
  | Add => forall it, it ∈ entry_items e -> it ∈ scene_items v
  | Remove => forall it, it ∈ entry_items e -> it ∉ scene_items v
  end ->
  redo (undo v) = v.
Proof.
  intros Hsc Hst Hcons. destruct v as [hs sc bl us rs em etb eii eus ers ecb].
  cbn [has_scene undo_stack scene_items] in *. subst hs us.
  unfold undo. cbn [redo_stack undo_stack has_scene scene_items].
  rewrite py_pop_app.
  destruct e as [[] its]; cbn [entry_action entry_items] in *;
    unfold redo, set_stacks, set_scene_items;
    cbn [redo_stack undo_stack has_scene scene_items blocks edit_mode
         edit_text_blocks edit_image_items edit_undo_stack edit_redo_stack
         edit_clipboard entry_action entry_items];
    rewrite py_pop_app; cbn [entry_action entry_items];
    rewrite ?add_items_union, ?remove_items_difference; f_equal.
  - apply set_eq. intros x. rewrite elem_of_union, elem_of_difference.
    rewrite elem_of_list_to_set. specialize (Hcons x).
    destruct (decide (x ∈ its)); tauto.
  - apply set_eq. intros x. rewrite elem_of_difference, elem_of_union.
    rewrite elem_of_list_to_set. specialize (Hcons x). tauto.
Qed.

(** The copy entry never stays on the undo stack, the clipboard takes the
    clone, and the redo stack is emptied on the way. *)
Lemma push_edit_undo_copy (v : view_state) (item : nat) (b : text_block) :
  blocks v !! item = Some b ->
  edit_undo_stack (push_edit_undo (ECopy item) v) = edit_undo_stack v
  /\ edit_clipboard (push_edit_undo (ECopy item) v) = Some (clone_block b)
  /\ edit_redo_stack (push_edit_undo (ECopy item) v) = [].
Proof.
  intros Hb. unfold push_edit_undo.
  cbn [set_edit_stacks blocks]. rewrite Hb.
  cbn [set_edit_stacks set_edit_clipboard edit_undo_stack edit_redo_stack].
  rewrite py_pop_app. done.
Qed.

(** C3, failing input: a block dragged from (0,0) to (30,0), the drag
    undone.  From that state [edit_redo] does not move the block forward
    again (it stays at (0,0)), and the following [edit_undo] then moves it
    to (30,0): redo followed by undo does not give the state back.
    [edit_undo] swaps [old_pos] and [new_pos] in the entry and [edit_redo]
    still reads [new_pos]. *)
Theorem edit_move_redo_undo_diverges :
  block_pos one_block 0 = Some (0, 0)%Q
  /\ block_pos dragged 0 = Some (30, 0)%Q
  /\ block_pos drag_undone 0 = Some (0, 0)%Q
  /\ edit_redo_stack drag_undone = [EMove 0 (30, 0)%Q (0, 0)%Q]
  /\ block_pos (edit_redo drag_undone) 0 = Some (0, 0)%Q
  /\ block_pos (edit_undo (edit_redo drag_undone)) 0 = Some (30, 0)%Q
  /\ edit_undo (edit_redo drag_undone) <> drag_undone.
Proof.
  repeat split; try reflexivity.
  intros H. apply (f_equal (fun v => block_pos v 0)) in H.
  vm_compute in H. discriminate.
Qed.

(** C9, failing input: with one undone drag on the redo stack, "Copy" from
    the context menu leaves the undo stack as it was and fills the
    clipboard, and it empties the redo stack; Ctrl+C, the other way to
    copy, keeps the redo stack. *)
Theorem menu_copy_clears_redo_stack :
  edit_redo_stack drag_undone = [EMove 0 (30, 0)%Q (0, 0)%Q]
  /\ edit_undo_stack (menu_copy 0 drag_undone) = edit_undo_stack drag_undone
  /\ edit_clipboard (menu_copy 0 drag_undone) = Some (clone_block hello_block)
  /\ edit_redo_stack (menu_copy 0 drag_undone) = []
  /\ edit_redo_stack (key_copy [0%nat] drag_undone)
     = edit_redo_stack drag_undone
  /\ edit_clipboard (key_copy [0%nat] drag_undone)
     = Some (clone_block hello_block).
Proof. repeat split; reflexivity. Qed.

End ViewProofs.

Section ViewScenarios.
Import View.
#[local] Existing Instance verbatim_text.

(** The other entry types at this block, in these states: after an undo,
    redo followed by undo gives the state back.  These are examples, not
    a law of the entry types: the undo of a "restore" entry of a block
    that was deleted marks it deleted and leaves its position alone. *)
Example delete_redo_undo :
  let x := edit_undo (menu_delete 0 one_block) in
  edit_undo (edit_redo x) = x.
Proof. reflexivity. Qed.

Example restore_modified_redo_undo :
  let x := edit_undo (menu_restore 0 dragged) in
  block_pos x 0 = Some (30, 0)%Q /\ edit_undo (edit_redo x) = x.
Proof. split; reflexivity. Qed.

Example restore_deleted_redo_undo :
  let x := edit_undo (menu_restore 0 (menu_delete 0 one_block)) in
  edit_undo (edit_redo x) = x.
Proof. reflexivity. Qed.

Example paste_redo_undo :
  let x := edit_undo (_paste_block 1 (key_copy [0%nat] one_block)) in
  edit_undo (edit_redo x) = x.
Proof. reflexivity. Qed.

End ViewScenarios.

Section ViewMoreProofs.
Import View.
Context `{PT : PlainText}.

Lemma py_remove_not_in (x : nat) (l : list nat) :
  x ∉ l -> py_remove x l = l.
Proof.
  induction l as [| y l IH]; intros H; cbn [py_remove]; [reflexivity |].
  apply not_elem_of_cons in H as [Hne Hl].
  rewrite decide_False by exact Hne. by rewrite IH.
Qed.

Lemma py_remove_snoc (x : nat) (l : list nat) :
  x ∉ l -> py_remove x (l ++ [x]) = l.
Proof.
  induction l as [| y l IH]; intros H; cbn [py_remove app].
  - by rewrite decide_True.
  - apply not_elem_of_cons in H as [Hne Hl].
    rewrite decide_False by exact Hne. by rewrite IH.
Qed.

Lemma py_remove_nodup (x : nat) (l : list nat) :
  NoDup l -> x ∉ py_remove x l.
Proof.
  induction 1 as [| y l Hy Hnd IH]; cbn [py_remove]; [apply not_elem_of_nil |].
  destruct (decide (x = y)) as [-> | Hne]; [exact Hy |].
  apply not_elem_of_cons. auto.
Qed.

Lemma py_remove_perm (x : nat) (l : list nat) :
  x ∈ l -> py_remove x l ++ [x] ≡ₚ l.
Proof.
  induction l as [| y l IH]; intros H; cbn [py_remove];
    [by apply not_elem_of_nil in H |].
  destruct (decide (x = y)) as [-> | Hne].
  - by rewrite Permutation_app_comm.
  - apply elem_of_cons in H as [? | H]; [contradiction |].
    cbn [app]. by rewrite IH.
Qed.

(** [exit_edit_mode] from edit mode: the edit state is emptied (block
    list, image list, both edit stacks, clipboard), the blocks and images
    leave the scene, the transient stacks stay, nothing is left for
    [get_text_edits], and a second call changes nothing. *)
Theorem exit_edit_mode_spec (v : view_state)
    (Hmode : edit_mode v = true) (Hscene : has_scene v = true) :
  let v' := exit_edit_mode v in
  edit_mode v' = false
  /\ edit_text_blocks v' = [] /\ edit_image_items v' = []
  /\ edit_undo_stack v' = [] /\ edit_redo_stack v' = []
  /\ edit_clipboard v' = None
  /\ undo_stack v' = undo_stack v /\ redo_stack v' = redo_stack v
  /\ scene_items v'
     = scene_items v ∖ (list_to_set (edit_text_blocks v)
                        ∪ list_to_set (edit_image_items v))
  /\ get_text_edits v' = []
  /\ exit_edit_mode v' = v'.
Proof.
  cbv zeta. unfold exit_edit_mode. rewrite Hmode, Hscene.
  cbn [_clear_edit_undo set_edit_clipboard set_edit_stacks edit_mode
       edit_text_blocks edit_image_items edit_undo_stack edit_redo_stack
       edit_clipboard undo_stack redo_stack scene_items has_scene blocks].
  repeat split.
  rewrite !remove_items_difference. set_solver.
Qed.

(** Deleting the selected block with the Delete key takes it out of the
    scene and of the block list and records one "delete_key" entry;
    [edit_undo] then puts it back: the scene is as before, the block list
    holds the same blocks with the restored one moved to the end, and the
    undo stack is as before. *)
Theorem delete_selected_block_undo (v : view_state) (item : nat)
    (b : text_block)
    (Hscene : has_scene v = true)
    (Hb : blocks v !! item = Some b)
    (Hin : item ∈ scene_items v)
    (Hlist : item ∈ edit_text_blocks v)
    (Hnodup : NoDup (edit_text_blocks v)) :
  let v1 := _delete_selected_blocks [item] v in
  let v2 := edit_undo v1 in
  (item ∉ scene_items v1)
  /\ (item ∉ edit_text_blocks v1)
  /\ edit_undo_stack v1 = edit_undo_stack v ++ [EDeleteKey item]
  /\ edit_redo_stack v1 = []
  /\ scene_items v2 = scene_items v
  /\ edit_text_blocks v2 ≡ₚ edit_text_blocks v
  /\ edit_text_blocks v2 = py_remove item (edit_text_blocks v) ++ [item]
  /\ blocks v2 = blocks v
  /\ edit_undo_stack v2 = edit_undo_stack v
  /\ edit_redo_stack v2 = [EDeleteKey item].
Proof.
  cbv zeta. unfold _delete_selected_blocks. rewrite Hscene.
  cbn [fold_left]. rewrite Hb.
  unfold push_edit_undo, blocks_remove, edit_undo.
  cbn [set_edit_stacks set_edit_text_blocks set_scene_items edit_undo_stack
       edit_redo_stack edit_text_blocks scene_items blocks has_scene].
  pose proof (py_remove_nodup item _ Hnodup) as Hrem.
  split; [set_solver |]. split; [exact Hrem |].
  split; [reflexivity |]. split; [reflexivity |].
  rewrite py_pop_app.
  unfold blocks_append, scene_add.
  cbn [set_edit_stacks set_edit_text_blocks set_scene_items edit_undo_stack
       edit_redo_stack edit_text_blocks scene_items blocks has_scene].
  rewrite Hscene.
  rewrite (bool_decide_eq_true_2 (item ∉ scene_items v ∖ {[item]}))
    by set_solver.
  cbn [andb set_edit_stacks set_edit_text_blocks set_scene_items
       edit_undo_stack edit_redo_stack edit_text_blocks scene_items blocks
       has_scene].
  rewrite (bool_decide_eq_false_2 _ Hrem).
  cbn [set_edit_stacks set_edit_text_blocks set_scene_items edit_undo_stack
       edit_redo_stack edit_text_blocks scene_items blocks has_scene].
  split.
  { apply set_eq. intros x. rewrite elem_of_union, elem_of_difference,
      elem_of_singleton. destruct (decide (x = item)) as [-> |]; tauto. }
  split; [by apply py_remove_perm |]. repeat split.
Qed.

(** [_paste_block]: without a clipboard nothing happens; with one, a new
    block with the clipboard's text is created 20 px right of and below
    the copied rectangle, not deleted, in the scene and last in the block
    list, with one "paste" entry on the undo stack and an empty redo
    stack; [edit_undo] takes it out of the scene and of the list again.
    The block reads as the clipboard's text and is unmodified when that
    text reads back unchanged from the text item (in general it reads as
    [toPlainText] of it, and is modified exactly when that differs). *)
Theorem paste_block_spec (v : view_state) (new_item : nat) :
  (edit_clipboard v = None -> _paste_block new_item v = v)
  /\ (forall cb,
        edit_clipboard v = Some cb -> has_scene v = true ->
        new_item ∉ scene_items v -> new_item ∉ edit_text_blocks v ->
        let v1 := _paste_block new_item v in
        let v2 := edit_undo v1 in
        (exists b,
            blocks v1 !! new_item = Some b
            /\ current_text b = toPlainText (cb_text cb)
            /\ is_modified b
               = negb (String.eqb (toPlainText (cb_text cb)) (cb_text cb))
            /\ (toPlainText (cb_text cb) = cb_text cb ->
                current_text b = cb_text cb /\ is_modified b = false)
            /\ deleted b = false
            /\ rect b = (let '(rx, ry, rw, rh) := cb_rect cb in
                         ((rx + 20)%Q, (ry + 20)%Q, rw, rh)))
        /\ new_item ∈ scene_items v1
        /\ edit_text_blocks v1 = edit_text_blocks v ++ [new_item]
        /\ edit_undo_stack v1 = edit_undo_stack v ++ [EPaste new_item]
        /\ edit_redo_stack v1 = []
        /\ scene_items v2 = scene_items v
        /\ edit_text_blocks v2 = edit_text_blocks v
        /\ edit_undo_stack v2 = edit_undo_stack v).
Proof.
  split.
  - intros H. unfold _paste_block. by rewrite H.
  - intros cb Hcb Hscene Hfs Hfl. cbv zeta. unfold _paste_block.
    rewrite Hcb, Hscene. destruct (cb_rect cb) as [[[rx ry] rw] rh] eqn:Hr.
    unfold push_edit_undo, edit_undo.
    cbn [set_edit_stacks set_edit_text_blocks set_scene_items set_blocks
         edit_undo_stack edit_redo_stack edit_text_blocks scene_items blocks
         has_scene].
    split.
    { eexists. split; [apply lookup_insert_eq |].
      unfold is_modified, current_text, new_block.
      cbn [deleted text_item original_text pos rect].
      split; [reflexivity |]. split; [by rewrite orb_false_r |].
      split; [| split; reflexivity].
      intros ->. rewrite String.eqb_refl. split; reflexivity. }
    split; [set_solver |]. split; [reflexivity |]. split; [reflexivity |].
    split; [reflexivity |].
    rewrite py_pop_app. unfold blocks_remove, scene_remove.
    cbn [set_edit_stacks set_edit_text_blocks set_scene_items set_blocks
         edit_undo_stack edit_redo_stack edit_text_blocks scene_items blocks
         has_scene].
    rewrite remove_items_difference, py_remove_snoc by exact Hfl.
    repeat split. set_solver.
Qed.

Lemma current_text_with_dynamic (x : text_block) (e : bool) (t : string)
    (p : point) :
  current_text (with_dynamic x false e t p) = toPlainText t.
Proof. reflexivity. Qed.

Lemma stop_editing_fields (b : text_block) :
  deleted b = false ->
  deleted (_stop_editing b) = false
  /\ editing (_stop_editing b) = false
  /\ text_item (_stop_editing b) = text_item b
  /\ pos (_stop_editing b) = pos b
  /\ original_text (_stop_editing b) = original_text b.
Proof.
  intros Hd. unfold _stop_editing, _update_visual.
  destruct (editing b) eqn:He; cbn [with_dynamic deleted editing text_item
                                    pos original_text]; rewrite ?Hd;
    cbn [with_dynamic deleted editing text_item pos original_text]; auto.
Qed.

Lemma blocks_on_block (f : text_block -> text_block) (item : nat)
    (v : view_state) (b : text_block) :
  blocks v !! item = Some b ->
  blocks (on_block f item v) !! item = Some (f b).
Proof.
  intros Hb. cbn [on_block set_blocks blocks].
  by rewrite lookup_alter_eq, Hb.
Qed.

Lemma mark_deleted_fields (b : text_block) :
  editing b = false ->
  deleted (mark_deleted b) = true
  /\ editing (mark_deleted b) = false
  /\ text_item (mark_deleted b) = "[DELETED]"%string
  /\ pos (mark_deleted b) = pos b.
Proof.
  intros He. unfold mark_deleted, _stop_editing, _update_visual.
  cbn [with_dynamic deleted editing text_item pos]. rewrite He.
  cbn [with_dynamic deleted editing text_item pos]. auto.
Qed.

(** "Delete" from the context menu of a block that is in the scene and
    not deleted marks it deleted, so that its text reads as empty and
    [get_text_edits] reports it; [edit_undo] then sets the text that the
    block read as before and clears the flag, at the same position,
    although the displayed text had been overwritten by "[DELETED]": the
    block reads as before when that text reads back unchanged. *)
Theorem menu_delete_undo (v : view_state) (item : nat) (b : text_block)
    (Hb : blocks v !! item = Some b)
    (Hdel : deleted b = false)
    (Hin : item ∈ scene_items v) :
  let v1 := menu_delete item v in
  let v2 := edit_undo v1 in
  (exists b1, blocks v1 !! item = Some b1
              /\ deleted b1 = true /\ current_text b1 = EmptyString
              /\ text_item b1 = "[DELETED]"%string /\ editing b1 = false)
  /\ (item ∈ edit_text_blocks v -> In item (get_text_edits v1))
  /\ (exists b2, blocks v2 !! item = Some b2
                 /\ deleted b2 = false
                 /\ text_item b2 = current_text b
                 /\ current_text b2 = toPlainText (current_text b)
                 /\ (toPlainText (current_text b) = current_text b ->
                     current_text b2 = current_text b)
                 /\ pos b2 = pos b /\ editing b2 = false)
  /\ edit_undo_stack v2 = edit_undo_stack v
  /\ edit_redo_stack v2 = [EDeleteText item (current_text b)].
Proof.
  cbv zeta. unfold menu_delete.
  assert (H0 : blocks (on_block _stop_editing item v) !! item
               = Some (_stop_editing b)).
  { by apply blocks_on_block. }
  rewrite H0.
  destruct (stop_editing_fields b Hdel) as (Hd0 & He0 & Ht0 & Hp0 & Ho0).
  rewrite Hd0. unfold block_push_edit_undo.
  cbn [on_block set_blocks scene_items].
  rewrite (bool_decide_eq_true_2 _ Hin).
  unfold push_edit_undo, edit_undo.
  cbn [set_edit_stacks set_blocks edit_undo_stack edit_redo_stack blocks
       edit_text_blocks].
  assert (Hct : current_text (_stop_editing b) = current_text b)
    by (unfold current_text; by rewrite Hd0, Hdel, Ht0).
  destruct (mark_deleted_fields (_stop_editing b) He0)
    as (Hmd & Hme & Hmt & Hmp).
  split.
  { eexists. split; [by apply blocks_on_block |].
    unfold current_text. rewrite Hmd. auto. }
  split.
  { intros Hl. unfold get_text_edits.
    cbn [set_edit_stacks set_blocks edit_undo_stack edit_redo_stack blocks
         edit_text_blocks].
    apply filter_In. split; [by apply list_elem_of_In |].
    rewrite (blocks_on_block _ _ _ _ H0).
    rewrite Hmd. apply orb_true_r. }
  rewrite py_pop_app.
  cbn [set_edit_stacks set_blocks edit_undo_stack edit_redo_stack
       blocks edit_text_blocks].
  split.
  { eexists. split.
    { apply blocks_on_block. cbn [set_edit_stacks blocks].
      apply blocks_on_block, H0. }
    rewrite Hct. unfold set_current_text, _update_visual.
    cbn [with_dynamic deleted editing text_item pos].
    rewrite !current_text_with_dynamic, Hmp, Hp0, Hme. auto 7. }
  rewrite Hct. split; reflexivity.
Qed.

(** "Restore Original" on a modified or deleted block that is in the
    scene sets its original text at offset (0, 0) and clears the deleted
    flag, and pushes one "restore" entry.  The block then reads as
    [toPlainText] of its original text: it is unmodified, and left out by
    [get_text_edits], exactly when the original text reads back unchanged
    from the text item; otherwise it stays modified and is reported. *)
Theorem menu_restore_cleans (v : view_state) (item : nat) (b : text_block)
    (Hb : blocks v !! item = Some b)
    (Hin : item ∈ scene_items v)
    (Hmod : is_modified (_stop_editing b) || deleted (_stop_editing b)
            = true) :
  let v1 := menu_restore item v in
  (exists b1, blocks v1 !! item = Some b1
              /\ text_item b1 = original_text b
              /\ current_text b1 = toPlainText (original_text b)
              /\ pos b1 = (0%Q, 0%Q)
              /\ deleted b1 = false
              /\ is_modified b1
                 = negb (String.eqb (toPlainText (original_text b))
                           (original_text b)))
  /\ (toPlainText (original_text b) = original_text b ->
      ~ In item (get_text_edits v1))
  /\ (toPlainText (original_text b) <> original_text b ->
      item ∈ edit_text_blocks v -> In item (get_text_edits v1))
  /\ edit_undo_stack v1
     = edit_undo_stack v
       ++ [ERestore item (current_text (_stop_editing b))
             (pos (_stop_editing b)) (deleted (_stop_editing b))]
  /\ edit_redo_stack v1 = [].
Proof.
  cbv zeta. unfold menu_restore.
  assert (H0 : blocks (on_block _stop_editing item v) !! item
               = Some (_stop_editing b)) by (by apply blocks_on_block).
  rewrite H0, Hmod. unfold block_push_edit_undo.
  cbn [on_block set_blocks scene_items].
  rewrite (bool_decide_eq_true_2 _ Hin).
  unfold push_edit_undo.
  cbn [set_edit_stacks set_blocks edit_undo_stack edit_redo_stack blocks
       edit_text_blocks].
  assert (Ho : original_text (_stop_editing b) = original_text b).
  { unfold _stop_editing, _update_visual. destruct (editing b); [| done].
    cbn [with_dynamic deleted]. by destruct (deleted b). }
  assert (Hr : let b1 := restore_original (_stop_editing b) in
               text_item b1 = original_text b
               /\ current_text b1 = toPlainText (original_text b)
               /\ pos b1 = (0%Q, 0%Q)
               /\ deleted b1 = false
               /\ is_modified b1
                  = negb (String.eqb (toPlainText (original_text b))
                            (original_text b))).
  { cbv zeta. unfold restore_original, _update_visual, is_modified,
      current_text.
    cbn [with_dynamic deleted editing text_item pos original_text].
    rewrite Ho. split; [done |]. split; [done |]. split; [done |].
    split; [done |]. by rewrite orb_false_r. }
  cbv zeta in Hr. destruct Hr as (Ht & Hc & Hp & Hd & Hm).
  split.
  { eexists. split; [by apply blocks_on_block |]. auto 6. }
  split; [| split; [| split; reflexivity]].
  - intros Heq. unfold get_text_edits.
    cbn [set_edit_stacks set_blocks edit_undo_stack edit_redo_stack blocks
         edit_text_blocks].
    intros Hf. apply filter_In in Hf as [_ Hf].
    rewrite (blocks_on_block _ _ _ _ H0) in Hf.
    rewrite Hm, Hd, Heq, String.eqb_refl in Hf. discriminate.
  - intros Hne Hl. unfold get_text_edits.
    cbn [set_edit_stacks set_blocks edit_undo_stack edit_redo_stack blocks
         edit_text_blocks].
    apply filter_In. split; [by apply list_elem_of_In |].
    rewrite (blocks_on_block _ _ _ _ H0), Hm.
    apply String.eqb_neq in Hne. by rewrite Hne.
Qed.

Lemma stop_editing_keeps (b : text_block) :
  deleted (_stop_editing b) = deleted b
  /\ editing (_stop_editing b) = false
  /\ current_text (_stop_editing b) = current_text b
  /\ pos (_stop_editing b) = pos b.
Proof.
  unfold _stop_editing, _update_visual, current_text.
  destruct (editing b) eqn:He; cbn [with_dynamic deleted editing text_item
                                    pos]; [| by rewrite He].
  destruct (deleted b) eqn:Hd;
    cbn [with_dynamic deleted editing text_item pos]; by rewrite ?Hd.
Qed.

(** [edit_undo] after "Restore Original": a block that was not deleted
    gets the text it read as and its position back (it reads as before
    when that text reads back unchanged); a block that was deleted is
    marked deleted again, and its position stays at offset (0, 0), where
    the restore put it, also when it had been dragged before. *)
Theorem menu_restore_undo (v : view_state) (item : nat) (b : text_block)
    (Hb : blocks v !! item = Some b)
    (Hin : item ∈ scene_items v)
    (Hmod : is_modified (_stop_editing b) || deleted (_stop_editing b)
            = true) :
  let v2 := edit_undo (menu_restore item v) in
  (exists b2, blocks v2 !! item = Some b2
              /\ deleted b2 = deleted b
              /\ current_text b2
                 = (if deleted b then EmptyString
                    else toPlainText (current_text b))
              /\ (deleted b = true
                  \/ toPlainText (current_text b) = current_text b ->
                  current_text b2 = current_text b)
              /\ pos b2 = (if deleted b then (0%Q, 0%Q) else pos b))
  /\ edit_undo_stack v2 = edit_undo_stack v.
Proof.
  cbv zeta. unfold menu_restore.
  assert (H0 : blocks (on_block _stop_editing item v) !! item
               = Some (_stop_editing b)) by (by apply blocks_on_block).
  rewrite H0, Hmod. unfold block_push_edit_undo.
  cbn [on_block set_blocks scene_items].
  rewrite (bool_decide_eq_true_2 _ Hin).
  unfold push_edit_undo, edit_undo.
  cbn [set_edit_stacks set_blocks edit_undo_stack edit_redo_stack blocks
       edit_text_blocks].
  rewrite py_pop_app.
  destruct (stop_editing_keeps b) as (Hd0 & He0 & Hc0 & Hp0).
  rewrite Hd0, Hc0, Hp0.
  assert (H1 : blocks (on_block restore_original item
                         (on_block _stop_editing item v)) !! item
               = Some (restore_original (_stop_editing b)))
    by (by apply blocks_on_block).
  destruct (deleted b) eqn:Hdel.
  - cbn [set_edit_stacks set_blocks edit_undo_stack edit_redo_stack blocks
         edit_text_blocks].
    split; [| reflexivity].
    eexists. split.
    { apply blocks_on_block. cbn [set_edit_stacks blocks]. exact H1. }
    assert (Hr : editing (restore_original (_stop_editing b)) = false
                 /\ pos (restore_original (_stop_editing b)) = (0%Q, 0%Q)).
    { unfold restore_original, _update_visual.
      cbn [with_dynamic deleted editing text_item pos]. by rewrite He0. }
    destruct Hr as [Hre Hrp].
    destruct (mark_deleted_fields _ Hre) as (Hmd & _ & _ & Hmp).
    unfold current_text. rewrite Hmd, Hmp, Hrp, Hdel. auto.
  - cbn [set_edit_stacks set_blocks edit_undo_stack edit_redo_stack blocks
         edit_text_blocks].
    split; [| reflexivity].
    eexists. split.
    { apply blocks_on_block. cbn [set_edit_stacks blocks]. exact H1. }
    unfold setPos, set_current_text, restore_original, _update_visual.
    cbn [with_dynamic deleted editing text_item pos].
    rewrite !current_text_with_dynamic.
    split; [reflexivity |]. split; [reflexivity |].
    split; [| reflexivity].
    intros [Hd | Heq]; [discriminate | exact Heq].
Qed.

(** [pdf_rect] undoes the scaling of [enter_edit_mode]: for a block that
    was not moved it is the bounding box the block was created from, and
    a drag by [(dx, dy)] scene px shifts it by [(dx, dy) / scale] points. *)
Theorem pdf_rect_of_bbox (pn : Z) (b0 b1 b2 b3 : Q) (text : string) (fs : Q)
    (fn : string) (col : Q * Q * Q) (y_off sc dx dy : Q)
    (Hsc : ~ sc == 0) :
  let blk := block_of_bbox pn (b0, b1, b2, b3) text fs fn col y_off sc in
  (let '(x0, y0, x1, y1) := pdf_rect blk in
   x0 == b0 /\ y0 == b1 /\ x1 == b2 /\ y1 == b3)
  /\ (let '(x0, y0, x1, y1) := pdf_rect (setPos (dx, dy) blk) in
      x0 == b0 + dx / sc /\ y0 == b1 + dy / sc
      /\ x1 == b2 + dx / sc /\ y1 == b3 + dy / sc).
Proof.
  cbv zeta. unfold pdf_rect, block_of_bbox, new_block, setPos.
  cbn [with_dynamic rect pos scale y_offset].
  repeat split; field; exact Hsc.
Qed.

(** The three components of an unpacked span colour lie in [0, 1],
    whatever integer the PDF library reports. *)
Theorem unpack_color_range (c : Z) :
  let '(r, g, b) := unpack_color c in
  (0 <= r <= 1 /\ 0 <= g <= 1 /\ 0 <= b <= 1)%Q.
Proof.
  unfold unpack_color.
  assert (H : forall x : Z, (0 <= inject_Z (Z.land x 255) / 255 <= 1)%Q).
  { intros x. change 255%Z with (Z.ones 8).
    rewrite Z.land_ones by lia.
    pose proof (Z.mod_pos_bound x (2 ^ 8) eq_refl) as Hb.
    change (Z.ones 8) with 255%Z.
    split.
    - apply Qle_shift_div_l; [reflexivity |]. rewrite Qmult_0_l.
      change 0%Q with (inject_Z 0). rewrite <- Zle_Qle.
      change (2 ^ 8)%Z with 256%Z in *. lia.
    - apply Qle_shift_div_r; [reflexivity |]. rewrite Qmult_1_l.
      change 255%Q with (inject_Z 255). rewrite <- Zle_Qle.
      change (2 ^ 8)%Z with 256%Z in *. lia. }
  repeat split; apply H.
Qed.

End ViewMoreProofs.

Section ViewWitnesses.
Import View.
#[local] Existing Instance verbatim_text.

(** A stroke was drawn and undone: item 7 is out of the scene and its
    "add" entry is on the redo stack. *)
Lemma transient_redo_undo_witness :
  let v := undo (_push_undo Add [7%nat]
                   (set_scene_items {[7%nat]} view_init)) in
  undo (redo v) = v.
Proof.
  cbv zeta.
  apply (transient_redo_undo _ [] {| entry_action := Add;
                                     entry_items := [7%nat] |}).
  - reflexivity.
  - reflexivity.
  - cbn [entry_action entry_items]. intros it Hin.
    apply list_elem_of_singleton in Hin as ->.
    apply (bool_decide_unpack _). vm_compute. exact I.
Defined.

(** A stroke was drawn: item 7 is in the scene and its "add" entry is on
    the undo stack. *)
Lemma transient_undo_redo_witness :
  let v := _push_undo Add [7%nat] (set_scene_items {[7%nat]} view_init) in
  redo (undo v) = v.
Proof.
  cbv zeta.
  apply (transient_undo_redo _ [] {| entry_action := Add;
                                     entry_items := [7%nat] |}).
  - reflexivity.
  - reflexivity.
  - cbn [entry_action entry_items]. intros it Hin.
    apply list_elem_of_singleton in Hin as ->.
    apply (bool_decide_unpack _). vm_compute. exact I.
Defined.

(** "Copy" on the block of [one_block], with nothing to redo. *)
Lemma push_edit_undo_copy_witness :
  edit_undo_stack (push_edit_undo (ECopy 0) one_block) = []
  /\ edit_clipboard (push_edit_undo (ECopy 0) one_block)
     = Some (clone_block hello_block)
  /\ edit_redo_stack (push_edit_undo (ECopy 0) one_block) = [].
Proof.
  exact (push_edit_undo_copy one_block 0 hello_block eq_refl).
Defined.

Lemma exit_edit_mode_spec_witness :
  scene_items (exit_edit_mode one_block) = ∅
  /\ edit_text_blocks (exit_edit_mode one_block) = [].
Proof.
  destruct (exit_edit_mode_spec one_block eq_refl eq_refl)
    as (_ & Hb & _ & _ & _ & _ & _ & _ & Hs & _).
  split; [| exact Hb]. rewrite Hs. apply (bool_decide_unpack _).
  vm_compute. exact I.
Defined.

Lemma delete_selected_block_undo_witness :
  scene_items (edit_undo (_delete_selected_blocks [0%nat] one_block))
  = scene_items one_block
  /\ (0%nat ∉ scene_items (_delete_selected_blocks [0%nat] one_block)).
Proof.
  assert (Hin : 0%nat ∈ scene_items one_block)
    by (apply (bool_decide_unpack _); vm_compute; exact I).
  assert (Hlist : 0%nat ∈ edit_text_blocks one_block) by (by left).
  assert (Hnd : NoDup (edit_text_blocks one_block))
    by (apply NoDup_singleton).
  destruct (delete_selected_block_undo one_block 0 hello_block eq_refl eq_refl
              Hin Hlist Hnd) as (Hout & _ & _ & _ & Hback & _).
  split; [exact Hback | exact Hout].
Defined.

Lemma paste_block_spec_witness :
  edit_text_blocks (_paste_block 1 (key_copy [0%nat] one_block))
  = [0%nat; 1%nat]
  /\ edit_text_blocks
       (edit_undo (_paste_block 1 (key_copy [0%nat] one_block)))
     = [0%nat].
Proof.
  destruct (paste_block_spec (key_copy [0%nat] one_block) 1) as [_ H].
  assert (Hfs : 1%nat ∉ scene_items (key_copy [0%nat] one_block))
    by (apply (bool_decide_unpack _); vm_compute; exact I).
  assert (Hfl : 1%nat ∉ edit_text_blocks (key_copy [0%nat] one_block))
    by (apply (bool_decide_unpack _); vm_compute; exact I).
  destruct (H (clone_block hello_block) eq_refl eq_refl Hfs Hfl)
    as (_ & _ & Hl & _ & _ & _ & Hl2 & _).
  split; [exact Hl | exact Hl2].
Defined.

Lemma menu_delete_undo_witness :
  (current_text <$> blocks (menu_delete 0 one_block) !! 0%nat)
  = Some EmptyString
  /\ (current_text <$> blocks (edit_undo (menu_delete 0 one_block)) !! 0%nat)
     = Some "Hello"%string.
Proof.
  assert (Hin : 0%nat ∈ scene_items one_block)
    by (apply (bool_decide_unpack _); vm_compute; exact I).
  destruct (menu_delete_undo one_block 0 hello_block eq_refl eq_refl Hin)
    as ((b1 & Hb1 & _ & Hc1 & _) & _ & (b2 & Hb2 & _ & _ & Hc2 & _) & _).
  rewrite Hb1, Hb2. cbn [fmap option_fmap option_map].
  rewrite Hc1, Hc2. split; reflexivity.
Defined.

Lemma menu_restore_cleans_witness :
  (pos <$> blocks (menu_restore 0 dragged) !! 0%nat) = Some (0%Q, 0%Q)
  /\ get_text_edits dragged = [0%nat]
  /\ get_text_edits (menu_restore 0 dragged) = [].
Proof.
  assert (Hin : 0%nat ∈ scene_items dragged)
    by (apply (bool_decide_unpack _); vm_compute; exact I).
  assert (Hmod : is_modified (_stop_editing (setPos (30, 0)%Q hello_block))
                 || deleted (_stop_editing (setPos (30, 0)%Q hello_block))
                 = true) by (vm_compute; reflexivity).
  destruct (menu_restore_cleans dragged 0
              (setPos (30, 0)%Q hello_block) eq_refl Hin Hmod)
    as ((b1 & Hb1 & _ & _ & Hp1 & _) & _).
  rewrite Hb1. cbn [fmap option_fmap option_map]. rewrite Hp1.
  repeat split.
Defined.

(** The block dragged by 30 px comes back to 30 px; dragged and then
    deleted, it comes back deleted at 0 px. *)
Lemma menu_restore_undo_witness :
  block_pos (edit_undo (menu_restore 0 dragged)) 0 = Some (30, 0)%Q
  /\ block_pos (menu_delete 0 dragged) 0 = Some (30, 0)%Q
  /\ block_pos (edit_undo (menu_restore 0 (menu_delete 0 dragged))) 0
     = Some (0, 0)%Q.
Proof.
  assert (Hin : 0%nat ∈ scene_items dragged)
    by (apply (bool_decide_unpack _); vm_compute; exact I).
  assert (Hmod : is_modified (_stop_editing (setPos (30, 0)%Q hello_block))
                 || deleted (_stop_editing (setPos (30, 0)%Q hello_block))
                 = true) by (vm_compute; reflexivity).
  destruct (menu_restore_undo dragged 0
              (setPos (30, 0)%Q hello_block) eq_refl Hin Hmod)
    as ((b2 & Hb2 & _ & _ & _ & Hp2) & _).
  unfold block_pos at 1. rewrite Hb2. cbn [fmap option_fmap option_map].
  rewrite Hp2. repeat split.
Defined.

(** A text block of a letter page at 150 DPI, on the second page. *)
Lemma pdf_rect_of_bbox_witness :
  let '(x0, y0, x1, y1) :=
    pdf_rect (block_of_bbox 1 (72, 100, 300, 114)%Q "Title" 12 "helv"
                (0, 0, 0)%Q 1670 (150 / 72)) in
  x0 == 72 /\ y0 == 100 /\ x1 == 300 /\ y1 == 114.
Proof.
  assert (Hsc : ~ 150 / 72 == 0) by (vm_compute; discriminate).
  exact (proj1 (pdf_rect_of_bbox 1 72 100 300 114 "Title" 12 "helv"
                  (0, 0, 0)%Q 1670 (150 / 72) 0 0 Hsc)).
Defined.

End ViewWitnesses.

Section ViewNbspExample.
Import View.
#[local] Existing Instance nbsp_text.

(** With a text item that gives a no-break space back as a space, a
    block whose original text holds one is still modified after "Restore
    Original", and [get_text_edits] reports it. *)
Example restore_keeps_nbsp_block_modified :
  get_text_edits (drag_block 0 (30, 0)%Q nbsp_view) = [0%nat]
  /\ get_text_edits (menu_restore 0 (drag_block 0 (30, 0)%Q nbsp_view))
     = [0%nat]
  /\ block_pos (menu_restore 0 (drag_block 0 (30, 0)%Q nbsp_view)) 0
     = Some (0, 0)%Q.
Proof. repeat split. Qed.

End ViewNbspExample.

Section TileProofs.
Import Tiles.
Open Scope Q_scope.

Lemma py_round_comp (x y : Q) : x == y -> py_round x = py_round y.
Proof.
  intros H. unfold py_round.
  rewrite (Qfloor_comp _ _ H).
  assert (E : x - inject_Z (Qfloor y) == y - inject_Z (Qfloor y))
    by (rewrite H; reflexivity).
  rewrite (Qcompare_comp _ _ E _ _ (Qeq_refl (1 # 2))). reflexivity.
Qed.

Lemma py_round1_comp (x y : Q) : x == y -> py_round1 x = py_round1 y.
Proof.
  intros H. unfold py_round1.
  rewrite (py_round_comp (x * 10) (y * 10)); [reflexivity |].
  rewrite H. reflexivity.
Qed.

Lemma zoom_bucket_comp (x y : Q) : x == y -> zoom_bucket x = zoom_bucket y.
Proof.
  intros H. unfold zoom_bucket. apply py_round1_comp.
  rewrite H. reflexivity.
Qed.

Lemma tile_scene_size_pos (s : state) : 0 < _tile_scene_size s.
Proof.
  unfold _tile_scene_size, TILE_PIXELS.
  apply Qlt_shift_div_l.
  - apply Qlt_le_trans with (1 # 10); [reflexivity | apply Q.le_max_r].
  - rewrite Qmult_0_l. reflexivity.
Qed.

Lemma zoom_bucket_state (s : state) :
  py_round1 (_tile_scene_size s) = zoom_bucket (zoom s).
Proof. reflexivity. Qed.

(** The matrix of a fresh render gives back the zoom, floored at 0.1. *)
Lemma fresh_rendered_zoom (s : state) :
  TILE_PIXELS * scale_base / _tile_scene_size s / scale_base
  == Qmax (zoom s) (1 # 10).
Proof.
  unfold _tile_scene_size, TILE_PIXELS, scale_base, dpi.
  assert (Hm : 0 < Qmax (zoom s) (1 # 10)).
  { apply Qlt_le_trans with (1 # 10); [reflexivity | apply Q.le_max_r]. }
  field.
  intros E. rewrite E in Hm. apply (Qlt_irrefl 0). exact Hm.
Qed.

Lemma cache_key_eqb_snd (a b : cache_key) :
  cache_key_eqb a b = true -> snd a == snd b.
Proof.
  destruct a as [[[p1 r1] c1] k1], b as [[[p2 r2] c2] k2]. simpl.
  intros H. apply andb_prop in H as [_ H]. by apply Qeq_bool_iff.
Qed.

Lemma od_get_In (k : cache_key) (d : odict) (v : pixmap) :
  od_get k d = Some v ->
  exists k', In (k', v) d /\ cache_key_eqb k k' = true.
Proof.
  induction d as [| [k' v'] d IH]; simpl; [discriminate |].
  destruct (cache_key_eqb k k') eqn:E.
  - intros [= <-]. exists k'. auto.
  - intros H. destruct (IH H) as (k'' & Hin & Hk). exists k''. auto.
Qed.

Lemma In_od_remove (k : cache_key) (d : odict) (e : cache_key * pixmap) :
  In e (od_remove k d) -> In e d.
Proof.
  induction d as [| [k' v'] d IH]; simpl; [tauto |].
  destruct (cache_key_eqb k k'); simpl; tauto.
Qed.

Lemma In_od_set (k : cache_key) (v : pixmap) (d : odict)
      (k' : cache_key) (v' : pixmap) :
  In (k', v') (od_set k v d) ->
  In (k', v') d \/ (v' = v /\ cache_key_eqb k k' = true).
Proof.
  induction d as [| [k0 v0] d IH]; simpl.
  - intros [[= <- <-] | []]. right. split; [reflexivity |].
    destruct k as [[[p r] c] q]. simpl.
    rewrite Nat.eqb_refl, !Z.eqb_refl. simpl. apply Qeq_bool_iff. reflexivity.
  - destruct (cache_key_eqb k k0) eqn:E; simpl.
    + intros [[= <- <-] | H]; auto.
    + intros [H | H]; auto. destruct (IH H); auto.
Qed.

Lemma In_od_move_to_end (k : cache_key) (d : odict)
      (k' : cache_key) (v' : pixmap) :
  In (k', v') (od_move_to_end k d) ->
  In (k', v') d \/ (k' = k /\ od_get k d = Some v').
Proof.
  unfold od_move_to_end. destruct (od_get k d) as [v |] eqn:E; [| auto].
  intros H. apply in_app_or in H as [H | [[= <- <-] | []]].
  - left. eapply In_od_remove; eauto.
  - right. auto.
Qed.

Lemma In_trim_loop (n : nat) (f : cache_key -> bool) (d : odict)
      (e : cache_key * pixmap) :
  In e (trim_loop n f d) -> In e d.
Proof.
  induction d as [| [k v] d IH]; [tauto |].
  cbn [trim_loop].
  destruct (n <? length ((k, v) :: d))%nat; [| tauto].
  destruct (f k); [tauto |]. intros H. right. auto.
Qed.

(** Eviction only drops entries from the old end, none of them
    protected. *)
Lemma trim_loop_drops_unprotected (n : nat) (f : cache_key -> bool)
      (d : odict) :
  exists dropped,
    d = dropped ++ trim_loop n f d
    /\ Forall (fun e => f (fst e) = false) dropped.
Proof.
  induction d as [| [k v] d IH].
  - exists []. split; [reflexivity | constructor].
  - cbn [trim_loop].
    destruct (n <? length ((k, v) :: d))%nat;
      [| exists []; split; [reflexivity | constructor]].
    destruct (f k) eqn:E; [exists []; split; [reflexivity | constructor] |].
    destruct IH as (dropped & Hd & Hall).
    exists ((k, v) :: dropped). split.
    + simpl. f_equal. exact Hd.
    + constructor; assumption.
Qed.

(** After the loop the cache fits, or its oldest entry is protected. *)
Lemma trim_loop_stops (n : nat) (f : cache_key -> bool) (d : odict) :
  (length (trim_loop n f d) <= n)%nat
  \/ exists k v rest, trim_loop n f d = (k, v) :: rest /\ f k = true.
Proof.
  induction d as [| [k v] d IH]; [left; simpl; lia |].
  cbn [trim_loop].
  destruct (Nat.ltb_spec n (length ((k, v) :: d))); [| left; assumption].
  destruct (f k) eqn:E; [| exact IH].
  right. exists k, v, d. auto.
Qed.

(** Splits a conjunction of four, leaving definitions folded. *)
Ltac split4 := split; [| split; [| split]].

Lemma cache_hit_bucket (s : state) (page : nat) (row col : Z) (px : pixmap) :
  cache_wf (tile_cache s) ->
  od_get (page, row, col, zoom_bucket (zoom s)) (tile_cache s) = Some px ->
  zoom_bucket (rendered_zoom px) == zoom_bucket (zoom s)
  /\ cache_wf (od_move_to_end (page, row, col, zoom_bucket (zoom s))
                (tile_cache s)).
Proof.
  intros Hwf Hget.
  destruct (od_get_In _ _ _ Hget) as (k' & Hin & Hk).
  apply cache_key_eqb_snd in Hk. cbn [snd] in Hk.
  destruct (Hwf k' px Hin) as [Hlo Hb].
  assert (Hpx : zoom_bucket (rendered_zoom px) == zoom_bucket (zoom s)).
  { rewrite <- Hb. symmetry. exact Hk. }
  split; [exact Hpx |].
  intros k v Hin'. apply In_od_move_to_end in Hin' as [Hold | [-> Hg]].
  - by apply Hwf.
  - rewrite Hget in Hg. injection Hg as <-.
    split; [exact Hlo |]. cbn [snd]. symmetry. exact Hpx.
Qed.

Lemma render_tile_inv (s : state) (page : nat) (row col : Z) :
  cache_wf (tile_cache s) ->
  zoom (_render_tile page row col s) = zoom s
  /\ tile_generation (_render_tile page row col s) = tile_generation s
  /\ cache_wf (tile_cache (_render_tile page row col s))
  /\ forall key px,
       tile_items (_render_tile page row col s) !! key = Some px ->
       tile_items s !! key = Some px
       \/ zoom_bucket (rendered_zoom px) == zoom_bucket (zoom s).
Proof.
  intros Hwf. unfold _render_tile.
  destruct (page_widths s !! page) as [pw |]; [| split4; auto].
  destruct (page_heights s !! page) as [ph |]; [| split4; auto].
  match goal with |- context [if ?c then _ else _] => destruct c end;
    [split4; auto |].
  set (ts := _tile_scene_size s).
  set (px0 := {| px_page := page; px_clip := _; px_mat_scale := _ |}).
  assert (Hrz : rendered_zoom px0 == Qmax (zoom s) (1 # 10)).
  { unfold rendered_zoom, px0, ts. cbn [px_mat_scale].
    apply fresh_rendered_zoom. }
  assert (Hlo : 1 # 10 <= rendered_zoom px0).
  { rewrite Hrz. apply Q.le_max_r. }
  assert (Hb : zoom_bucket (rendered_zoom px0) = zoom_bucket (zoom s)).
  { unfold zoom_bucket. apply py_round1_comp.
    rewrite Hrz.
    rewrite (Q.max_l (Qmax (zoom s) (1 # 10)) (1 # 10))
      by apply Q.le_max_r.
    reflexivity. }
  cbn [_add_tile_to_scene set_tile_items set_tile_cache zoom tile_generation
       tile_cache tile_items].
  split4; [reflexivity | reflexivity | |].
  - intros ck v Hin.
    apply In_od_move_to_end in Hin as [Hin | [-> Hg]].
    + apply In_od_set in Hin as [Hin | [-> Hk]]; [by apply Hwf |].
      split; [exact Hlo |].
      apply cache_key_eqb_snd in Hk. cbn [snd] in Hk.
      rewrite <- Hk, Hb. reflexivity.
    + apply od_get_In in Hg as (k' & Hin & Hk).
      apply In_od_set in Hin as [Hin | [-> _]].
      * destruct (Hwf k' v Hin) as [Hlo' Hb']. split; [exact Hlo' |].
        apply cache_key_eqb_snd in Hk. rewrite Hk. exact Hb'.
      * split; [exact Hlo |]. cbn [snd]. rewrite Hb. reflexivity.
  - intros key px Hl.
    destruct (decide ((page, row, col) = key)) as [<- | Hne].
    + rewrite lookup_insert_eq in Hl. injection Hl as <-.
      right. rewrite Hb. reflexivity.
    + rewrite lookup_insert_ne in Hl by exact Hne. auto.
Qed.

Lemma render_missing_inv (g : Z) (keys : list tile_key) (s s' : state)
      (b : bool) :
  render_missing g (zoom_bucket (zoom s)) keys s = (s', b) ->
  cache_wf (tile_cache s) ->
  zoom s' = zoom s
  /\ tile_generation s' = tile_generation s
  /\ cache_wf (tile_cache s')
  /\ placed_ok s (zoom s) (tile_items s').
Proof.
  revert s. induction keys as [| [[page row] col] keys IH]; intros s Hrun Hwf.
  - cbn in Hrun. injection Hrun as <- <-.
    split4; [reflexivity | reflexivity | exact Hwf |].
    intros key px H. auto.
  - cbn [render_missing] in Hrun.
    destruct (negb (tile_generation s =? g)%Z).
    { injection Hrun as <- <-.
      split4; [reflexivity | reflexivity | exact Hwf |].
      intros key px H. auto. }
    set (s1 := match od_get _ (tile_cache s) with
               | Some cached => _ | None => _ end) in Hrun.
    assert (Hs1 : zoom s1 = zoom s
                  /\ tile_generation s1 = tile_generation s
                  /\ cache_wf (tile_cache s1)
                  /\ placed_ok s (zoom s) (tile_items s1)).
    { unfold s1.
      destruct (od_get (page, row, col, zoom_bucket (zoom s)) (tile_cache s))
        as [cached |] eqn:Hget.
      - destruct (cache_hit_bucket s page row col cached Hwf Hget)
          as [Hpx Hwf'].
        cbn [_add_tile_to_scene set_tile_items set_tile_cache zoom
             tile_generation tile_cache tile_items].
        split4; [reflexivity | reflexivity | exact Hwf' |].
        intros key px Hl.
        destruct (decide ((page, row, col) = key)) as [<- | Hne].
        + rewrite lookup_insert_eq in Hl. injection Hl as <-. auto.
        + rewrite lookup_insert_ne in Hl by exact Hne. auto.
      - destruct (render_tile_inv s page row col Hwf) as (? & ? & ? & Hp).
        split4; assumption. }
    destruct Hs1 as (Hz1 & Hg1 & Hwf1 & Hp1).
    rewrite <- Hz1 in Hrun.
    destruct (IH s1 Hrun Hwf1) as (Hz & Hg & Hwf' & Hp).
    split4; [congruence | congruence | exact Hwf' |].
    intros key px Hl. destruct (Hp key px Hl) as [Hold | Hnew].
    + apply Hp1. exact Hold.
    + right. rewrite Hnew, Hz1. reflexivity.
Qed.

Lemma render_missing_inv_at (g : Z) (z : Q) (keys : list tile_key)
      (s s' : state) (b : bool) :
  zoom s = z ->
  render_missing g (zoom_bucket z) keys s = (s', b) ->
  cache_wf (tile_cache s) ->
  zoom s' = zoom s
  /\ tile_generation s' = tile_generation s
  /\ cache_wf (tile_cache s')
  /\ placed_ok s (zoom s) (tile_items s').
Proof. intros <-. apply render_missing_inv. Qed.

(** The generation test: once the current generation differs from the
    captured one, the loop stops before touching the next tile. *)
Lemma render_missing_abort (g : Z) (ts_key : Q) (key : tile_key)
      (keys : list tile_key) (s : state) :
  tile_generation s <> g ->
  render_missing g ts_key (key :: keys) s = (s, false).
Proof.
  intros Hne. destruct key as [[page row] col]. cbn [render_missing].
  destruct (Z.eqb_spec (tile_generation s) g); [contradiction | reflexivity].
Qed.

Lemma remove_tiles_inv (keys : list tile_key) (s : state) :
  let s' := fold_left (fun st key => _remove_tile_from_scene key st) keys s in
  zoom s' = zoom s
  /\ tile_generation s' = tile_generation s
  /\ tile_cache s' = tile_cache s
  /\ forall key px, tile_items s' !! key = Some px ->
                    tile_items s !! key = Some px.
Proof.
  revert s. induction keys as [| k keys IH]; intros s; cbn [fold_left].
  - auto.
  - destruct (IH (_remove_tile_from_scene k s)) as (Hz & Hg & Hc & Hi).
    split4; [exact Hz | exact Hg | exact Hc |].
    intros key px Hl. apply Hi in Hl.
    cbn [_remove_tile_from_scene set_tile_items tile_items] in Hl.
    apply lookup_delete_Some in Hl as [_ Hl]. exact Hl.
Qed.

(** C1, as the spec words it, fails: scrolling the top-left tile back
    into view at zoom 4.7 places the pixels that were rendered at zoom
    4.70016.  Both zooms round to the tile size 108.9, so the cache key is
    the same, the tile grid did not change by more than 0.05 and the
    generation was not bumped. *)
Lemma stale_zoom_tile_placed :
  zoom zoomed_twice == 47 # 10
  /\ tile_items zoomed_twice !! top_left = None
  /\ exists px,
       tile_items (_ensure_visible_tiles {[top_left]} zoomed_twice)
         !! top_left = Some px
       /\ rendered_zoom px == 470016 # 100000
       /\ ~ rendered_zoom px
            == zoom (_ensure_visible_tiles {[top_left]} zoomed_twice).
Proof.
  split; [vm_compute; reflexivity |].
  split; [vm_compute; reflexivity |].
  eexists. split; [vm_compute; reflexivity |].
  split; [vm_compute; reflexivity |].
  vm_compute. discriminate.
Qed.

Lemma ensure_visible_tiles_inv (visible : gset tile_key) (s : state)
    (Hwf : cache_wf (tile_cache s)) :
  let s' := _ensure_visible_tiles visible s in
  tile_generation s' = tile_generation s
  /\ zoom s' = zoom s
  /\ cache_wf (tile_cache s')
  /\ (forall key px, tile_items s' !! key = Some px ->
        tile_items s !! key = Some px
        \/ zoom_bucket (rendered_zoom px) == zoom_bucket (zoom s)).
Proof.
  intros s'. subst s'.
  split; [| split; [| split]].
  all: unfold _ensure_visible_tiles; cbv zeta.
  all: destruct (negb (has_doc s) || negb (has_scene s));
    [first [reflexivity | exact Hwf | by auto] |].
  all: set (s1 := if negb _ then _ else s).
  all: assert (Hs1 : zoom s1 = zoom s
                     /\ tile_generation s1 = tile_generation s
                     /\ tile_cache s1 = tile_cache s
                     /\ forall key px, tile_items s1 !! key = Some px ->
                                       tile_items s !! key = Some px)
    by (unfold s1;
        destruct (negb (Qle_bool (py_abs (_tile_scene_size s
                                          - current_tile_ss s)) (5 # 100)));
        split4; try reflexivity; try (by auto);
        intros key px Hl; cbn in Hl; by rewrite lookup_empty in Hl).
  all: destruct Hs1 as (Hz1 & Hg1 & Hc1 & Hi1).
  all: assert (Hwf1 : cache_wf (tile_cache s1)) by (rewrite Hc1; exact Hwf).
  all: change (py_round1 (_tile_scene_size s)) with (zoom_bucket (zoom s)).
  all: destruct (render_missing (tile_generation s) (zoom_bucket (zoom s))
                   (elements (visible ∖ dom (tile_items s1))) s1)
         as [s2 b] eqn:Hrun.
  all: destruct (render_missing_inv_at _ _ _ _ _ _ Hz1 Hrun Hwf1)
         as (Hz2 & Hg2 & Hwf2 & Hp2).
  all: pose proof (remove_tiles_inv
                     (elements (dom (tile_items s1) ∖ visible)) s2)
         as (Hz3 & Hg3 & Hc3 & Hi3).
  all: destruct b; cbn [_trim_tile_cache set_tile_cache tile_generation zoom
                        tile_cache tile_items].
  - congruence.
  - congruence.
  - congruence.
  - congruence.
  - intros k v Hin. apply In_trim_loop in Hin. rewrite Hc3 in Hin.
    by apply Hwf2.
  - exact Hwf2.
  - intros key px Hl. apply Hi3 in Hl.
    destruct (Hp2 key px Hl) as [Hold | Hnew]; [left; by apply Hi1 |].
    right. rewrite Hnew, Hz1. reflexivity.
  - intros key px Hl.
    destruct (Hp2 key px Hl) as [Hold | Hnew]; [left; by apply Hi1 |].
    right. rewrite Hnew, Hz1. reflexivity.
Qed.

(** Every state that the viewport events reach from a fresh layout has a
    well-formed cache. *)
Lemma run_cache_wf (events : list event) (s : state) :
  cache_wf (tile_cache s) -> cache_wf (tile_cache (run events s)).
Proof.
  unfold run. revert s.
  induction events as [| e events IH]; intros s Hwf; cbn [fold_left];
    [exact Hwf |].
  apply IH. destruct e; cbn [handle set_zoom_field tile_cache];
    try exact Hwf.
  - by apply ensure_visible_tiles_inv.
  - unfold _rerender_for_zoom.
    destruct (negb (has_doc s) || negb (has_scene s)); [exact Hwf |].
    destruct (negb (Qle_bool (5 # 100)
                      (py_abs (_tile_scene_size s - current_tile_ss s))));
      [exact Hwf |].
    by apply ensure_visible_tiles_inv.
Qed.

Lemma zoomed_twice_cache_wf : cache_wf (tile_cache zoomed_twice).
Proof. apply run_cache_wf. intros k px []. Qed.

(** C2, failing input: after the three passes of [scrolled_down] the
    cache holds 221 tiles against a capacity of 200.  Its least recently
    used entry is the middle tile, which is in view, so the loop of
    [_trim_tile_cache] stops at once, in the pass and in any further call:
    the 104 cached tiles of rows 0..7 stay, though none of them is in view
    or protected. *)
Theorem trim_stops_at_protected_oldest :
  let visible := rows_of_tiles [8; 9; 10; 11; 12; 13; 14; 15; 16]%Z in
  tile_cache_max scrolled_down = 200%nat
  /\ length (tile_cache scrolled_down) = 221%nat
  /\ fst <$> head (tile_cache scrolled_down)
     = Some (0%nat, 8%Z, 6%Z, 1024 # 10)
  /\ middle_tile ∈ visible
  /\ length (tile_cache (_trim_tile_cache visible scrolled_down)) = 221%nat
  /\ length (unprotected visible (_trim_tile_cache visible scrolled_down))
     = 104%nat.
Proof.
  cbv zeta. split; [reflexivity |]. split; [vm_compute; reflexivity |].
  split; [vm_compute; reflexivity |].
  split; [apply (bool_decide_unpack _); vm_compute; exact I |].
  split; vm_compute; reflexivity.
Qed.

(** What [_trim_tile_cache] does guarantee: the entries it drops are the
    oldest ones and none of them is protected, and it stops with the
    cache within capacity or with a protected entry as the oldest. *)
Lemma trim_tile_cache_guarantee (visible : gset tile_key) (s : state) :
  let f := in_visible_cache visible (py_round1 (_tile_scene_size s)) in
  let s' := _trim_tile_cache visible s in
  (exists dropped,
      tile_cache s = dropped ++ tile_cache s'
      /\ Forall (fun e => f (fst e) = false) dropped)
  /\ ((length (tile_cache s') <= tile_cache_max s)%nat
      \/ exists k v rest, tile_cache s' = (k, v) :: rest /\ f k = true).
Proof.
  intros f s'. split.
  - apply trim_loop_drops_unprotected.
  - apply trim_loop_stops.
Qed.

End TileProofs.

Section TileScheduleProofs.
Import Tiles.
Open Scope Q_scope.

Lemma add_tile_frame (page : nat) (row col : Z) (px : pixmap) (s : state) :
  let s' := _add_tile_to_scene page row col px s in
  zoom s' = zoom s /\ page_widths s' = page_widths s
  /\ page_heights s' = page_heights s
  /\ tile_generation s' = tile_generation s.
Proof. cbn. auto. Qed.

Lemma render_tile_frame (page : nat) (row col : Z) (s : state) :
  let s' := _render_tile page row col s in
  zoom s' = zoom s /\ page_widths s' = page_widths s
  /\ page_heights s' = page_heights s
  /\ tile_generation s' = tile_generation s.
Proof.
  cbv zeta. unfold _render_tile.
  destruct (page_widths s !! page); [| by auto].
  destruct (page_heights s !! page); [| by auto].
  match goal with |- context [if ?c then _ else _] => destruct c end;
    cbn; auto.
Qed.

(** On a tile that starts inside its page [_render_tile] does not take
    the early return: the tile is placed. *)
Lemma render_tile_places (page : nat) (row col : Z) (s : state) :
  on_page s (page, row, col) ->
  is_Some (tile_items (_render_tile page row col s) !! (page, row, col)).
Proof.
  intros (pw & ph & Hw & Hh & Hc & Hr). unfold _render_tile.
  rewrite Hw, Hh.
  pose proof (tile_scene_size_pos s) as Hts.
  assert (Hc' : 0 < inject_Z pw - inject_Z col * _tile_scene_size s)
    by (unfold Qminus; by rewrite <- Qlt_minus_iff).
  assert (Hr' : 0 < inject_Z ph - inject_Z row * _tile_scene_size s)
    by (unfold Qminus; by rewrite <- Qlt_minus_iff).
  assert (Htw : Qle_bool (Qmin (_tile_scene_size s)
                            (inject_Z pw - inject_Z col * _tile_scene_size s))
                  0 = false).
  { apply not_true_is_false. intros E. apply Qle_bool_iff in E.
    apply (Qlt_not_le _ _ (Q.min_glb_lt _ _ 0 Hts Hc')). exact E. }
  assert (Hth : Qle_bool (Qmin (_tile_scene_size s)
                            (inject_Z ph - inject_Z row * _tile_scene_size s))
                  0 = false).
  { apply not_true_is_false. intros E. apply Qle_bool_iff in E.
    apply (Qlt_not_le _ _ (Q.min_glb_lt _ _ 0 Hts Hr')). exact E. }
  rewrite Htw, Hth. cbn [orb _add_tile_to_scene set_tile_items tile_items].
  rewrite lookup_insert_eq. eauto.
Qed.

Lemma place_missing_frame (ts_key : Q) (key : tile_key) (s : state) :
  let s' := place_missing ts_key key s in
  zoom s' = zoom s /\ page_widths s' = page_widths s
  /\ page_heights s' = page_heights s
  /\ tile_generation s' = tile_generation s.
Proof.
  destruct key as [[page row] col]. cbv zeta. unfold place_missing.
  destruct (od_get _ _); [cbn; auto | apply render_tile_frame].
Qed.

Lemma on_page_frame (s s' : state) (key : tile_key) :
  zoom s' = zoom s -> page_widths s' = page_widths s ->
  page_heights s' = page_heights s ->
  on_page s key -> on_page s' key.
Proof.
  intros Hz Hw Hh. destruct key as [[page row] col].
  unfold on_page, _tile_scene_size. rewrite Hz, Hw, Hh. auto.
Qed.

Lemma render_tile_items (page : nat) (row col : Z) (s : state)
      (key : tile_key) :
  key <> (page, row, col) ->
  tile_items (_render_tile page row col s) !! key = tile_items s !! key.
Proof.
  intros Hne. unfold _render_tile.
  destruct (page_widths s !! page); [| reflexivity].
  destruct (page_heights s !! page); [| reflexivity].
  match goal with |- context [if ?c then _ else _] => destruct c end;
    [reflexivity |].
  cbn [_add_tile_to_scene set_tile_items set_tile_cache tile_items].
  by rewrite lookup_insert_ne.
Qed.

Lemma render_tile_keeps (page : nat) (row col : Z) (s : state)
      (key : tile_key) :
  is_Some (tile_items s !! key) ->
  is_Some (tile_items (_render_tile page row col s) !! key).
Proof.
  intros H. destruct (decide (key = (page, row, col))) as [-> | Hne].
  - unfold _render_tile.
    destruct (page_widths s !! page); [| exact H].
    destruct (page_heights s !! page); [| exact H].
    match goal with |- context [if ?c then _ else _] => destruct c end;
      [exact H |].
    cbn [_add_tile_to_scene set_tile_items set_tile_cache tile_items].
    rewrite lookup_insert_eq. eauto.
  - by rewrite render_tile_items.
Qed.

Lemma place_missing_items (ts_key : Q) (k key : tile_key) (s : state) :
  key <> k ->
  tile_items (place_missing ts_key k s) !! key = tile_items s !! key.
Proof.
  destruct k as [[page row] col]. intros Hne. unfold place_missing.
  destruct (od_get _ _); [| by apply render_tile_items].
  cbn [_add_tile_to_scene set_tile_items set_tile_cache tile_items].
  by rewrite lookup_insert_ne.
Qed.

Lemma place_missing_keeps (ts_key : Q) (k key : tile_key) (s : state) :
  is_Some (tile_items s !! key) ->
  is_Some (tile_items (place_missing ts_key k s) !! key).
Proof.
  destruct k as [[page row] col]. intros H. unfold place_missing.
  destruct (od_get _ _); [| by apply render_tile_keeps].
  cbn [_add_tile_to_scene set_tile_items set_tile_cache tile_items].
  destruct (decide (key = (page, row, col))) as [-> | Hne].
  - rewrite lookup_insert_eq. eauto.
  - by rewrite lookup_insert_ne.
Qed.

Lemma place_missing_places (ts_key : Q) (k : tile_key) (s : state) :
  on_page s k -> is_Some (tile_items (place_missing ts_key k s) !! k).
Proof.
  destruct k as [[page row] col]. intros H. unfold place_missing.
  destruct (od_get _ _); [| by apply render_tile_places].
  cbn [_add_tile_to_scene set_tile_items set_tile_cache tile_items].
  rewrite lookup_insert_eq. eauto.
Qed.

Lemma render_missing_unfold (g : Z) (ts_key : Q) (key : tile_key)
      (keys : list tile_key) (s : state) :
  tile_generation s = g ->
  render_missing g ts_key (key :: keys) s
  = render_missing g ts_key keys (place_missing ts_key key s).
Proof.
  intros Hg. destruct key as [[page row] col].
  cbn [render_missing place_missing].
  rewrite Hg, Z.eqb_refl. reflexivity.
Qed.

(** With the generation unchanged the loop runs to its end, places every
    missing tile that starts inside its page, keeps what was placed and
    places nothing else. *)
Lemma render_missing_run (g : Z) (ts_key : Q) (keys : list tile_key)
      (s : state) :
  tile_generation s = g ->
  let r := render_missing g ts_key keys s in
  snd r = true
  /\ zoom (fst r) = zoom s
  /\ (forall key, is_Some (tile_items s !! key) ->
                  is_Some (tile_items (fst r) !! key))
  /\ (forall key, In key keys -> on_page s key ->
                  is_Some (tile_items (fst r) !! key))
  /\ (forall key, is_Some (tile_items (fst r) !! key) ->
                  is_Some (tile_items s !! key) \/ In key keys).
Proof.
  revert s. induction keys as [| k keys IH]; intros s Hg; cbv zeta.
  - cbn. repeat split; auto. intros key [].
  - rewrite (render_missing_unfold _ _ _ _ _ Hg).
    destruct (place_missing_frame ts_key k s) as (Hz & Hw & Hh & Hg').
    specialize (IH (place_missing ts_key k s) ltac:(congruence)).
    cbv zeta in IH. destruct IH as (Hb & Hz' & Hkeep & Hplace & Hdom).
    split; [exact Hb |]. split; [congruence |]. split; [| split].
    + intros key H. apply Hkeep. by apply place_missing_keeps.
    + intros key [<- | Hin] Hon.
      * apply Hkeep. by apply place_missing_places.
      * apply Hplace; [exact Hin |]. by eapply on_page_frame.
    + intros key H. destruct (Hdom key H) as [H' | Hin]; [| right; by right].
      destruct (decide (key = k)) as [-> | Hne]; [right; by left |].
      left. by rewrite place_missing_items in H'.
Qed.

Lemma remove_tiles_lookup (keys : list tile_key) (s : state)
      (key : tile_key) :
  tile_items (fold_left (fun st k => _remove_tile_from_scene k st) keys s)
    !! key
  = if decide (key ∈ keys) then None else tile_items s !! key.
Proof.
  revert s. induction keys as [| k keys IH]; intros s; cbn [fold_left].
  - destruct (decide (key ∈ [])) as [H | _]; [by apply not_elem_of_nil in H |].
    reflexivity.
  - rewrite IH. cbn [_remove_tile_from_scene set_tile_items tile_items].
    destruct (decide (key ∈ keys)) as [Hin | Hnin].
    + rewrite decide_True; [reflexivity | by right].
    + destruct (decide (key = k)) as [-> | Hne].
      * rewrite lookup_delete_eq. rewrite decide_True; [reflexivity | by left].
      * rewrite lookup_delete_ne by congruence.
        rewrite decide_False; [reflexivity |].
        intros H. apply elem_of_cons in H as [? | ?]; contradiction.
Qed.

Lemma ensure_visible_tiles_dom (visible : gset tile_key)
      (s : state) (Hdoc : has_doc s = true) (Hscene : has_scene s = true) :
  let s' := _ensure_visible_tiles visible s in
  (forall key, is_Some (tile_items s' !! key) -> key ∈ visible)
  /\ (forall key, key ∈ visible -> on_page s key ->
                  is_Some (tile_items s' !! key)).
Proof.
  cbv zeta. unfold _ensure_visible_tiles. rewrite Hdoc, Hscene.
  cbn [negb orb]. cbv zeta.
  set (s1 := if negb _ then _ else s).
  assert (Hs1 : zoom s1 = zoom s /\ page_widths s1 = page_widths s
                /\ page_heights s1 = page_heights s
                /\ tile_generation s1 = tile_generation s).
  { unfold s1. match goal with |- context [if ?c then _ else _] =>
                 destruct c end; cbn; auto. }
  destruct Hs1 as (Hz1 & Hw1 & Hh1 & Hg1).
  pose proof (render_missing_run (tile_generation s)
                (py_round1 (_tile_scene_size s))
                (elements (visible ∖ dom (tile_items s1))) s1 Hg1) as Hrun.
  cbv zeta in Hrun.
  destruct (render_missing (tile_generation s)
              (py_round1 (_tile_scene_size s))
              (elements (visible ∖ dom (tile_items s1))) s1) as [s2 b].
  cbn [fst snd] in Hrun. destruct Hrun as (-> & Hz2 & Hkeep & Hplace & Hdom).
  cbn [_trim_tile_cache set_tile_cache tile_items].
  split.
  - intros key H. rewrite remove_tiles_lookup in H.
    destruct (decide (key ∈ elements (dom (tile_items s1) ∖ visible)))
      as [Hin | Hnin]; [by destruct H |].
    rewrite elem_of_elements, elem_of_difference in Hnin.
    destruct (Hdom key H) as [H1 | Hin].
    + apply elem_of_dom in H1. destruct (decide (key ∈ visible)); tauto.
    + apply list_elem_of_In, elem_of_elements, elem_of_difference in Hin.
      tauto.
  - intros key Hv Hon. rewrite remove_tiles_lookup.
    rewrite decide_False
      by (rewrite elem_of_elements, elem_of_difference; tauto).
    destruct (decide (key ∈ dom (tile_items s1))) as [Hin | Hnin].
    + apply Hkeep. by apply elem_of_dom.
    + apply Hplace.
      * apply list_elem_of_In, elem_of_elements, elem_of_difference. tauto.
      * by apply (on_page_frame s s1).
Qed.

(** After a pass of [_ensure_visible_tiles] on an open document, only
    tiles of the visible set are in the scene, and every visible tile
    that starts inside its page is in the scene. *)
Theorem ensure_visible_tiles_places_visible (visible : gset tile_key)
    (s : state) (Hdoc : has_doc s = true) (Hscene : has_scene s = true) :
  let s' := _ensure_visible_tiles visible s in
  (forall key, is_Some (tile_items s' !! key) -> key ∈ visible)
  /\ (forall key, key ∈ visible -> on_page s key ->
                  is_Some (tile_items s' !! key)).
Proof. by apply ensure_visible_tiles_dom. Qed.

(** Scrolling the letter page from its top to its middle: the tile of
    row 0 leaves the scene, the tile of row 2 is in it. *)
Lemma ensure_visible_tiles_places_visible_witness :
  let s := _ensure_visible_tiles {[(0%nat, 0%Z, 0%Z)]} letter_page in
  let s' := _ensure_visible_tiles {[(0%nat, 2%Z, 0%Z)]} s in
  is_Some (tile_items s !! (0%nat, 0%Z, 0%Z))
  /\ tile_items s' !! (0%nat, 0%Z, 0%Z) = None
  /\ is_Some (tile_items s' !! (0%nat, 2%Z, 0%Z)).
Proof.
  cbv zeta.
  set (s := _ensure_visible_tiles {[(0%nat, 0%Z, 0%Z)]} letter_page).
  assert (Hs : is_Some (tile_items s !! (0%nat, 0%Z, 0%Z))).
  { apply (ensure_visible_tiles_places_visible {[(0%nat, 0%Z, 0%Z)]}
             letter_page eq_refl eq_refl); [set_solver |].
    exists 1275%Z, 1650%Z. repeat split; vm_compute; reflexivity. }
  split; [exact Hs |].
  destruct (ensure_visible_tiles_places_visible {[(0%nat, 2%Z, 0%Z)]} s
              eq_refl eq_refl) as [Honly Hall].
  split.
  - apply eq_None_not_Some. intros H. apply Honly in H.
    apply elem_of_singleton in H. discriminate.
  - apply Hall; [set_solver |].
    exists 1275%Z, 1650%Z. repeat split; vm_compute; reflexivity.
Defined.

(** The pixel budget of a tile: the clip rectangle times the render
    matrix is at most 512 x 512 px, and not empty. *)
Theorem render_tile_pixel_budget (page : nat) (row col : Z) (s : state)
    (Hon : on_page s (page, row, col)) :
  exists px,
    tile_items (_render_tile page row col s) !! (page, row, col) = Some px
    /\ px_page px = page
    /\ (let '(x0, y0, x1, y1) := px_clip px in
        0 < (x1 - x0) * px_mat_scale px <= TILE_PIXELS
        /\ 0 < (y1 - y0) * px_mat_scale px <= TILE_PIXELS).
Proof.
  destruct Hon as (pw & ph & Hw & Hh & Hc & Hr). unfold _render_tile.
  rewrite Hw, Hh.
  pose proof (tile_scene_size_pos s) as Hts.
  set (ts := _tile_scene_size s) in *.
  assert (Hc' : 0 < inject_Z pw - inject_Z col * ts)
    by (unfold Qminus; by rewrite <- Qlt_minus_iff).
  assert (Hr' : 0 < inject_Z ph - inject_Z row * ts)
    by (unfold Qminus; by rewrite <- Qlt_minus_iff).
  set (tw := Qmin ts (inject_Z pw - inject_Z col * ts)).
  set (th := Qmin ts (inject_Z ph - inject_Z row * ts)).
  assert (Htw : 0 < tw) by (by apply Q.min_glb_lt).
  assert (Hth : 0 < th) by (by apply Q.min_glb_lt).
  assert (Htw' : tw <= ts) by apply Q.le_min_l.
  assert (Hth' : th <= ts) by apply Q.le_min_l.
  assert (Eb : forall t, 0 < t -> Qle_bool t 0 = false).
  { intros t Ht. apply not_true_is_false. intros E. apply Qle_bool_iff in E.
    by apply (Qlt_not_le _ _ Ht). }
  rewrite (Eb tw Htw), (Eb th Hth). cbn [orb].
  eexists. split.
  { cbn [_add_tile_to_scene set_tile_items tile_items].
    apply lookup_insert_eq. }
  split; [reflexivity |]. cbn [px_clip px_mat_scale].
  assert (Hne : ~ ts == 0)
    by (intros E; rewrite E in Hts; by apply (Qlt_irrefl 0)).
  assert (Ex : forall a t, ((a + t) / scale_base - a / scale_base)
                           * (TILE_PIXELS * scale_base / ts)
                           == TILE_PIXELS * (t / ts)).
  { intros a t. unfold scale_base, dpi, TILE_PIXELS. field. exact Hne. }
  assert (Hfrac : forall t, 0 < t -> t <= ts ->
                            0 < TILE_PIXELS * (t / ts) <= TILE_PIXELS).
  { intros t Ht Hle. unfold TILE_PIXELS.
    assert (0 < t / ts) by (apply Qlt_shift_div_l; lra).
    assert (t / ts <= 1) by (apply Qle_shift_div_r; lra).
    split; lra. }
  split; rewrite Ex; by apply Hfrac.
Qed.

Lemma render_tile_pixel_budget_witness :
  exists px,
    tile_items (_render_tile 0 3 2 letter_page) !! (0%nat, 3%Z, 2%Z) = Some px
    /\ px_page px = 0%nat
    /\ (let '(x0, y0, x1, y1) := px_clip px in
        0 < (x1 - x0) * px_mat_scale px <= TILE_PIXELS
        /\ 0 < (y1 - y0) * px_mat_scale px <= TILE_PIXELS).
Proof.
  apply (render_tile_pixel_budget 0 3 2 letter_page).
  exists 1275%Z, 1650%Z. repeat split; vm_compute; reflexivity.
Defined.

Lemma place_missing_marker (ts_key : Q) (key : tile_key) (s : state) :
  current_tile_ss (place_missing ts_key key s) = current_tile_ss s.
Proof.
  destruct key as [[page row] col]. unfold place_missing.
  destruct (od_get _ _); [reflexivity |].
  unfold _render_tile.
  destruct (page_widths s !! page); [| reflexivity].
  destruct (page_heights s !! page); [| reflexivity].
  match goal with |- context [if ?c then _ else _] => destruct c end;
    reflexivity.
Qed.

Lemma render_missing_frame (g : Z) (ts_key : Q) (keys : list tile_key)
      (s : state) :
  let s' := fst (render_missing g ts_key keys s) in
  zoom s' = zoom s /\ tile_generation s' = tile_generation s
  /\ current_tile_ss s' = current_tile_ss s.
Proof.
  revert s. induction keys as [| k keys IH]; intros s; cbv zeta;
    [cbn; auto |].
  destruct (Z.eq_dec (tile_generation s) g) as [Hg | Hg].
  - rewrite (render_missing_unfold _ _ _ _ _ Hg).
    destruct (IH (place_missing ts_key k s)) as (Hz & Hgen & Hss).
    destruct (place_missing_frame ts_key k s) as (? & _ & _ & ?).
    rewrite Hz, Hgen, Hss, place_missing_marker. auto.
  - rewrite render_missing_abort by exact Hg. cbn. auto.
Qed.

Lemma remove_tiles_frame (keys : list tile_key) (s : state) :
  let s' := fold_left (fun st k => _remove_tile_from_scene k st) keys s in
  zoom s' = zoom s /\ tile_generation s' = tile_generation s
  /\ current_tile_ss s' = current_tile_ss s.
Proof.
  revert s. induction keys as [| k keys IH]; intros s; cbn [fold_left];
    [auto |].
  destruct (IH (_remove_tile_from_scene k s)) as (-> & -> & ->). cbn. auto.
Qed.

(** What a pass does to the zoom, the generation and the grid marker. *)
Lemma ensure_visible_tiles_frame (visible : gset tile_key) (s : state) :
  has_doc s = true -> has_scene s = true ->
  let ts := _tile_scene_size s in
  let s' := _ensure_visible_tiles visible s in
  zoom s' = zoom s /\ tile_generation s' = tile_generation s
  /\ current_tile_ss s'
     = (if negb (Qle_bool (py_abs (ts - current_tile_ss s)) (5 # 100))
        then ts else current_tile_ss s).
Proof.
  intros Hdoc Hscene. cbv zeta. unfold _ensure_visible_tiles.
  rewrite Hdoc, Hscene. cbn [negb orb]. cbv zeta.
  set (s1 := if negb _ then _ else s).
  assert (Hs1 : zoom s1 = zoom s /\ tile_generation s1 = tile_generation s
                /\ current_tile_ss s1
                   = (if negb (Qle_bool (py_abs (_tile_scene_size s
                                                 - current_tile_ss s))
                                 (5 # 100))
                      then _tile_scene_size s else current_tile_ss s)).
  { unfold s1. match goal with |- context [if ?c then _ else _] =>
                 destruct c end; cbn; auto. }
  destruct Hs1 as (Hz1 & Hg1 & Hss1).
  pose proof (render_missing_frame (tile_generation s)
                (py_round1 (_tile_scene_size s))
                (elements (visible ∖ dom (tile_items s1))) s1) as Hf.
  cbv zeta in Hf.
  destruct (render_missing (tile_generation s)
              (py_round1 (_tile_scene_size s))
              (elements (visible ∖ dom (tile_items s1))) s1) as [s2 b].
  cbn [fst] in Hf. destruct Hf as (Hz2 & Hg2 & Hss2).
  destruct b.
  - destruct (remove_tiles_frame (elements (dom (tile_items s1) ∖ visible))
                s2) as (Hz3 & Hg3 & Hss3).
    cbn [_trim_tile_cache set_tile_cache zoom tile_generation
         current_tile_ss].
    rewrite Hz3, Hg3, Hss3, Hz2, Hg2, Hss2. auto.
  - rewrite Hz2, Hg2, Hss2. auto.
Qed.

(** After a pass on an open document the grid marker [_current_tile_ss]
    is within 0.05 of the tile size of the current zoom. *)
Theorem grid_marker_after_pass (visible : gset tile_key) (s : state)
    (Hdoc : has_doc s = true) (Hscene : has_scene s = true) :
  let s' := _ensure_visible_tiles visible s in
  Qabs (_tile_scene_size s' - current_tile_ss s') <= 5 # 100.
Proof.
  cbv zeta.
  destruct (ensure_visible_tiles_frame visible s Hdoc Hscene)
    as (Hz & _ & Hss). cbv zeta in Hss.
  assert (Hts : _tile_scene_size (_ensure_visible_tiles visible s)
                = _tile_scene_size s)
    by (unfold _tile_scene_size; by rewrite Hz).
  rewrite Hts, Hss.
  destruct (Qle_bool (py_abs (_tile_scene_size s - current_tile_ss s))
              (5 # 100)) eqn:E; cbn [negb].
  - by apply Qle_bool_iff in E.
  - assert (E0 : _tile_scene_size s - _tile_scene_size s == 0) by ring.
    rewrite E0. vm_compute. discriminate.
Qed.

(** A fresh layout has the marker 0.0; after the first pass it is the
    tile size 512 of zoom 1. *)
Lemma grid_marker_after_pass_witness :
  Qabs (_tile_scene_size (_ensure_visible_tiles ∅ letter_page)
        - current_tile_ss (_ensure_visible_tiles ∅ letter_page)) <= 5 # 100.
Proof. apply (grid_marker_after_pass ∅ letter_page); reflexivity. Defined.

(** [_rerender_for_zoom] on an open document: when the tile size moved by
    less than 0.05 from the grid marker nothing changes; otherwise the
    generation goes up by one, the marker becomes the current tile size
    and only visible tiles are left in the scene. *)
Theorem rerender_for_zoom_spec (visible : gset tile_key) (s : state)
    (Hdoc : has_doc s = true) (Hscene : has_scene s = true) :
  let ts := _tile_scene_size s in
  let s' := _rerender_for_zoom visible s in
  (Qabs (ts - current_tile_ss s) < 5 # 100 -> s' = s)
  /\ (5 # 100 <= Qabs (ts - current_tile_ss s) ->
      tile_generation s' = (tile_generation s + 1)%Z
      /\ current_tile_ss s' = ts
      /\ zoom s' = zoom s
      /\ forall key, is_Some (tile_items s' !! key) -> key ∈ visible).
Proof.
  cbv zeta. unfold _rerender_for_zoom. rewrite Hdoc, Hscene.
  cbn [negb orb]. cbv zeta. split; intros H.
  - assert (E : Qle_bool (5 # 100)
                  (py_abs (_tile_scene_size s - current_tile_ss s)) = false).
    { apply not_true_is_false. intros E. apply Qle_bool_iff in E.
      by apply (Qlt_not_le _ _ H). }
    rewrite E. reflexivity.
  - assert (E : Qle_bool (5 # 100)
                  (py_abs (_tile_scene_size s - current_tile_ss s)) = true)
      by (by apply Qle_bool_iff).
    rewrite E. cbn [negb].
    set (s0 := set_current_tile_ss _ _).
    destruct (ensure_visible_tiles_frame visible s0 Hdoc Hscene)
      as (Hz & Hg & Hss).
    cbv zeta in Hss.
    destruct (ensure_visible_tiles_dom visible s0) as [Honly _];
      [exact Hdoc | exact Hscene |].
    split; [exact Hg |]. split; [| split; [exact Hz | exact Honly]].
    rewrite Hss.
    change (_tile_scene_size s0) with (_tile_scene_size s).
    change (current_tile_ss s0) with (_tile_scene_size s).
    assert (E0 : Qle_bool (py_abs (_tile_scene_size s - _tile_scene_size s))
                   (5 # 100) = true).
    { apply Qle_bool_iff.
      assert (E1 : _tile_scene_size s - _tile_scene_size s == 0) by ring.
      unfold py_abs. rewrite E1. vm_compute. discriminate. }
    rewrite E0. reflexivity.
Qed.

(** Zoom 1 to zoom 2 on the letter page: the tile size moves from 512 to
    256, so the timer bumps the generation from 1 to 2. *)
Lemma rerender_for_zoom_spec_witness :
  let s := set_zoom_field 2 (_ensure_visible_tiles {[top_left]} letter_page) in
  tile_generation (_rerender_for_zoom {[top_left]} s) = 2%Z
  /\ _rerender_for_zoom ∅ (_rerender_for_zoom {[top_left]} s)
     = _rerender_for_zoom {[top_left]} s.
Proof.
  cbv zeta.
  set (s := set_zoom_field 2 (_ensure_visible_tiles {[top_left]} letter_page)).
  destruct (rerender_for_zoom_spec {[top_left]} s eq_refl eq_refl)
    as [_ Hbig].
  destruct Hbig as (Hg & Hss & Hz & _); [vm_compute; discriminate |].
  split; [rewrite Hg; reflexivity |].
  set (s' := _rerender_for_zoom {[top_left]} s) in *.
  assert (Hd : has_doc s' = true) by (vm_compute; reflexivity).
  assert (Hc : has_scene s' = true) by (vm_compute; reflexivity).
  destruct (rerender_for_zoom_spec ∅ s' Hd Hc) as [Hsmall _].
  apply Hsmall. vm_compute. reflexivity.
Defined.

End TileScheduleProofs.

Section TilePlacementProofs.
Import Tiles.
Open Scope Q_scope.

Lemma py_round_near (x : Q) : Qabs (inject_Z (py_round x) - x) <= 1 # 2.
Proof.
  unfold py_round.
  pose proof (Qfloor_le x) as Hle. pose proof (Qlt_floor x) as Hlt.
  rewrite inject_Z_plus in Hlt. change (inject_Z 1) with 1 in Hlt.
  set (f := Qfloor x) in *.
  assert (Hup : Qabs (inject_Z (f + 1) - x) <= 1 # 2
                <-> 1 # 2 <= x - inject_Z f).
  { rewrite inject_Z_plus. change (inject_Z 1) with 1.
    rewrite Qabs_Qle_condition. split; [intros [_ H] | intros H; split]; lra. }
  assert (Hdown : Qabs (inject_Z f - x) <= 1 # 2
                  <-> x - inject_Z f <= 1 # 2).
  { rewrite Qabs_Qle_condition. split; [intros [H _] | intros H; split]; lra. }
  destruct (Qcompare (x - inject_Z f) (1 # 2)) eqn:E.
  - apply Qeq_alt in E.
    destruct (Z.even f); [apply Hdown | apply Hup]; rewrite E; apply Qle_refl.
  - apply Qlt_alt in E. apply Hdown. by apply Qlt_le_weak.
  - apply Qgt_alt in E. apply Hup. by apply Qlt_le_weak.
Qed.

(** [round(x, 1)] is within 0.05 of [x]. *)
Lemma py_round1_near (x : Q) : Qabs (py_round1 x - x) <= 5 # 100.
Proof.
  unfold py_round1. pose proof (py_round_near (x * 10)) as H.
  set (r := inject_Z (py_round (x * 10))) in *.
  apply Qabs_Qle_condition in H as [H1 H2].
  apply Qabs_Qle_condition.
  assert (E : r / 10 - x == (r - x * 10) / 10) by field.
  rewrite E. split.
  - apply Qle_shift_div_l; [reflexivity | lra].
  - apply Qle_shift_div_r; [reflexivity | lra].
Qed.

Lemma Qabs_triangle3 (a b c : Q) (e1 e2 e : Q) :
  e1 + e2 <= e ->
  Qabs (a - b) <= e1 -> Qabs (b - c) <= e2 -> Qabs (a - c) <= e.
Proof.
  rewrite !Qabs_Qle_condition. intros He [H1 H2] [H3 H4]. split; lra.
Qed.

Lemma Qabs_sym (a b : Q) : Qabs (a - b) == Qabs (b - a).
Proof.
  rewrite <- (Qabs_opp (a - b)). apply Qabs_wd. ring.
Qed.

(** Where a tile of the scene after a pass comes from: it was placed by
    this pass, with pixels of the current zoom bucket, or it was in the
    scene before and the grid test of the pass found the marker within
    0.05 of the tile size. *)
Lemma ensure_visible_tiles_origin (visible : gset tile_key) (s : state)
    (Hdoc : has_doc s = true) (Hscene : has_scene s = true)
    (Hwf : cache_wf (tile_cache s)) :
  forall key px,
    tile_items (_ensure_visible_tiles visible s) !! key = Some px ->
    zoom_bucket (rendered_zoom px) == zoom_bucket (zoom s)
    \/ (tile_items s !! key = Some px
        /\ Qabs (_tile_scene_size s - current_tile_ss s) <= 5 # 100).
Proof.
  unfold _ensure_visible_tiles. rewrite Hdoc, Hscene. cbn [negb orb].
  cbv zeta.
  set (s1 := if negb _ then _ else s).
  assert (Hs1 : zoom s1 = zoom s
                /\ tile_cache s1 = tile_cache s
                /\ forall key px,
                     tile_items s1 !! key = Some px ->
                     tile_items s !! key = Some px
                     /\ Qabs (_tile_scene_size s - current_tile_ss s)
                        <= 5 # 100).
  { unfold s1, py_abs.
    destruct (Qle_bool (Qabs (_tile_scene_size s - current_tile_ss s))
                (5 # 100)) eqn:E; cbn [negb].
    - apply Qle_bool_iff in E. auto.
    - split; [reflexivity |]. split; [reflexivity |].
      intros key px Hl. cbn in Hl. by rewrite lookup_empty in Hl. }
  destruct Hs1 as (Hz1 & Hc1 & Hi1).
  assert (Hwf1 : cache_wf (tile_cache s1)) by (rewrite Hc1; exact Hwf).
  change (py_round1 (_tile_scene_size s)) with (zoom_bucket (zoom s)).
  destruct (render_missing (tile_generation s) (zoom_bucket (zoom s))
              (elements (visible ∖ dom (tile_items s1))) s1)
    as [s2 b] eqn:Hrun.
  destruct (render_missing_inv_at _ _ _ _ _ _ Hz1 Hrun Hwf1)
    as (_ & _ & _ & Hp2).
  pose proof (remove_tiles_inv
                (elements (dom (tile_items s1) ∖ visible)) s2)
    as (_ & _ & _ & Hi3).
  assert (Hfin : forall key px,
             tile_items s2 !! key = Some px ->
             zoom_bucket (rendered_zoom px) == zoom_bucket (zoom s)
             \/ (tile_items s !! key = Some px
                 /\ Qabs (_tile_scene_size s - current_tile_ss s)
                    <= 5 # 100)).
  { intros key px Hl. destruct (Hp2 key px Hl) as [Hold | Hnew].
    - right. by apply Hi1.
    - left. rewrite Hnew, Hz1. reflexivity. }
  destruct b; cbn [_trim_tile_cache set_tile_cache tile_items].
  - intros key px Hl. apply Hi3 in Hl. by apply Hfin.
  - exact Hfin.
Qed.

(** A pass keeps [scene_fresh], and after it every tile of the scene is
    within 0.15 of the current tile size. *)
Lemma ensure_visible_tiles_fresh (visible : gset tile_key) (s : state)
    (Hdoc : has_doc s = true) (Hscene : has_scene s = true)
    (Hwf : cache_wf (tile_cache s)) (Hfresh : scene_fresh s) :
  let s' := _ensure_visible_tiles visible s in
  scene_fresh s'
  /\ forall key px, tile_items s' !! key = Some px ->
       Qabs (zoom_bucket (rendered_zoom px) - _tile_scene_size s')
       <= 15 # 100.
Proof.
  cbv zeta.
  destruct (ensure_visible_tiles_frame visible s Hdoc Hscene)
    as (Hz & _ & Hm). cbv zeta in Hm.
  assert (Hts : _tile_scene_size (_ensure_visible_tiles visible s)
                = _tile_scene_size s)
    by (unfold _tile_scene_size; by rewrite Hz).
  assert (Hmark : Qabs (_tile_scene_size s
                        - current_tile_ss (_ensure_visible_tiles visible s))
                  <= 5 # 100).
  { rewrite Hm. unfold py_abs.
    destruct (Qle_bool (Qabs (_tile_scene_size s - current_tile_ss s))
                (5 # 100)) eqn:E; cbn [negb].
    - by apply Qle_bool_iff in E.
    - assert (E0 : _tile_scene_size s - _tile_scene_size s == 0) by ring.
      rewrite E0. discriminate. }
  assert (Hf : scene_fresh (_ensure_visible_tiles visible s)).
  { intros key px Hl.
    destruct (ensure_visible_tiles_origin visible s Hdoc Hscene Hwf key px Hl)
      as [Hnew | [Hold Hgrid]].
    - rewrite Hnew. change (zoom_bucket (zoom s))
        with (py_round1 (_tile_scene_size s)).
      apply (Qabs_triangle3 _ (_tile_scene_size s) _ (5 # 100) (5 # 100));
        [discriminate | apply py_round1_near | exact Hmark].
    - rewrite Hm. unfold py_abs.
      assert (E : Qle_bool (Qabs (_tile_scene_size s - current_tile_ss s))
                    (5 # 100) = true) by (by apply Qle_bool_iff).
      rewrite E. cbn [negb]. exact (Hfresh key px Hold). }
  split; [exact Hf |].
  intros key px Hl. rewrite Hts.
  apply (Qabs_triangle3 _ (current_tile_ss (_ensure_visible_tiles visible s))
           _ (1 # 10) (5 # 100)); [discriminate | exact (Hf key px Hl) |].
  rewrite Qabs_sym. exact Hmark.
Qed.

(** Every state that the viewport events reach from a fresh layout keeps
    the tiles of its scene within 0.1 of the grid marker. *)
Lemma run_scene_fresh (events : list event) (s : state) :
  cache_wf (tile_cache s) -> scene_fresh s ->
  scene_fresh (run events s).
Proof.
  unfold run. revert s.
  induction events as [| e events IH]; intros s Hwf Hfresh; cbn [fold_left];
    [exact Hfresh |].
  assert (Hwf' : cache_wf (tile_cache (handle s e)))
    by (apply (run_cache_wf [e]); exact Hwf).
  apply IH; [exact Hwf' |].
  assert (Hpass : forall visible st,
             cache_wf (tile_cache st) -> scene_fresh st ->
             scene_fresh (_ensure_visible_tiles visible st)).
  { intros visible st Hw Hf.
    destruct (has_doc st) eqn:Hd;
      [| unfold _ensure_visible_tiles; by rewrite Hd].
    destruct (has_scene st) eqn:Hs;
      [| unfold _ensure_visible_tiles; by rewrite Hd, Hs].
    by apply ensure_visible_tiles_fresh. }
  destruct e; cbn [handle]; try exact Hfresh.
  - by apply Hpass.
  - unfold _rerender_for_zoom.
    destruct (negb (has_doc s) || negb (has_scene s)); [exact Hfresh |].
    destruct (negb (Qle_bool (5 # 100)
                      (py_abs (_tile_scene_size s - current_tile_ss s))));
      [exact Hfresh |].
    apply Hpass; [exact Hwf |].
    intros key px Hl. cbn in Hl. by rewrite lookup_empty in Hl.
Qed.

(** C1 (amended): a pass of [_ensure_visible_tiles] with a document and a
    scene leaves the generation and the zoom as they are.  When the tile
    size of the current zoom is more than 0.05 away from the grid marker
    the pass first clears the scene, so that afterwards every tile of the
    scene carries pixels of the current zoom bucket (the tile size
    512/max(zoom, 0.1) rounded to one decimal); otherwise a tile of the
    scene after the pass carries pixels of the current bucket or is a
    tile that was in the scene before.  In both cases only tiles of the
    visible set are left.  In a scene whose tiles are within 0.1 of the
    grid marker, as every reachable scene is, the tiles after the pass
    are rendered at a zoom whose rounded tile size is within 0.15 of the
    current tile size.  The generation does not change during a pass, so
    the test before each missing tile never stops it: every visible tile
    that starts inside its page is in the scene afterwards. *)
Theorem ensure_visible_tiles_placement (visible : gset tile_key) (s : state)
    (Hdoc : has_doc s = true) (Hscene : has_scene s = true)
    (Hwf : cache_wf (tile_cache s)) :
  let ts := _tile_scene_size s in
  let s' := _ensure_visible_tiles visible s in
  tile_generation s' = tile_generation s
  /\ zoom s' = zoom s
  /\ cache_wf (tile_cache s')
  /\ (forall key px, tile_items s' !! key = Some px ->
        key ∈ visible
        /\ (zoom_bucket (rendered_zoom px) == zoom_bucket (zoom s)
            \/ (tile_items s !! key = Some px
                /\ Qabs (ts - current_tile_ss s) <= 5 # 100)))
  /\ (5 # 100 < Qabs (ts - current_tile_ss s) ->
      forall key px, tile_items s' !! key = Some px ->
        zoom_bucket (rendered_zoom px) == zoom_bucket (zoom s))
  /\ (scene_fresh s ->
      scene_fresh s'
      /\ forall key px, tile_items s' !! key = Some px ->
           Qabs (zoom_bucket (rendered_zoom px) - _tile_scene_size s')
           <= 15 # 100)
  /\ (forall key, key ∈ visible -> on_page s key ->
        is_Some (tile_items s' !! key)).
Proof.
  cbv zeta.
  destruct (ensure_visible_tiles_inv visible s Hwf) as (Hg & Hz & Hc & _).
  destruct (ensure_visible_tiles_dom visible s Hdoc Hscene) as [Honly Hall].
  pose proof (ensure_visible_tiles_origin visible s Hdoc Hscene Hwf) as Hor.
  split; [exact Hg |]. split; [exact Hz |]. split; [exact Hc |].
  split.
  { intros key px Hl. split; [| by apply Hor].
    apply Honly. rewrite Hl. eauto. }
  split.
  { intros Hgrid key px Hl. destruct (Hor key px Hl) as [Hnew | [_ Hle]];
      [exact Hnew |].
    exfalso. by apply (Qlt_not_le _ _ Hgrid). }
  split; [| exact Hall].
  intros Hfresh. by apply ensure_visible_tiles_fresh.
Qed.

Lemma zoomed_twice_scene_fresh : scene_fresh zoomed_twice.
Proof.
  apply run_scene_fresh; [intros k px [] |].
  intros key px Hl. cbn in Hl. by rewrite lookup_empty in Hl.
Qed.

(** The pass of the counterexample: the tile it places is in the bucket
    of the current zoom, though not rendered at the current zoom, and
    within 0.15 of the current tile size. *)
Lemma ensure_visible_tiles_placement_witness :
  exists px,
    tile_items (_ensure_visible_tiles {[top_left]} zoomed_twice) !! top_left
    = Some px
    /\ zoom_bucket (rendered_zoom px) == zoom_bucket (47 # 10)
    /\ Qabs (zoom_bucket (rendered_zoom px) - 512 / (47 # 10)) <= 15 # 100.
Proof.
  destruct (ensure_visible_tiles_placement {[top_left]} zoomed_twice
              eq_refl eq_refl zoomed_twice_cache_wf)
    as (_ & _ & _ & Hp & _ & Hf & _).
  destruct (Hf zoomed_twice_scene_fresh) as [_ Hnear].
  destruct (tile_items (_ensure_visible_tiles {[top_left]} zoomed_twice)
              !! top_left) as [px |] eqn:Hl; [| vm_compute in Hl; discriminate].
  exists px. split; [reflexivity |].
  split.
  - destruct (Hp top_left px Hl) as [_ [Hnew | [Hold _]]].
    + rewrite Hnew. vm_compute. reflexivity.
    + vm_compute in Hold. discriminate.
  - specialize (Hnear top_left px Hl).
    assert (E : _tile_scene_size
                  (_ensure_visible_tiles {[top_left]} zoomed_twice)
                == 512 / (47 # 10)) by (vm_compute; reflexivity).
    rewrite E in Hnear. exact Hnear.
Defined.

(** The second case is needed: at zoom 4.81 the scene still holds the
    tile rendered at zoom 4.8096.  The tile sizes 106.445 and 106.454 are
    0.009 apart, so neither the timer nor the pass clears the scene,
    while they round to the buckets 106.4 and 106.5. *)
Example near_zoom_tile_kept :
  zoom near_zoom == 481 # 100
  /\ exists px,
       tile_items near_zoom !! top_left = Some px
       /\ rendered_zoom px == 48096 # 10000
       /\ zoom_bucket (rendered_zoom px) == 1065 # 10
       /\ zoom_bucket (zoom near_zoom) == 1064 # 10.
Proof.
  split; [vm_compute; reflexivity |].
  eexists. split; [vm_compute; reflexivity |].
  split; [vm_compute; reflexivity |].
  split; vm_compute; reflexivity.
Qed.

End TilePlacementProofs.

Section SelectionProofs.
Import Selection.

Ltac compare_cases :=
  repeat match goal with
         | H : context [(?x ?= ?y)%Z] |- _ =>
             destruct (Z.compare_spec x y); try discriminate; try lia
         | |- context [(?x ?= ?y)%Z] =>
             destruct (Z.compare_spec x y); try discriminate; try lia
         end.

Lemma key_leb_total (a b : Z * Z * Z * Z) :
  key_leb a b = false -> key_leb b a = true.
Proof.
  destruct a as [[[a1 a2] a3] a4], b as [[[b1 b2] b3] b4].
  unfold key_leb. intros H. compare_cases; try reflexivity.
  all: try (apply Z.leb_gt in H; apply Z.leb_le; lia).
Qed.

Lemma key_leb_trans (a b c : Z * Z * Z * Z) :
  key_leb a b = true -> key_leb b c = true -> key_leb a c = true.
Proof.
  destruct a as [[[a1 a2] a3] a4], b as [[[b1 b2] b3] b4],
           c as [[[c1 c2] c3] c4].
  unfold key_leb. intros H1 H2. compare_cases; try reflexivity.
  all: try (apply Z.leb_le in H1, H2; apply Z.leb_le; lia).
Qed.

Lemma insert_word_perm (w : word) (l : list word) :
  Permutation (w :: l) (insert_word w l).
Proof.
  induction l as [| v l IH]; cbn [insert_word]; [reflexivity |].
  destruct (key_leb (reading_key w) (reading_key v)); [reflexivity |].
  rewrite perm_swap. by apply perm_skip.
Qed.

Lemma insert_word_sorted (w : word) (l : list word) :
  Sorted reading_le l -> Sorted reading_le (insert_word w l).
Proof.
  induction l as [| v l IH]; intros Hs; cbn [insert_word].
  - repeat constructor.
  - destruct (key_leb (reading_key w) (reading_key v)) eqn:E.
    + constructor; [exact Hs |]. constructor. exact E.
    + apply Sorted_inv in Hs as [Hs Hhd]. constructor; [by apply IH |].
      destruct l as [| u l]; cbn [insert_word].
      * constructor. by apply key_leb_total.
      * destruct (key_leb (reading_key w) (reading_key u)).
        -- constructor. by apply key_leb_total.
        -- constructor. by inversion Hhd.
Qed.

Lemma sorted_words_spec (ws : list word) :
  StronglySorted reading_le (sorted_words ws)
  /\ Permutation ws (sorted_words ws).
Proof.
  split.
  - apply Sorted_StronglySorted.
    + intros a b c. unfold reading_le. apply key_leb_trans.
    + induction ws as [| w ws IH]; cbn [sorted_words]; [constructor |].
      by apply insert_word_sorted.
  - induction ws as [| w ws IH]; cbn [sorted_words]; [reflexivity |].
    rewrite <- insert_word_perm. by apply perm_skip.
Qed.

(** [words_between lo hi] is the inclusive index range [lo .. hi]. *)
Lemma lookup_words_between (lo hi j : nat) (ws : list word) :
  words_between lo hi ws !! j
  = if decide (lo + j <= hi)%nat then ws !! (lo + j)%nat else None.
Proof.
  unfold words_between. rewrite lookup_take, lookup_drop.
  destruct (decide (j < hi + 1 - lo)%nat), (decide (lo + j <= hi)%nat);
    try reflexivity; lia.
Qed.

(** The loop keeps the first word of least distance among those seen. *)
Lemma nearest_loop_min (all : list word) (px py : Q) (ws : list word)
      (i best : nat) (bd : option Q) :
  drop i all = ws ->
  match bd with
  | None => i = 0%nat
  | Some d =>
      exists wb, all !! best = Some wb /\ d = dist2 px py wb
                 /\ forall j wj, (j < i)%nat -> all !! j = Some wj ->
                                  (d <= dist2 px py wj)%Q
  end ->
  all <> [] ->
  exists wr,
    all !! nearest_loop px py ws i best bd = Some wr
    /\ forall j wj, all !! j = Some wj ->
                    (dist2 px py wr <= dist2 px py wj)%Q.
Proof.
  revert i best bd. induction ws as [| wd ws IH]; intros i best bd Hd Hb Hne.
  - cbn [nearest_loop].
    assert (Hlen : (length all <= i)%nat).
    { apply (f_equal length) in Hd. rewrite length_drop in Hd.
      cbn [length] in Hd. lia. }
    destruct bd as [d |].
    + destruct Hb as (wb & Hwb & -> & Hmin). exists wb. split; [exact Hwb |].
      intros j wj Hj. apply (Hmin j wj); [| exact Hj].
      apply lookup_lt_Some in Hj. lia.
    + subst i. destruct all; [congruence | cbn [length] in Hlen; lia].
  - assert (Hi : all !! i = Some wd).
    { rewrite <- (Nat.add_0_r i), <- lookup_drop, Hd. reflexivity. }
    assert (Hd' : drop (S i) all = ws).
    { rewrite (drop_S _ _ _ Hi) in Hd. by injection Hd. }
    cbn [nearest_loop].
    destruct bd as [d |].
    + destruct Hb as (wb & Hwb & -> & Hmin).
      destruct (Qle_bool (dist2 px py wb) (dist2 px py wd)) eqn:E; cbn [negb].
      * apply Qle_bool_iff in E.
        apply (IH (S i) best (Some (dist2 px py wb)) Hd'); [| exact Hne].
        exists wb. split; [exact Hwb |]. split; [reflexivity |].
        intros j wj Hj Hwj. destruct (decide (j = i)) as [-> |].
        -- rewrite Hi in Hwj. injection Hwj as <-. exact E.
        -- apply (Hmin j wj); [lia | exact Hwj].
      * assert (Hlt : (dist2 px py wd < dist2 px py wb)%Q).
        { apply Qnot_le_lt. intros Hc. apply Qle_bool_iff in Hc. congruence. }
        apply (IH (S i) i (Some (dist2 px py wd)) Hd'); [| exact Hne].
        exists wd. split; [exact Hi |]. split; [reflexivity |].
        intros j wj Hj Hwj. destruct (decide (j = i)) as [-> |].
        -- rewrite Hi in Hwj. injection Hwj as <-. apply Qle_refl.
        -- apply Qle_trans with (dist2 px py wb);
             [by apply Qlt_le_weak | apply (Hmin j wj); [lia | exact Hwj]].
    + subst i.
      apply (IH 1%nat 0%nat (Some (dist2 px py wd)) Hd'); [| exact Hne].
      exists wd. split; [exact Hi |]. split; [reflexivity |].
      intros j wj Hj Hwj. assert (j = 0%nat) as -> by lia.
      rewrite Hi in Hwj. injection Hwj as <-. apply Qle_refl.
Qed.

(** The nearest word is a word of the list, and no word is nearer. *)
Lemma nearest_word_index_min (s : state) (p : Q * Q) :
  word_data s <> [] ->
  exists wr,
    word_data s !! _nearest_word_index s p = Some wr
    /\ forall j wj, word_data s !! j = Some wj ->
                    (dist2 (fst p) (snd p) wr <= dist2 (fst p) (snd p) wj)%Q.
Proof.
  intros Hne. unfold _nearest_word_index.
  by apply nearest_loop_min.
Qed.

Lemma nearest_word_index_bound (s : state) (p : Q * Q) :
  word_data s <> [] ->
  (_nearest_word_index s p < length (word_data s))%nat.
Proof.
  intros Hne. destruct (nearest_word_index_min s p Hne) as (wr & Hwr & _).
  by apply lookup_lt_Some in Hwr.
Qed.

(** C8: the selection does not depend on the order of the two points;
    [set_word_data] keeps the words sorted in reading order by (page,
    block, line, word); each point is resolved to the index of a word of
    least distance to it; and the selected rectangles are those of the
    words at the indices [min .. max] of the sorted list, both ends
    included. *)
Theorem select_range_order_independent (s : state) (a b : Q * Q) :
  _update_text_selection_linear a b s = _update_text_selection_linear b a s
  /\ (forall ws,
        StronglySorted reading_le (word_data (set_word_data ws s))
        /\ Permutation ws (word_data (set_word_data ws s)))
  /\ (has_scene s = true -> word_data s <> [] ->
      let lo := Nat.min (_nearest_word_index s a) (_nearest_word_index s b) in
      let hi := Nat.max (_nearest_word_index s a) (_nearest_word_index s b) in
      (hi < length (word_data s))%nat
      /\ (forall p, exists wr,
            word_data s !! _nearest_word_index s p = Some wr
            /\ forall j wj, word_data s !! j = Some wj ->
                  (dist2 (fst p) (snd p) wr <= dist2 (fst p) (snd p) wj)%Q)
      /\ word_data (_update_text_selection_linear a b s) = word_data s
      /\ forall j,
           selected_word_rects (_update_text_selection_linear a b s) !! j
           = if decide (lo + j <= hi)%nat
             then word_rect <$> word_data s !! (lo + j)%nat
             else None).
Proof.
  split; [| split].
  - unfold _update_text_selection_linear.
    destruct (negb (has_scene s)); [reflexivity |].
    destruct (word_data s); [reflexivity |].
    rewrite (Nat.min_comm (_nearest_word_index s b)),
            (Nat.max_comm (_nearest_word_index s b)).
    reflexivity.
  - intros ws. cbn [set_word_data _clear_text_selection word_data].
    apply sorted_words_spec.
  - intros Hsc Hne lo hi.
    pose proof (nearest_word_index_bound s a Hne) as Ha.
    pose proof (nearest_word_index_bound s b Hne) as Hb.
    split; [unfold hi; lia |].
    split; [intros p; by apply nearest_word_index_min |].
    unfold _update_text_selection_linear. rewrite Hsc. cbn [negb].
    destruct (word_data s) as [| w ws] eqn:E; [congruence |].
    cbn [word_data selected_word_rects]. split; [reflexivity |].
    intros j. rewrite list_lookup_fmap, lookup_words_between.
    fold lo hi. destruct (decide (lo + j <= hi)%nat); reflexivity.
Qed.

Lemma select_range_order_independent_witness :
  selected_word_rects
    (_update_text_selection_linear (30, 36)%Q (82, 14)%Q two_lines) !! 0%nat
  = Some (60, 10, 100 - 60, 20 - 10)%Q.
Proof.
  destruct (select_range_order_independent two_lines (30, 36)%Q (82, 14)%Q)
    as (_ & _ & H).
  assert (Hsc : has_scene two_lines = true) by reflexivity.
  assert (Hne : word_data two_lines <> []) by discriminate.
  destruct (H Hsc Hne) as (_ & _ & _ & Hj).
  etransitivity; [apply (Hj 0%nat) | reflexivity].
Defined.

Example drag_up_selects_forward :
  selected_text
    (_update_text_selection_linear (30, 36)%Q (82, 14)%Q two_lines)
  = ("quick" ++ newline ++ "brown")%string
  /\ selected_text
       (_update_text_selection_linear (82, 14)%Q (30, 36)%Q two_lines)
     = ("quick" ++ newline ++ "brown")%string.
Proof. split; reflexivity. Qed.

End SelectionProofs.

Section MergeProofs.
Import Selection.
Open Scope Q_scope.

Lemma Qlt_bool_iff (a b : Q) : Qlt_bool a b = true <-> a < b.
Proof.
  unfold Qlt_bool. rewrite negb_true_iff. split.
  - intros H. apply Qnot_le_lt. intros Hle.
    apply Qle_bool_iff in Hle. congruence.
  - intros H. destruct (Qle_bool b a) eqn:E; [| done].
    apply Qle_bool_iff in E. exfalso. by apply (Qlt_not_le a b).
Qed.

Lemma Qlt_bool_false (a b : Q) : Qlt_bool a b = false -> b <= a.
Proof.
  unfold Qlt_bool. rewrite negb_false_iff. apply Qle_bool_iff.
Qed.

Lemma insert_by_perm {A : Type} (leb : A -> A -> bool) (a : A) (l : list A) :
  Permutation (insert_by leb a l) (a :: l).
Proof.
  induction l as [| b rest IH]; cbn [insert_by]; [done |].
  destruct (leb a b); [done |].
  rewrite IH. apply perm_swap.
Qed.

Lemma sorted_by_perm {A : Type} (leb : A -> A -> bool) (l : list A) :
  Permutation (sorted_by leb l) l.
Proof.
  induction l as [| a rest IH]; cbn [sorted_by]; [done |].
  rewrite insert_by_perm. by apply perm_skip.
Qed.

Lemma min_fold_spec (xs : list Q) (x : Q) :
  let m := fold_left (fun cur y => if Qlt_bool y cur then y else cur) xs x in
  In m (x :: xs) /\ forall y, In y (x :: xs) -> m <= y.
Proof.
  cbv zeta. revert x.
  induction xs as [| z xs IH]; intros x; cbn [fold_left].
  - split; [by left |]. intros y [<- | []]. apply Qle_refl.
  - destruct (IH (if Qlt_bool z x then z else x)) as [Hin Hle].
    split.
    + destruct Hin as [Hm | Hm]; [| by right; right].
      rewrite <- Hm. destruct (Qlt_bool z x); [right; by left | by left].
    + intros y Hy.
      assert (Hc : (if Qlt_bool z x then z else x) <= x
                   /\ (if Qlt_bool z x then z else x) <= z).
      { destruct (Qlt_bool z x) eqn:E.
        - apply Qlt_bool_iff in E. split; [by apply Qlt_le_weak |].
          apply Qle_refl.
        - apply Qlt_bool_false in E. split; [apply Qle_refl | done]. }
      destruct Hc as [Hx Hz].
      pose proof (Hle _ (or_introl eq_refl)) as H0.
      destruct Hy as [<- | [<- | Hy]].
      * by apply (Qle_trans _ _ _ H0).
      * by apply (Qle_trans _ _ _ H0).
      * apply Hle. by right.
Qed.

Lemma max_fold_spec (xs : list Q) (x : Q) :
  let m := fold_left (fun cur y => if Qlt_bool cur y then y else cur) xs x in
  In m (x :: xs) /\ forall y, In y (x :: xs) -> y <= m.
Proof.
  cbv zeta. revert x.
  induction xs as [| z xs IH]; intros x; cbn [fold_left].
  - split; [by left |]. intros y [<- | []]. apply Qle_refl.
  - destruct (IH (if Qlt_bool x z then z else x)) as [Hin Hle].
    split.
    + destruct Hin as [Hm | Hm]; [| by right; right].
      rewrite <- Hm. destruct (Qlt_bool x z); [right; by left | by left].
    + intros y Hy.
      assert (Hc : x <= (if Qlt_bool x z then z else x)
                   /\ z <= (if Qlt_bool x z then z else x)).
      { destruct (Qlt_bool x z) eqn:E.
        - apply Qlt_bool_iff in E. split; [by apply Qlt_le_weak |].
          apply Qle_refl.
        - apply Qlt_bool_false in E. split; [apply Qle_refl | done]. }
      destruct Hc as [Hx Hz].
      pose proof (Hle _ (or_introl eq_refl)) as H0.
      destruct Hy as [<- | [<- | Hy]].
      * by apply (Qle_trans _ _ _ Hx).
      * by apply (Qle_trans _ _ _ Hz).
      * apply Hle. by right.
Qed.

Lemma py_min_spec (l : list Q) :
  l <> [] ->
  exists m, py_min l = Some m /\ In m l /\ forall y, In y l -> m <= y.
Proof.
  destruct l as [| x xs]; [done |]. intros _.
  eexists. split; [reflexivity |]. apply min_fold_spec.
Qed.

Lemma py_max_spec (l : list Q) :
  l <> [] ->
  exists m, py_max l = Some m /\ In m l /\ forall y, In y l -> y <= m.
Proof.
  destruct l as [| x xs]; [done |]. intros _.
  eexists. split; [reflexivity |]. apply max_fold_spec.
Qed.

Lemma map_nonempty {A B : Type} (f : A -> B) (l : list A) :
  l <> [] -> map f l <> [].
Proof. by destruct l. Qed.

(** The bounding box of a non-empty line exists, covers every rectangle
    of the line, and each of its edges is an edge of one of them. *)
Lemma line_bbox_spec (line : list qrect) :
  line <> [] ->
  exists bb, line_bbox line = Some bb
             /\ (forall r, In r line -> rect_contains bb r)
             /\ rect_tight bb line.
Proof.
  intros Hne. unfold line_bbox.
  pose proof (sorted_by_perm left_leb line) as Hp.
  set (sl := sorted_by left_leb line) in *.
  assert (Hsl : sl <> []).
  { intros E. rewrite E in Hp. apply Permutation_nil in Hp. done. }
  destruct (py_min_spec (map r_left sl) (map_nonempty _ _ Hsl))
    as (x0 & -> & Hx0 & Hx0le).
  destruct (py_min_spec (map r_top sl) (map_nonempty _ _ Hsl))
    as (y0 & -> & Hy0 & Hy0le).
  destruct (py_max_spec (map r_right sl) (map_nonempty _ _ Hsl))
    as (x1 & -> & Hx1 & Hx1le).
  destruct (py_max_spec (map r_bottom sl) (map_nonempty _ _ Hsl))
    as (y1 & -> & Hy1 & Hy1le).
  eexists. split; [reflexivity |].
  assert (Hr : r_right (x0, y0, x1 - x0, y1 - y0) == x1)
    by (cbn [r_right]; ring).
  assert (Hb : r_bottom (x0, y0, x1 - x0, y1 - y0) == y1)
    by (cbn [r_bottom]; ring).
  split.
  - intros r Hin. apply (Permutation_in _ (Permutation_sym Hp)) in Hin.
    unfold rect_contains. rewrite Hr, Hb. cbn [r_left r_top].
    split; [apply Hx0le; by apply in_map |].
    split; [apply Hy0le; by apply in_map |].
    split; [apply Hx1le; by apply in_map | apply Hy1le; by apply in_map].
  - unfold rect_tight. cbn [r_left r_top].
    apply in_map_iff in Hx0 as (r1 & E1 & H1).
    apply in_map_iff in Hy0 as (r2 & E2 & H2).
    apply in_map_iff in Hx1 as (r3 & E3 & H3).
    apply in_map_iff in Hy1 as (r4 & E4 & H4).
    split; [exists r1; split; [by apply (Permutation_in _ Hp) | by rewrite E1] |].
    split; [exists r2; split; [by apply (Permutation_in _ Hp) | by rewrite E2] |].
    split; [exists r3; split; [by apply (Permutation_in _ Hp)
                              | by rewrite Hr, E3] |].
    exists r4; split; [by apply (Permutation_in _ Hp) | by rewrite Hb, E4].
Qed.

(** The grouping loop never indexes an empty line; it cuts the list it
    is given into consecutive non-empty lines. *)
Lemma group_loop_spec (tol : Q) (rs : list qrect) :
  forall (lines : list (list qrect)) (cur : list qrect),
    cur <> [] ->
    Forall (fun l => l <> []) lines ->
    exists L, group_loop tol lines cur rs = Some L
              /\ concat L = concat lines ++ cur ++ rs
              /\ Forall (fun l => l <> []) L.
Proof.
  induction rs as [| r rest IH]; intros lines cur Hcur Hlines;
    cbn [group_loop].
  - eexists. split; [reflexivity |]. split.
    + rewrite concat_app. cbn [concat]. by rewrite !app_nil_r.
    + apply Forall_app. split; [done |]. by constructor.
  - destruct cur as [| c0 more]; [done |].
    destruct (Qlt_bool _ tol).
    + destruct (IH lines ((c0 :: more) ++ [r])) as (L & HL & Hc & Hf);
        [by destruct more | done |].
      exists L. split; [done |]. split; [| done].
      rewrite Hc. by rewrite <- !app_assoc.
    + destruct (IH (lines ++ [c0 :: more]) [r]) as (L & HL & Hc & Hf);
        [done | |].
      { apply Forall_app. split; [done |]. by constructor. }
      exists L. split; [done |]. split; [| done].
      rewrite Hc, concat_app. cbn [concat]. rewrite app_nil_r.
      by rewrite <- !app_assoc.
Qed.

Lemma merge_lines_spec (L : list (list qrect)) :
  Forall (fun l => l <> []) L ->
  exists merged, merge_lines L = Some merged
                 /\ Forall2 (fun line bb => line_bbox line = Some bb)
                      L merged.
Proof.
  induction 1 as [| line L Hne _ IH]; cbn [merge_lines].
  - exists []. split; [done | constructor].
  - destruct (line_bbox_spec line Hne) as (bb & Hbb & _). rewrite Hbb.
    destruct IH as (merged & -> & HF).
    exists (bb :: merged). split; [done |]. by constructor.
Qed.

Lemma length_concat_nonempty {A : Type} (L : list (list A)) :
  Forall (fun l => l <> []) L -> (length L <= length (concat L))%nat.
Proof.
  induction 1 as [| l L Hne _ IH]; cbn [concat length]; [lia |].
  rewrite length_app. destruct l; [done |]. cbn [length]. lia.
Qed.

Lemma Forall2_In_l {A B : Type} (P : A -> B -> Prop) (l : list A)
    (k : list B) (a : A) :
  Forall2 P l k -> In a l -> exists b, In b k /\ P a b.
Proof.
  induction 1 as [| x y l k Hxy _ IH]; [done |].
  intros [<- | Hin].
  - exists y. split; [by left | done].
  - destruct (IH Hin) as (b & Hb & HP). exists b. split; [by right | done].
Qed.

Lemma Forall2_In_r {A B : Type} (P : A -> B -> Prop) (l : list A)
    (k : list B) (b : B) :
  Forall2 P l k -> In b k -> exists a, In a l /\ P a b.
Proof.
  induction 1 as [| x y l k Hxy _ IH]; [done |].
  intros [<- | Hin].
  - exists x. split; [by left | done].
  - destruct (IH Hin) as (a & Ha & HP). exists a. split; [by right | done].
Qed.

(** [_merge_rects_by_line] never raises.  Every selected word rectangle
    lies inside one of the merged rectangles, every edge of a merged
    rectangle is an edge of a selected rectangle, there are at most as
    many merged rectangles as selected ones, and none only when nothing
    is selected. *)
Theorem merge_rects_by_line_covers (s : state) :
  exists merged,
    _merge_rects_by_line s = Some merged
    /\ (forall r, In r (selected_word_rects s) ->
                  exists m, In m merged /\ rect_contains m r)
    /\ (forall m, In m merged -> rect_tight m (selected_word_rects s))
    /\ (length merged <= length (selected_word_rects s))%nat
    /\ (merged = [] <-> selected_word_rects s = []).
Proof.
  unfold _merge_rects_by_line.
  destruct (selected_word_rects s) as [| q qs].
  { exists []. split; [done |]. split; [by intros r [] |].
    split; [by intros m [] |]. split; [done | done]. }
  assert (Hne0 : q :: qs <> []) by done.
  revert Hne0. generalize (q :: qs). clear q qs. intros sel Hne0.
  pose proof (sorted_by_perm top_left_leb sel) as Hp.
  set (rects := sorted_by top_left_leb sel) in *.
  destruct rects as [| r0 rest] eqn:Hrects.
  { apply Permutation_nil in Hp. done. }
  set (tol := (_ * (1 # 2))%Q).
  destruct (group_loop_spec tol rest [] [r0]) as (L & -> & Hc & HLne);
    [done | constructor |].
  cbn [concat app] in Hc.
  destruct (merge_lines_spec L HLne) as (merged & -> & HF).
  exists merged. split; [done |].
  split.
  { intros r Hin. apply (Permutation_in _ (Permutation_sym Hp)) in Hin.
    rewrite <- Hc in Hin. apply in_concat in Hin as (line & Hline & Hr).
    destruct (Forall2_In_l _ _ _ _ HF Hline) as (bb & Hbb & Hbox).
    exists bb. split; [done |].
    assert (Hnel : line <> []) by (intros ->; destruct Hr).
    destruct (line_bbox_spec line Hnel) as (bb' & Hbox' & Hcov & _).
    rewrite Hbox in Hbox'. injection Hbox' as <-. by apply Hcov. }
  split.
  { intros m Hm.
    destruct (Forall2_In_r _ _ _ _ HF Hm) as (line & Hline & Hbox).
    pose proof (proj1 (List.Forall_forall _ _) HLne line Hline) as Hnel.
    destruct (line_bbox_spec line Hnel) as (bb' & Hbox' & _ & Ht).
    rewrite Hbox in Hbox'. injection Hbox' as <-.
    assert (Hsub : forall r, In r line -> In r sel).
    { intros r Hr. apply (Permutation_in _ Hp). rewrite <- Hc.
      apply in_concat. by exists line. }
    destruct Ht as ((r1 & H1 & E1) & (r2 & H2 & E2) & (r3 & H3 & E3)
                    & (r4 & H4 & E4)).
    split; [exists r1; auto |]. split; [exists r2; auto |].
    split; [exists r3; auto | exists r4; auto]. }
  split.
  { rewrite <- (Forall2_length _ _ _ HF).
    rewrite <- (Permutation_length Hp), <- Hc.
    by apply length_concat_nonempty. }
  split; [| done].
  intros ->. apply Forall2_length in HF. destruct L; [| done].
  discriminate Hc.
Qed.

(** The four words of [two_lines], all selected, merge into one
    rectangle per line. *)
Lemma merge_rects_two_lines :
  exists m1 m2,
    _merge_rects_by_line both_lines_selected = Some [m1; m2]
    /\ r_left m1 == 10 /\ r_top m1 == 10
    /\ r_right m1 == 100 /\ r_bottom m1 == 20
    /\ r_left m2 == 10 /\ r_top m2 == 30
    /\ r_right m2 == 100 /\ r_bottom m2 == 40.
Proof.
  eexists _, _. split; [vm_compute; reflexivity |].
  repeat split.
Qed.

End MergeProofs.
